(** * The LVGL widgets of the Hebrew GUI firmware, embedded in Rocq

    A shallow embedding of [lib/widgets]: [widget_common.c],
    [lv_image_gallery.c], [lv_pull_refresh.c] and [lv_expandable_card.c],
    and of the statics of [theme_manager.cpp], [ui_helpers.cpp],
    [settings_modal.cpp], [main.cpp] and [lvgl_setup.cpp].

    - A C [int] is a [Z] that is wrapped to 32 bits after every arithmetic
      step ([wrap_int]); [uint32_t] is wrapped with [wrap_u32]; [%] is the
      truncating remainder and is undefined for a zero divisor.
    - A pointer is an [option]: [None] is [NULL].  LVGL objects are handles.
    - The [user_data] slot of the LVGL objects is a finite map from handles
      to the block it points to; no entry means a [NULL] user data.
    - Calls that show content on the screen and calls back into the
      application are appended to a log, oldest first.  Sizes, paddings,
      colours, scroll flags and ESP log lines are not recorded.  A
      callback is recorded where it is called and taken to return without
      calling the widget; what a refresh callback that calls the widget
      does is composed in [PullRefresh.scroll_event_cb_calling].
    - An operation is a function from the world to an [outcome]; [Trap] is
      undefined behaviour of the C code (a read through a dangling pointer,
      a read past an array, a remainder by zero). *)

From Stdlib Require Import ZArith Lia Ascii String DecimalString.
From stdpp Require Import base option list gmap strings.

Local Open Scope Z_scope.

(** ** C integers *)

Module CInt.

Definition INT_MIN : Z := - 2 ^ 31.
Definition INT_MAX : Z := 2 ^ 31 - 1.
Definition UINT32_MAX : Z := 2 ^ 32 - 1.

(** The ESP32 is a 32-bit target: [size_t] has 32 bits. *)
Definition SIZE_MAX : Z := 2 ^ 32 - 1.

Definition in_int (z : Z) : Prop := INT_MIN <= z <= INT_MAX.

(** Two's complement wrap-around of a signed 32-bit result. *)
Definition wrap_int (z : Z) : Z := (z + 2 ^ 31) mod 2 ^ 32 - 2 ^ 31.

(** Wrap-around of an unsigned 32-bit result. *)
Definition wrap_u32 (z : Z) : Z := z mod 2 ^ 32.

(** [a % b] on [int]: no value for a zero divisor nor for [INT_MIN % -1]. *)
Definition c_rem (a b : Z) : option Z :=
  if b =? 0 then None
  else if (a =? INT_MIN) && (b =? -1) then None
  else Some (Z.rem a b).

End CInt.
Import CInt.

(** ** Outcomes and the world *)

Inductive outcome (A : Type) : Type :=
| Ret (a : A)
| Trap.
Arguments Ret {A} a.
Arguments Trap {A}.

#[export] Instance outcome_ret : MRet outcome := fun _ a => Ret a.
#[export] Instance outcome_bind : MBind outcome := fun _ _ f m =>
  match m with Ret a => f a | Trap => Trap end.
#[export] Instance outcome_fmap : FMap outcome := fun _ _ f m =>
  match m with Ret a => Ret (f a) | Trap => Trap end.

(** An LVGL object handle ([lv_obj_t*] that is not [NULL]). *)
Definition lv_obj_t : Type := positive.

(** What a non-[NULL] user data pointer points to: a block that is still
    allocated, or one that [lv_free] has released. *)
Inductive block (D : Type) : Type :=
| Live (d : D)
| Freed.
Arguments Live {D} d.
Arguments Freed {D}.

(** An image descriptor ([lv_img_dsc_t]), named by its symbol. *)
Record lv_img_dsc_t : Type := {
  img_symbol : string
}.

(** The calls recorded in the log. *)
Inductive lvgl_call : Type :=
| lv_img_set_src (obj : lv_obj_t) (src : lv_img_dsc_t)
| lv_label_set_text (obj : lv_obj_t) (text : option string)
| set_indicator_visible (obj : lv_obj_t) (visible : bool)
| lv_obj_scroll_to_y (obj : lv_obj_t) (y : Z)
| lv_obj_scroll_to (obj : lv_obj_t) (x y : Z)
| lv_obj_scroll_to_view (obj : lv_obj_t)
| call_state_cb (cb : string) (container : lv_obj_t) (pull_distance : Z)
    (threshold_reached : bool)
| call_refresh_cb (cb : string) (container : lv_obj_t)
| call_on_expand (cb : string)
| call_on_collapse (cb : string).

Record world (D : Type) : Type := World {
  user_data : gmap lv_obj_t (block D);
  lvgl_log : list lvgl_call
}.
Arguments World {D} _ _.
Arguments user_data {D} _.
Arguments lvgl_log {D} _.

Definition log_call {D} (c : lvgl_call) (w : world D) : world D :=
  World (user_data w) (lvgl_log w ++ [c]).

Definition set_block {D} (o : lv_obj_t) (b : block D) (w : world D) : world D :=
  World (<[o := b]> (user_data w)) (lvgl_log w).

(** [lv_obj_get_user_data] behind the two [NULL] checks every widget makes
    first: the object, then its user data. *)
Definition get_widget_data {D} (w : world D) (obj : option lv_obj_t)
  : option (lv_obj_t * block D) :=
  match obj with
  | None => None
  | Some o =>
      match user_data w !! o with
      | None => None
      | Some b => Some (o, b)
      end
  end.

(** The object is [NULL] or its user data is [NULL]. *)
Definition null_widget {D} (w : world D) (obj : option lv_obj_t) : Prop :=
  obj = None \/ exists o, obj = Some o /\ user_data w !! o = None.

(** The text last handed to [lv_label_set_text] for [obj]. *)
Definition shown_text (log : list lvgl_call) (obj : lv_obj_t)
  : option (option string) :=
  foldl (fun acc c =>
           match c with
           | lv_label_set_text o t => if decide (o = obj) then Some t else acc
           | _ => acc
           end) None log.

(** The visibility last set on [obj] by [set_indicator_visible]. *)
Definition shown_visible (log : list lvgl_call) (obj : lv_obj_t) : option bool :=
  foldl (fun acc c =>
           match c with
           | set_indicator_visible o b => if decide (o = obj) then Some b else acc
           | _ => acc
           end) None log.

(** ** widget_common.c *)

Module WidgetCommon.

(** A font is named by the symbol of its descriptor. *)
Definition lv_font_t : Type := string.

(** [lv_conf.h]: [#define LV_FONT_DEFAULT &lv_font_dejavu_16_persian_hebrew]. *)
Definition LV_FONT_DEFAULT : lv_font_t := "lv_font_dejavu_16_persian_hebrew".

Inductive lv_base_dir_t : Type := LV_BASE_DIR_LTR | LV_BASE_DIR_RTL.

Record widget_style_t : Type := {
  base_dir : lv_base_dir_t;
  title_font : option lv_font_t;
  content_font : option lv_font_t;
  button_font : option lv_font_t;
  padding : Z;
  margin : Z;
  border_radius : Z;
  border_width : Z;
  enable_elastic_scroll : bool;
  enable_momentum_scroll : bool
}.

Definition widget_get_default_style : widget_style_t := {|
  base_dir := LV_BASE_DIR_LTR;
  title_font := None;
  content_font := None;
  button_font := None;
  padding := 15;
  margin := 8;
  border_radius := 8;
  border_width := 1;
  enable_elastic_scroll := true;
  enable_momentum_scroll := false
|}.

(** [widget_font_size_t] is a C enum: any [int] fits in it, which is why
    the [switch] has a [default]. *)
Definition widget_font_size_t : Type := Z.
Definition WIDGET_FONT_SIZE_SMALL : widget_font_size_t := 0.
Definition WIDGET_FONT_SIZE_NORMAL : widget_font_size_t := 1.
Definition WIDGET_FONT_SIZE_LARGE : widget_font_size_t := 2.

(** [p ? p : LV_FONT_DEFAULT] *)
Definition or_default_font (p : option lv_font_t) : option lv_font_t :=
  match p with
  | Some f => Some f
  | None => Some LV_FONT_DEFAULT
  end.

Definition widget_get_theme_font (style : option widget_style_t)
    (font_override : option lv_font_t) (font_size : widget_font_size_t)
  : option lv_font_t :=
  match font_override with
  | Some f => Some f
  | None =>
      match style with
      | None => Some LV_FONT_DEFAULT
      | Some st =>
          if font_size =? WIDGET_FONT_SIZE_SMALL then
            or_default_font (button_font st)
          else if font_size =? WIDGET_FONT_SIZE_NORMAL then
            or_default_font (content_font st)
          else if font_size =? WIDGET_FONT_SIZE_LARGE then
            or_default_font (title_font st)
          else
            or_default_font (content_font st)
      end
  end.

End WidgetCommon.
Import WidgetCommon.

(** ** lv_image_gallery.c *)

Module Gallery.

Record lv_gallery_image_t : Type := {
  img_src : option lv_img_dsc_t;
  label_text : option string;
  border_color : Z
}.

(** [sizeof(lv_gallery_image_t)] on the 32-bit target: two pointers and a
    [uint32_t]. *)
Definition sizeof_lv_gallery_image_t : Z := 12.

(** An array of [lv_gallery_image_t] that lies in the address space. *)
Definition array_in_memory (arr : list lv_gallery_image_t) : Prop :=
  sizeof_lv_gallery_image_t * Z.of_nat (length arr) <= SIZE_MAX.

Record lv_gallery_config_t : Type := {
  prev_text : option string;
  next_text : option string;
  style : widget_style_t;
  title_style : option string;
  button_style : option string
}.

Record lv_gallery_data_t : Type := {
  images : option (list lv_gallery_image_t);
  image_count : Z;
  current_index : Z;
  img_obj : option lv_obj_t;
  counter_label : option lv_obj_t;
  config : lv_gallery_config_t;
  counter_format : option string
}.

Definition set_current_index (i : Z) (d : lv_gallery_data_t) : lv_gallery_data_t := {|
  images := images d;
  image_count := image_count d;
  current_index := i;
  img_obj := img_obj d;
  counter_label := counter_label d;
  config := config d;
  counter_format := counter_format d
|}.

Definition set_objects (img lbl : option lv_obj_t) (d : lv_gallery_data_t)
  : lv_gallery_data_t := {|
  images := images d;
  image_count := image_count d;
  current_index := current_index d;
  img_obj := img;
  counter_label := lbl;
  config := config d;
  counter_format := counter_format d
|}.

Abbreviation gworld := (world lv_gallery_data_t).

Definition lv_image_gallery_get_default_config : lv_gallery_config_t := {|
  prev_text := Some "< Previous";
  next_text := Some "Next >";
  style := widget_get_default_style;
  title_style := None;
  button_style := None
|}.

Definition get_gallery_data (w : gworld) (gallery : option lv_obj_t)
  : option (lv_obj_t * block lv_gallery_data_t) :=
  get_widget_data w gallery.

(** [lv_btn_create] is the one step of [create_nav_button] that can fail
    once its arguments are there; [btn] is what it returned. *)
Definition create_nav_button (parent : option lv_obj_t) (text : option string)
    (btn : option lv_obj_t) : option lv_obj_t :=
  match parent, text with
  | Some _, Some _ => btn
  | _, _ => None
  end.

(** The [for] loop of [validate_images_array], [n] iterations from index
    [i] on. *)
Fixpoint validate_images_loop (arr : list lv_gallery_image_t) (i n : nat)
  : outcome bool :=
  match n with
  | O => Ret true
  | S n' =>
      match arr !! i with
      | None => Trap
      | Some im =>
          match img_src im with
          | None => Ret false
          | Some _ => validate_images_loop arr (S i) n'
          end
      end
  end.

Definition validate_images_array (imgs : option (list lv_gallery_image_t))
    (count : Z) : outcome bool :=
  match imgs with
  | None => Ret false
  | Some arr =>
      if count <=? 0 then Ret false
      else validate_images_loop arr 0 (Z.to_nat count)
  end.

Definition string_of_int (z : Z) : string :=
  NilZero.string_of_int (Z.to_int z).

(** [snprintf(counter_text, 128, "%d / %d - %s", ...)]: at most 127 bytes
    are kept. *)
Definition GALLERY_COUNTER_BUFFER_SIZE : nat := 128.

Definition counter_text (index count : Z) (label : string) : string :=
  String.substring 0 (GALLERY_COUNTER_BUFFER_SIZE - 1)
    (string_of_int index +:+ " / " +:+ string_of_int count +:+ " - " +:+ label).

(** [update_gallery_display] changes nothing in [data]: it only shows the
    current image and the counter. *)
Definition update_gallery_display (d : lv_gallery_data_t) (w : gworld)
  : outcome gworld :=
  match images d with
  | None => Ret w
  | Some arr =>
      if (current_index d <? 0) || (image_count d <=? current_index d) then Ret w
      else
        match arr !! Z.to_nat (current_index d) with
        | None => Trap
        | Some current_image =>
            let w1 :=
              match img_obj d, img_src current_image with
              | Some o, Some src => log_call (lv_img_set_src o src) w
              | _, _ => w
              end in
            let w2 :=
              match counter_label d with
              | Some l =>
                  log_call
                    (lv_label_set_text l
                       (Some
                          (counter_text (wrap_int (current_index d + 1))
                             (image_count d)
                             (default "" (label_text current_image))))) w1
              | None => w1
              end in
            Ret w2
        end
  end.

(** The body shared by [lv_image_gallery_next] and [next_button_event_cb]. *)
Definition gallery_step_index (new_index : lv_gallery_data_t -> option Z)
    (gallery : option lv_obj_t) (w : gworld) : outcome (unit * gworld) :=
  match get_gallery_data w gallery with
  | None => Ret (tt, w)
  | Some (_, Freed) => Trap
  | Some (g, Live d) =>
      match new_index d with
      | None => Trap
      | Some i =>
          let d' := set_current_index i d in
          w' ← update_gallery_display d' (set_block g (Live d') w);
          Ret (tt, w')
      end
  end.

(** [(data->current_index + 1) % data->image_count] *)
Definition next_index (d : lv_gallery_data_t) : option Z :=
  c_rem (wrap_int (current_index d + 1)) (image_count d).

(** [(data->current_index - 1 + data->image_count) % data->image_count] *)
Definition prev_index (d : lv_gallery_data_t) : option Z :=
  c_rem (wrap_int (wrap_int (current_index d - 1) + image_count d))
    (image_count d).

Definition lv_image_gallery_next := gallery_step_index next_index.
Definition lv_image_gallery_prev := gallery_step_index prev_index.

(** The click handlers get the gallery as the user data of the event. *)
Definition next_button_event_cb := gallery_step_index next_index.
Definition prev_button_event_cb := gallery_step_index prev_index.

Definition lv_image_gallery_set_index (gallery : option lv_obj_t) (index : Z)
    (w : gworld) : outcome (bool * gworld) :=
  match get_gallery_data w gallery with
  | None => Ret (false, w)
  | Some (_, Freed) => Trap
  | Some (g, Live d) =>
      if (index <? 0) || (image_count d <=? index) then Ret (false, w)
      else
        let d' := set_current_index index d in
        w' ← update_gallery_display d' (set_block g (Live d') w);
        Ret (true, w')
  end.

Definition lv_image_gallery_get_index (gallery : option lv_obj_t) (w : gworld)
  : outcome (Z * gworld) :=
  match get_gallery_data w gallery with
  | None => Ret (-1, w)
  | Some (_, Freed) => Trap
  | Some (_, Live d) => Ret (current_index d, w)
  end.

(** What LVGL answers while [lv_image_gallery_create] builds the widget.
    The source checks [lv_malloc], the main container and the two buttons;
    the other objects (the counter label, the image, the container of the
    buttons) are used as returned, unchecked, and are taken to exist. *)
Record create_env : Type := {
  malloc_data : bool;
  new_container : option lv_obj_t;
  new_counter_label : lv_obj_t;
  new_buttons_container : lv_obj_t;
  new_img_obj : lv_obj_t;
  new_prev_btn : option lv_obj_t;
  new_next_btn : option lv_obj_t
}.

Definition lv_image_gallery_create (env : create_env)
    (parent : option lv_obj_t) (imgs : option (list lv_gallery_image_t))
    (count : Z) (title : option string) (cfg_ptr : option lv_gallery_config_t)
    (w : gworld) : outcome (option lv_obj_t * gworld) :=
  match parent with
  | None => Ret (None, w)
  | Some _ =>
      valid ← validate_images_array imgs count;
      if negb valid then Ret (None, w)
      else
        let cfg := default lv_image_gallery_get_default_config cfg_ptr in
        if negb (malloc_data env) then Ret (None, w)
        else
          let data := {|
            images := imgs;
            image_count := count;
            current_index := 0;
            img_obj := None;
            counter_label := None;
            config := cfg;
            counter_format := None
          |} in
          match new_container env with
          | None => Ret (None, w)
          | Some container =>
              let data :=
                set_objects (Some (new_img_obj env))
                  (Some (new_counter_label env)) data in
              let w1 := set_block container (Live data) w in
              let p_text := Some (default "< Previous" (prev_text cfg)) in
              let n_text := Some (default "Next >" (next_text cfg)) in
              let prev_btn :=
                create_nav_button (Some (new_buttons_container env)) p_text
                  (new_prev_btn env) in
              let next_btn :=
                create_nav_button (Some (new_buttons_container env)) n_text
                  (new_next_btn env) in
              match prev_btn, next_btn with
              | Some _, Some _ =>
                  w2 ← update_gallery_display data w1;
                  Ret (Some container, w2)
              | _, _ =>
                  (* cleanup_gallery_data(data): the container stays and
                     keeps the pointer *)
                  Ret (None, set_block container Freed w1)
              end
          end
  end.

(** The image last handed to [lv_img_set_src] for [obj]. *)
Definition shown_image (log : list lvgl_call) (obj : lv_obj_t)
  : option lv_img_dsc_t :=
  foldl (fun acc c =>
           match c with
           | lv_img_set_src o src => if decide (o = obj) then Some src else acc
           | _ => acc
           end) None log.

(** The block the constructor fills in. *)
Definition created_data (env : create_env)
    (imgs : option (list lv_gallery_image_t)) (count : Z)
    (cfg_ptr : option lv_gallery_config_t) : lv_gallery_data_t := {|
  images := imgs;
  image_count := count;
  current_index := 0;
  img_obj := Some (new_img_obj env);
  counter_label := Some (new_counter_label env);
  config := default lv_image_gallery_get_default_config cfg_ptr;
  counter_format := None
|}.

(** The live data of gallery [g]. *)
Definition gallery_of (g : lv_obj_t) (w : gworld) : option lv_gallery_data_t :=
  match user_data w !! g with
  | Some (Live d) => Some d
  | _ => None
  end.

(** The contract of the [images] argument: when it is not [NULL] it
    points to at least [count] entries. *)
Definition array_holds (imgs : option (list lv_gallery_image_t)) (count : Z)
  : Prop :=
  match imgs with
  | Some arr => count <= Z.of_nat (length arr)
  | None => True
  end.

(** A gallery block as the constructor leaves it on the target: at least
    one image, and an array of at least [image_count] entries that lies in
    the address space. *)
Definition gallery_wf (d : lv_gallery_data_t) : Prop :=
  1 <= image_count d /\
  exists arr,
    images d = Some arr /\ image_count d <= Z.of_nat (length arr) /\
    array_in_memory arr.

Definition index_in_range (d : lv_gallery_data_t) : Prop :=
  0 <= current_index d < image_count d.

(** The current index of [g] once [op] has run on it. *)
Definition index_after
    (op : option lv_obj_t -> gworld -> outcome (unit * gworld))
    (g : lv_obj_t) (w : gworld) : option Z :=
  match op (Some g) w with
  | Ret (_, w') => current_index <$> gallery_of g w'
  | Trap => None
  end.

(** One of the first [count] images has a [NULL] source. *)
Definition has_null_src (imgs : option (list lv_gallery_image_t)) (count : Z)
  : Prop :=
  exists arr i im,
    imgs = Some arr /\ (i < Z.to_nat count)%nat /\ arr !! i = Some im /\
    img_src im = None.

(** One of the steps the constructor checks has failed. *)
Definition internal_failure (env : create_env) : Prop :=
  malloc_data env = false \/ new_container env = None \/
  new_prev_btn env = None \/ new_next_btn env = None.

(** [gallery_delete_event_cb] with [cleanup_gallery_data]: the data of
    the deleted object is released; a user data pointer that was released
    before is read and released again. *)
Definition gallery_delete_event_cb (obj : lv_obj_t) (w : gworld)
  : outcome gworld :=
  match user_data w !! obj with
  | None => Ret w
  | Some Freed => Trap
  | Some (Live _) => Ret (set_block obj Freed w)
  end.

(** [k] calls of [op] on gallery [g], one after the other. *)
Fixpoint repeat_step (k : nat)
    (op : option lv_obj_t -> gworld -> outcome (unit * gworld))
    (g : lv_obj_t) (w : gworld) : outcome (unit * gworld) :=
  match k with
  | O => Ret (tt, w)
  | S k' =>
      match op (Some g) w with
      | Ret (_, w') => repeat_step k' op g w'
      | Trap => Trap
      end
  end.

(** The screen shows the current image of gallery [g]: the counter label
    holds its position and label, and the image object its source. *)
Definition displays_current (g : lv_obj_t) (w : gworld) : Prop :=
  exists d arr im o l,
    gallery_of g w = Some d /\ images d = Some arr /\
    arr !! Z.to_nat (current_index d) = Some im /\
    img_obj d = Some o /\ counter_label d = Some l /\
    shown_text (lvgl_log w) l
    = Some (Some (counter_text (current_index d + 1) (image_count d)
                    (default "" (label_text im)))) /\
    (forall src, img_src im = Some src ->
                 shown_image (lvgl_log w) o = Some src).

End Gallery.

(** ** lv_pull_refresh.c *)

Module PullRefresh.

Definition PULL_DEFAULT_THRESHOLD : Z := 25.
Definition PULL_DEFAULT_INDICATOR_SIZE : Z := 24.
Definition PULL_REFRESH_COOLDOWN : Z := 1000.

(** LVGL's glyphs for the icon (U+F021 and U+F078 in UTF-8). *)
Definition LV_SYMBOL_REFRESH : string :=
  String (ascii_of_nat 239) (String (ascii_of_nat 128)
    (String (ascii_of_nat 161) EmptyString)).
Definition LV_SYMBOL_DOWN : string :=
  String (ascii_of_nat 239) (String (ascii_of_nat 129)
    (String (ascii_of_nat 184) EmptyString)).

Inductive lv_pull_state_t : Type :=
| PULL_STATE_IDLE
| PULL_STATE_PULLING
| PULL_STATE_READY
| PULL_STATE_REFRESHING.

#[export] Instance lv_pull_state_eq_dec : EqDecision lv_pull_state_t.
Proof. solve_decision. Defined.

(** The value of the enumerator in C. *)
Definition pull_state_code (s : lv_pull_state_t) : Z :=
  match s with
  | PULL_STATE_IDLE => 0
  | PULL_STATE_PULLING => 1
  | PULL_STATE_READY => 2
  | PULL_STATE_REFRESHING => 3
  end.

Definition all_pull_states : list lv_pull_state_t :=
  [PULL_STATE_IDLE; PULL_STATE_PULLING; PULL_STATE_READY; PULL_STATE_REFRESHING].

(** Callbacks are function pointers, named by their symbol. *)
Record lv_pull_refresh_config_t : Type := {
  pull_text : option string;
  release_text : option string;
  refreshing_text : option string;
  pull_threshold : Z;
  indicator_size : Z;
  show_indicator : bool;
  style : widget_style_t;
  refresh_cb : option string;
  state_cb : option string;
  cb_user_data : option string
}.

Record lv_pull_refresh_data_t : Type := {
  config : lv_pull_refresh_config_t;
  indicator_label : option lv_obj_t;
  indicator_icon : option lv_obj_t;
  state : lv_pull_state_t;
  current_pull_distance : Z;
  refresh_triggered : bool;
  last_refresh_time : Z;
  enabled : bool
}.

Definition set_state (s : lv_pull_state_t) (d : lv_pull_refresh_data_t) := {|
  config := config d; indicator_label := indicator_label d;
  indicator_icon := indicator_icon d; state := s;
  current_pull_distance := current_pull_distance d;
  refresh_triggered := refresh_triggered d;
  last_refresh_time := last_refresh_time d; enabled := enabled d
|}.

Definition set_current_pull_distance (x : Z) (d : lv_pull_refresh_data_t) := {|
  config := config d; indicator_label := indicator_label d;
  indicator_icon := indicator_icon d; state := state d;
  current_pull_distance := x;
  refresh_triggered := refresh_triggered d;
  last_refresh_time := last_refresh_time d; enabled := enabled d
|}.

Definition set_refresh_triggered (b : bool) (d : lv_pull_refresh_data_t) := {|
  config := config d; indicator_label := indicator_label d;
  indicator_icon := indicator_icon d; state := state d;
  current_pull_distance := current_pull_distance d;
  refresh_triggered := b;
  last_refresh_time := last_refresh_time d; enabled := enabled d
|}.

Definition set_last_refresh_time (t : Z) (d : lv_pull_refresh_data_t) := {|
  config := config d; indicator_label := indicator_label d;
  indicator_icon := indicator_icon d; state := state d;
  current_pull_distance := current_pull_distance d;
  refresh_triggered := refresh_triggered d;
  last_refresh_time := t; enabled := enabled d
|}.

Definition set_enabled (b : bool) (d : lv_pull_refresh_data_t) := {|
  config := config d; indicator_label := indicator_label d;
  indicator_icon := indicator_icon d; state := state d;
  current_pull_distance := current_pull_distance d;
  refresh_triggered := refresh_triggered d;
  last_refresh_time := last_refresh_time d; enabled := b
|}.

Abbreviation pworld := (world lv_pull_refresh_data_t).

Definition lv_pull_refresh_get_default_config : lv_pull_refresh_config_t := {|
  pull_text := Some "Pull to refresh";
  release_text := Some "Release to refresh";
  refreshing_text := Some "Refreshing...";
  pull_threshold := PULL_DEFAULT_THRESHOLD;
  indicator_size := PULL_DEFAULT_INDICATOR_SIZE;
  show_indicator := true;
  style := widget_get_default_style;
  refresh_cb := None;
  state_cb := None;
  cb_user_data := None
|}.

Definition get_pull_refresh_data (w : pworld) (container : option lv_obj_t)
  : option (lv_obj_t * block lv_pull_refresh_data_t) :=
  get_widget_data w container.

(** The [switch] of [update_indicator_display]: the text and whether the
    indicator shows. *)
Definition indicator_for (d : lv_pull_refresh_data_t) : option string * bool :=
  match state d with
  | PULL_STATE_IDLE => (None, false)
  | PULL_STATE_PULLING => (pull_text (config d), true)
  | PULL_STATE_READY => (release_text (config d), true)
  | PULL_STATE_REFRESHING => (refreshing_text (config d), true)
  end.

Definition update_indicator_display (d : lv_pull_refresh_data_t) (w : pworld)
  : pworld :=
  if negb (show_indicator (config d)) then w
  else
    let '(text, show) := indicator_for d in
    let w1 :=
      match indicator_label d with
      | Some l =>
          match show, text with
          | true, Some t =>
              log_call (set_indicator_visible l true)
                (log_call (lv_label_set_text l (Some t)) w)
          | _, _ => log_call (set_indicator_visible l false) w
          end
      | None => w
      end in
    match indicator_icon d with
    | Some ic =>
        if show then
          log_call
            (lv_label_set_text ic
               (Some (if decide (state d = PULL_STATE_REFRESHING)
                      then LV_SYMBOL_REFRESH else LV_SYMBOL_DOWN)))
            (log_call (set_indicator_visible ic true) w1)
        else log_call (set_indicator_visible ic false) w1
    | None => w1
    end.

(** [set_pull_state] works on the block [data] points to; the new content
    of the block is returned with the world. *)
Definition set_pull_state (d : lv_pull_refresh_data_t)
    (new_state : lv_pull_state_t) (container : lv_obj_t) (w : pworld)
  : lv_pull_refresh_data_t * pworld :=
  if decide (state d = new_state) then (d, w)
  else
    let d' := set_state new_state d in
    let w1 := update_indicator_display d' w in
    match state_cb (config d') with
    | Some cb =>
        let threshold_reached :=
          bool_decide (new_state = PULL_STATE_READY) ||
          bool_decide (new_state = PULL_STATE_REFRESHING) in
        (d', log_call
               (call_state_cb cb container (current_pull_distance d')
                  threshold_reached) w1)
    | None => (d', w1)
    end.

Inductive lv_event_code_t : Type :=
| LV_EVENT_SCROLL
| LV_EVENT_SCROLL_END
| LV_EVENT_OTHER.

(** The state a scroll event asks for, from the pull distance. *)
Definition state_for_distance (distance threshold : Z) : lv_pull_state_t :=
  if distance <=? 0 then PULL_STATE_IDLE
  else if distance <? threshold then PULL_STATE_PULLING
  else PULL_STATE_READY.

(** [scroll_y] is what [lv_obj_get_scroll_y] answers and [tick] what
    [lv_tick_get] answers during the event. *)
Definition scroll_event_cb (code : lv_event_code_t)
    (container : option lv_obj_t) (scroll_y tick : Z) (w : pworld)
  : outcome pworld :=
  match get_pull_refresh_data w container with
  | None => Ret w
  | Some (_, Freed) => Trap
  | Some (c, Live d) =>
      if negb (enabled d) then Ret w
      else
        match code with
        | LV_EVENT_SCROLL =>
            let d1 := set_current_pull_distance (wrap_int (- scroll_y)) d in
            if decide (state d1 = PULL_STATE_REFRESHING) then
              Ret (set_block c (Live d1) w)
            else
              let '(d2, w2) :=
                set_pull_state d1
                  (state_for_distance (current_pull_distance d1)
                     (pull_threshold (config d1))) c w in
              Ret (set_block c (Live d2) w2)
        | LV_EVENT_SCROLL_END =>
            (* the two nested tests and the cooldown test of the source; the
               branch taken returns, every other case falls through *)
            if bool_decide (state d = PULL_STATE_READY)
               && negb (refresh_triggered d)
               && (PULL_REFRESH_COOLDOWN <=?
                     wrap_u32 (tick - last_refresh_time d))
            then
              let d1 := set_last_refresh_time tick
                          (set_refresh_triggered true d) in
              let '(d2, w2) := set_pull_state d1 PULL_STATE_REFRESHING c w in
              let w3 :=
                match refresh_cb (config d2) with
                | Some cb => log_call (call_refresh_cb cb c) w2
                | None => w2
                end in
              Ret (set_block c (Live d2) w3)
            else if decide (state d = PULL_STATE_REFRESHING) then Ret w
            else
              let w1 := log_call (lv_obj_scroll_to_y c 0) w in
              let '(d2, w2) := set_pull_state d PULL_STATE_IDLE c w1 in
              Ret (set_block c (Live d2) w2)
        | LV_EVENT_OTHER => Ret w
        end
  end.

Definition lv_pull_refresh_complete (container : option lv_obj_t) (w : pworld)
  : outcome (unit * pworld) :=
  match get_pull_refresh_data w container with
  | None => Ret (tt, w)
  | Some (_, Freed) => Trap
  | Some (c, Live d) =>
      let d1 := set_current_pull_distance 0 (set_refresh_triggered false d) in
      let '(d2, w2) := set_pull_state d1 PULL_STATE_IDLE c w in
      Ret (tt, log_call (lv_obj_scroll_to_y c 0) (set_block c (Live d2) w2))
  end.

Definition lv_pull_refresh_is_refreshing (container : option lv_obj_t)
    (w : pworld) : outcome (bool * pworld) :=
  match get_pull_refresh_data w container with
  | None => Ret (false, w)
  | Some (_, Freed) => Trap
  | Some (_, Live d) => Ret (bool_decide (state d = PULL_STATE_REFRESHING), w)
  end.

Definition lv_pull_refresh_set_refreshing (container : option lv_obj_t)
    (refreshing : bool) (w : pworld) : outcome (unit * pworld) :=
  match get_pull_refresh_data w container with
  | None => Ret (tt, w)
  | Some (_, Freed) => Trap
  | Some (c, Live d) =>
      if refreshing then
        let d1 := set_refresh_triggered true d in
        let '(d2, w2) := set_pull_state d1 PULL_STATE_REFRESHING c w in
        Ret (tt, set_block c (Live d2) w2)
      else lv_pull_refresh_complete container w
  end.

Definition lv_pull_refresh_get_pull_distance (container : option lv_obj_t)
    (w : pworld) : outcome (Z * pworld) :=
  match get_pull_refresh_data w container with
  | None => Ret (0, w)
  | Some (_, Freed) => Trap
  | Some (_, Live d) => Ret (current_pull_distance d, w)
  end.

Definition lv_pull_refresh_set_enabled (container : option lv_obj_t)
    (en : bool) (w : pworld) : outcome (unit * pworld) :=
  match get_pull_refresh_data w container with
  | None => Ret (tt, w)
  | Some (_, Freed) => Trap
  | Some (c, Live d) =>
      let d1 := set_enabled en d in
      let w1 := set_block c (Live d1) w in
      if negb en && negb (bool_decide (state d1 = PULL_STATE_IDLE)) then
        lv_pull_refresh_complete container w1
      else Ret (tt, w1)
  end.

(** What LVGL answers while [lv_pull_refresh_create] builds the widget;
    the two indicator labels are used as returned. *)
Record create_env : Type := {
  malloc_data : bool;
  new_container : option lv_obj_t;
  new_indicator_label : lv_obj_t;
  new_indicator_icon : lv_obj_t
}.

Definition lv_pull_refresh_create (env : create_env)
    (parent : option lv_obj_t) (cfg_ptr : option lv_pull_refresh_config_t)
    (w : pworld) : option lv_obj_t * pworld :=
  match parent with
  | None => (None, w)
  | Some _ =>
      match cfg_ptr with
      | None => (None, w)
      | Some cfg =>
          match refresh_cb cfg with
          | None => (None, w)
          | Some _ =>
              if negb (malloc_data env) then (None, w)
              else
                match new_container env with
                | None => (None, w)
                | Some container =>
                    let shown := show_indicator cfg in
                    let data := {|
                      config := cfg;
                      indicator_label :=
                        if shown then Some (new_indicator_label env) else None;
                      indicator_icon :=
                        if shown then Some (new_indicator_icon env) else None;
                      state := PULL_STATE_IDLE;
                      current_pull_distance := 0;
                      refresh_triggered := false;
                      last_refresh_time := 0;
                      enabled := true
                    |} in
                    let w1 :=
                      if shown then
                        log_call
                          (lv_label_set_text (new_indicator_icon env)
                             (Some LV_SYMBOL_REFRESH)) w
                      else w in
                    (Some container, set_block container (Live data) w1)
                end
          end
      end
  end.

(** Everything that can happen to a container once it exists: the events
    the widget listens to and the public operations. *)
Inductive action : Type :=
| Event (code : lv_event_code_t) (scroll_y tick : Z)
| Complete
| IsRefreshing
| SetRefreshing (refreshing : bool)
| GetPullDistance
| SetEnabled (en : bool).

Definition run_action (a : action) (c : lv_obj_t) (w : pworld)
  : outcome pworld :=
  match a with
  | Event code scroll_y tick => scroll_event_cb code (Some c) scroll_y tick w
  | Complete => snd <$> lv_pull_refresh_complete (Some c) w
  | IsRefreshing => snd <$> lv_pull_refresh_is_refreshing (Some c) w
  | SetRefreshing b => snd <$> lv_pull_refresh_set_refreshing (Some c) b w
  | GetPullDistance => snd <$> lv_pull_refresh_get_pull_distance (Some c) w
  | SetEnabled b => snd <$> lv_pull_refresh_set_enabled (Some c) b w
  end.

(** The worlds in which container [c] can be found after its creation. *)
Inductive reachable (c : lv_obj_t) : pworld -> Prop :=
| reach_create env parent cfg w0 w :
    lv_pull_refresh_create env parent cfg w0 = (Some c, w) ->
    reachable c w
| reach_step a w w' :
    reachable c w ->
    run_action a c w = Ret w' ->
    reachable c w'.

(** The state of container [c], when it has live data. *)
Definition state_of (c : lv_obj_t) (w : pworld) : option lv_pull_state_t :=
  match user_data w !! c with
  | Some (Live d) => Some (state d)
  | _ => None
  end.

Definition data_of (c : lv_obj_t) (w : pworld) : option lv_pull_refresh_data_t :=
  match user_data w !! c with
  | Some (Live d) => Some d
  | _ => None
  end.

(** The refresh callbacks in a log. *)
Definition is_refresh_call (c : lvgl_call) : bool :=
  match c with
  | call_refresh_cb _ _ => true
  | _ => false
  end.

Definition refresh_calls (log : list lvgl_call) : list lvgl_call :=
  filter (fun c => is_refresh_call c = true) log.

(** *** The actions as functions of the block

    What an action does to the block of the container and what it appends
    to the log, read off [run_action] (lemma [run_action_effect]). *)

(** The test of [scroll_event_cb] for starting a refresh at [tick]. *)
Definition triggers (d : lv_pull_refresh_data_t) (tick : Z) : bool :=
  bool_decide (state d = PULL_STATE_READY)
  && negb (refresh_triggered d)
  && (PULL_REFRESH_COOLDOWN <=? wrap_u32 (tick - last_refresh_time d)).

(** The block after [lv_pull_refresh_complete]. *)
Definition completed (d : lv_pull_refresh_data_t) : lv_pull_refresh_data_t :=
  set_state PULL_STATE_IDLE
    (set_current_pull_distance 0 (set_refresh_triggered false d)).

Definition data_after (a : action) (d : lv_pull_refresh_data_t)
  : lv_pull_refresh_data_t :=
  match a with
  | Event LV_EVENT_SCROLL scroll_y _ =>
      if enabled d then
        let d1 := set_current_pull_distance (wrap_int (- scroll_y)) d in
        if decide (state d = PULL_STATE_REFRESHING) then d1
        else set_state
               (state_for_distance (wrap_int (- scroll_y))
                  (pull_threshold (config d))) d1
      else d
  | Event LV_EVENT_SCROLL_END _ tick =>
      if enabled d then
        if triggers d tick then
          set_state PULL_STATE_REFRESHING
            (set_last_refresh_time tick (set_refresh_triggered true d))
        else if decide (state d = PULL_STATE_REFRESHING) then d
        else set_state PULL_STATE_IDLE d
      else d
  | Event LV_EVENT_OTHER _ _ => d
  | Complete => completed d
  | IsRefreshing => d
  | SetRefreshing true =>
      set_state PULL_STATE_REFRESHING (set_refresh_triggered true d)
  | SetRefreshing false => completed d
  | GetPullDistance => d
  | SetEnabled en =>
      if negb en && negb (bool_decide (state d = PULL_STATE_IDLE)) then
        completed (set_enabled en d)
      else set_enabled en d
  end.

(** The calls of [update_indicator_display] for block [d]. *)
Definition indicator_calls (d : lv_pull_refresh_data_t) : list lvgl_call :=
  if negb (show_indicator (config d)) then []
  else
    let '(text, show) := indicator_for d in
    match indicator_label d with
    | Some l =>
        match show, text with
        | true, Some t =>
            [lv_label_set_text l (Some t); set_indicator_visible l true]
        | _, _ => [set_indicator_visible l false]
        end
    | None => []
    end
    ++
    match indicator_icon d with
    | Some ic =>
        if show then
          [set_indicator_visible ic true;
           lv_label_set_text ic
             (Some (if decide (state d = PULL_STATE_REFRESHING)
                    then LV_SYMBOL_REFRESH else LV_SYMBOL_DOWN))]
        else [set_indicator_visible ic false]
    | None => []
    end.

(** The calls of [set_pull_state] from block [d] to state [s]. *)
Definition state_change_calls (d : lv_pull_refresh_data_t)
    (s : lv_pull_state_t) (c : lv_obj_t) : list lvgl_call :=
  if decide (state d = s) then []
  else
    indicator_calls (set_state s d)
    ++ match state_cb (config d) with
       | Some cb =>
           [call_state_cb cb c (current_pull_distance d)
              (bool_decide (s = PULL_STATE_READY)
               || bool_decide (s = PULL_STATE_REFRESHING))]
       | None => []
       end.

Definition complete_calls (d : lv_pull_refresh_data_t) (c : lv_obj_t)
  : list lvgl_call :=
  state_change_calls
    (set_current_pull_distance 0 (set_refresh_triggered false d))
    PULL_STATE_IDLE c
  ++ [lv_obj_scroll_to_y c 0].

Definition log_after (a : action) (c : lv_obj_t) (d : lv_pull_refresh_data_t)
  : list lvgl_call :=
  match a with
  | Event LV_EVENT_SCROLL scroll_y _ =>
      if enabled d then
        let d1 := set_current_pull_distance (wrap_int (- scroll_y)) d in
        if decide (state d = PULL_STATE_REFRESHING) then []
        else state_change_calls d1
               (state_for_distance (wrap_int (- scroll_y))
                  (pull_threshold (config d))) c
      else []
  | Event LV_EVENT_SCROLL_END _ tick =>
      if enabled d then
        if triggers d tick then
          state_change_calls
            (set_last_refresh_time tick (set_refresh_triggered true d))
            PULL_STATE_REFRESHING c
          ++ match refresh_cb (config d) with
             | Some cb => [call_refresh_cb cb c]
             | None => []
             end
        else if decide (state d = PULL_STATE_REFRESHING) then []
        else lv_obj_scroll_to_y c 0 :: state_change_calls d PULL_STATE_IDLE c
      else []
  | Event LV_EVENT_OTHER _ _ => []
  | Complete => complete_calls d c
  | IsRefreshing => []
  | SetRefreshing true =>
      state_change_calls (set_refresh_triggered true d) PULL_STATE_REFRESHING c
  | SetRefreshing false => complete_calls d c
  | GetPullDistance => []
  | SetEnabled en =>
      if negb en && negb (bool_decide (state d = PULL_STATE_IDLE)) then
        complete_calls (set_enabled en d) c
      else []
  end.

(** The flag [refresh_triggered] and the state agree. *)
Definition flag_agrees (d : lv_pull_refresh_data_t) : Prop :=
  refresh_triggered d = true <-> state d = PULL_STATE_REFRESHING.

Definition is_state_call (c : lvgl_call) : bool :=
  match c with
  | call_state_cb _ _ _ _ => true
  | _ => false
  end.

(** The state callbacks in a log. *)
Definition state_calls (log : list lvgl_call) : list lvgl_call :=
  filter (fun c => is_state_call c = true) log.

(** *** A refresh callback that calls the widget

    [scroll_event_cb] calls the refresh callback last: the block then
    holds what the handler wrote, and the handler returns right after the
    call.  A refresh callback that calls public operations of the widget
    on its container therefore runs them on the world the handler leaves.
    The example of [lv_pull_refresh.h] calls [lv_pull_refresh_complete];
    the callback of [pull_refresh_tab.cpp] calls none, it completes from a
    timer.  [ops] are the operations the refresh callback calls, in
    order; the state callback is taken not to call the widget. *)
Fixpoint run_ops (ops : list action) (c : lv_obj_t) (w : pworld)
  : outcome pworld :=
  match ops with
  | [] => Ret w
  | a :: ops' =>
      match run_action a c w with
      | Ret w' => run_ops ops' c w'
      | Trap => Trap
      end
  end.

(** [scroll_event_cb] with a refresh callback that calls [ops]: they run
    when the handler has called the refresh callback. *)
Definition scroll_event_cb_calling (ops : list action) (code : lv_event_code_t)
    (c : lv_obj_t) (scroll_y tick : Z) (w : pworld) : outcome pworld :=
  match scroll_event_cb code (Some c) scroll_y tick w with
  | Ret w1 =>
      if (length (refresh_calls (lvgl_log w))
          <? length (refresh_calls (lvgl_log w1)))%nat
      then run_ops ops c w1
      else Ret w1
  | Trap => Trap
  end.

End PullRefresh.

(** ** lv_expandable_card.c *)

Module Card.

Definition CARD_DEFAULT_BUTTON_WIDTH : Z := 100.
Definition CARD_DEFAULT_BUTTON_HEIGHT : Z := 30.
Definition CARD_DEFAULT_TRUNCATE_LENGTH : Z := 60.

Record lv_card_data_t : Type := {
  title : option string;
  content : option string
}.

Record lv_card_config_t : Type := {
  expand_text : option string;
  collapse_text : option string;
  truncate_length : Z;
  truncate_suffix : option string;
  max_content_height : Z;
  button_width : Z;
  button_height : Z;
  style : widget_style_t;
  title_style : option string;
  button_style : option string;
  on_expand : option string;
  on_collapse : option string;
  cb_user_data : option string
}.

Record lv_card_widget_data_t : Type := {
  card_data : option lv_card_data_t;
  content_container : option lv_obj_t;
  content_label : option lv_obj_t;
  expand_btn : option lv_obj_t;
  expand_label : option lv_obj_t;
  config : lv_card_config_t;
  expanded : bool;
  truncated_text : option string
}.

Definition set_expanded (b : bool) (d : lv_card_widget_data_t) := {|
  card_data := card_data d; content_container := content_container d;
  content_label := content_label d; expand_btn := expand_btn d;
  expand_label := expand_label d; config := config d;
  expanded := b; truncated_text := truncated_text d
|}.

Definition set_truncated_text (t : option string) (d : lv_card_widget_data_t) := {|
  card_data := card_data d; content_container := content_container d;
  content_label := content_label d; expand_btn := expand_btn d;
  expand_label := expand_label d; config := config d;
  expanded := expanded d; truncated_text := t
|}.

Abbreviation cworld := (world lv_card_widget_data_t).

Definition lv_expandable_card_get_default_config : lv_card_config_t := {|
  expand_text := Some "Show More";
  collapse_text := Some "Show Less";
  truncate_length := CARD_DEFAULT_TRUNCATE_LENGTH;
  truncate_suffix := Some "...";
  max_content_height := 0;
  button_width := CARD_DEFAULT_BUTTON_WIDTH;
  button_height := CARD_DEFAULT_BUTTON_HEIGHT;
  style := widget_get_default_style;
  title_style := None;
  button_style := None;
  on_expand := None;
  on_collapse := None;
  cb_user_data := None
|}.

Definition get_card_data (w : cworld) (card : option lv_obj_t)
  : option (lv_obj_t * block lv_card_widget_data_t) :=
  get_widget_data w card.

Definition validate_card_data (cd : option lv_card_data_t) : bool :=
  match cd with
  | None => false
  | Some c =>
      match title c, content c with
      | Some _, Some _ => true
      | _, _ => false
      end
  end.

(** *** C strings

    A [string] holds the bytes at a [char*]; the C string ends at the end
    of the [string] or at its first NUL byte. *)

Definition byte_of (c : ascii) : Z := Z.of_N (N_of_ascii c).

Definition is_nul (c : ascii) : bool := byte_of c =? 0.

(** [( *p & 0xC0) == 0x80]: a UTF-8 continuation byte. *)
Definition is_continuation (c : ascii) : bool :=
  Z.land (byte_of c) 192 =? 128.

(** The bytes before the terminator. *)
Fixpoint c_str (s : string) : string :=
  match s with
  | EmptyString => EmptyString
  | String c s' => if is_nul c then EmptyString else String c (c_str s')
  end.

Definition strlen (s : string) : Z := Z.of_nat (String.length (c_str s)).

(** The [while] loop of [utf8_char_count] from [p] on. *)
Fixpoint utf8_char_count_loop (p : string) (char_count : Z) : Z :=
  match p with
  | EmptyString => char_count
  | String c p' =>
      if is_nul c then char_count
      else
        utf8_char_count_loop p'
          (if is_continuation c then char_count
           else wrap_int (char_count + 1))
  end.

Definition utf8_char_count (text : option string) : Z :=
  match text with
  | None => 0
  | Some t => utf8_char_count_loop t 0
  end.

(** The [while] loop of [utf8_char_to_byte_pos] from [p] on. *)
Fixpoint utf8_char_to_byte_pos_loop (p : string)
    (char_pos char_count byte_pos : Z) : Z :=
  match p with
  | EmptyString => byte_pos
  | String c p' =>
      if is_nul c || negb (char_count <? char_pos) then byte_pos
      else
        let char_count :=
          if is_continuation c then char_count
          else wrap_int (char_count + 1) in
        let byte_pos :=
          if char_count <? char_pos then wrap_int (byte_pos + 1)
          else byte_pos in
        utf8_char_to_byte_pos_loop p' char_pos char_count byte_pos
  end.

Definition utf8_char_to_byte_pos (text : option string) (char_pos : Z) : Z :=
  match text with
  | None => 0
  | Some t =>
      if char_pos <=? 0 then 0
      else utf8_char_to_byte_pos_loop t char_pos 0 0
  end.

(** [malloc_ok] tells whether the [lv_malloc] of the result succeeds. *)
Definition create_truncated_text (malloc_ok : bool) (full_text : option string)
    (max_chars : Z) (suffix : option string) : option string :=
  match full_text with
  | None => None
  | Some ft =>
      let full_char_count := utf8_char_count full_text in
      let suffix_char_count :=
        match suffix with
        | Some _ => utf8_char_count suffix
        | None => 0
        end in
      if full_char_count <=? max_chars then
        if malloc_ok then Some (c_str ft) else None
      else
        let truncate_char_count := wrap_int (max_chars - suffix_char_count) in
        let truncate_char_count :=
          if truncate_char_count <? 0 then 0 else truncate_char_count in
        let truncate_byte_pos :=
          utf8_char_to_byte_pos full_text truncate_char_count in
        let suffix_byte_len :=
          match suffix with
          | Some s => strlen s
          | None => 0
          end in
        if negb malloc_ok then None
        else
          (* strncpy(result, full_text, truncate_byte_pos) and the NUL *)
          let result :=
            String.substring 0 (Z.to_nat truncate_byte_pos) (c_str ft) in
          match suffix with
          | Some s =>
              if 0 <? suffix_byte_len then Some (result +:+ c_str s)
              else Some result
          | None => Some result
          end
  end.

(** [update_card_display] fills the cache [truncated_text] of the block. *)
Definition update_card_display (malloc_ok : bool) (d : lv_card_widget_data_t)
    (w : cworld) : lv_card_widget_data_t * cworld :=
  match card_data d with
  | None => (d, w)
  | Some cd =>
      let '(d1, w1) :=
        match content_label d with
        | Some lbl =>
            if expanded d then
              (d, log_call (lv_label_set_text lbl (content cd)) w)
            else
              let d' :=
                match truncated_text d with
                | None =>
                    set_truncated_text
                      (create_truncated_text malloc_ok (content cd)
                         (truncate_length (config d))
                         (truncate_suffix (config d))) d
                | Some _ => d
                end in
              let shown :=
                match truncated_text d' with
                | Some t => Some t
                | None => content cd
                end in
              let w' :=
                match content_container d' with
                | Some cc => log_call (lv_obj_scroll_to cc 0 0) w
                | None => w
                end in
              (d', log_call (lv_label_set_text lbl shown) w')
        | None => (d, w)
        end in
      match expand_label d1 with
      | Some l =>
          (d1, log_call
                 (lv_label_set_text l
                    (if expanded d1 then collapse_text (config d1)
                     else expand_text (config d1))) w1)
      | None => (d1, w1)
      end
  end.

Definition expand_button_event_cb (malloc_ok : bool) (card : option lv_obj_t)
    (w : cworld) : outcome cworld :=
  match get_card_data w card with
  | None => Ret w
  | Some (_, Freed) => Trap
  | Some (c, Live d) =>
      let '(d1, w1) :=
        update_card_display malloc_ok (set_expanded (negb (expanded d)) d) w in
      let w2 :=
        match expanded d1, on_expand (config d1), on_collapse (config d1) with
        | true, Some cb, _ => log_call (call_on_expand cb) w1
        | false, _, Some cb => log_call (call_on_collapse cb) w1
        | _, _, _ => w1
        end in
      let w3 :=
        if expanded d1 then w2 else log_call (lv_obj_scroll_to_view c) w2 in
      Ret (set_block c (Live d1) w3)
  end.

Definition lv_expandable_card_set_expanded (malloc_ok : bool)
    (card : option lv_obj_t) (b : bool) (w : cworld) : outcome (bool * cworld) :=
  match get_card_data w card with
  | None => Ret (false, w)
  | Some (_, Freed) => Trap
  | Some (c, Live d) =>
      let '(d1, w1) := update_card_display malloc_ok (set_expanded b d) w in
      Ret (true, set_block c (Live d1) w1)
  end.

Definition lv_expandable_card_is_expanded (card : option lv_obj_t) (w : cworld)
  : outcome (bool * cworld) :=
  match get_card_data w card with
  | None => Ret (false, w)
  | Some (_, Freed) => Trap
  | Some (_, Live d) => Ret (expanded d, w)
  end.

Definition lv_expandable_card_toggle (malloc_ok : bool)
    (card : option lv_obj_t) (w : cworld) : outcome (unit * cworld) :=
  match get_card_data w card with
  | None => Ret (tt, w)
  | Some (_, Freed) => Trap
  | Some (c, Live d) =>
      let '(d1, w1) :=
        update_card_display malloc_ok (set_expanded (negb (expanded d)) d) w in
      Ret (tt, set_block c (Live d1) w1)
  end.

(** What LVGL answers while [lv_expandable_card_create] builds the widget:
    the source checks [lv_malloc] of the data and the card container. *)
Record create_env : Type := {
  malloc_data : bool;
  malloc_text : bool;
  new_container : option lv_obj_t;
  new_title_label : lv_obj_t;
  new_content_container : lv_obj_t;
  new_content_label : lv_obj_t;
  new_expand_btn : lv_obj_t;
  new_expand_label : lv_obj_t
}.

Definition lv_expandable_card_create (env : create_env)
    (parent : option lv_obj_t) (cd : option lv_card_data_t)
    (cfg_ptr : option lv_card_config_t) (w : cworld)
  : option lv_obj_t * cworld :=
  match parent with
  | None => (None, w)
  | Some _ =>
      if negb (validate_card_data cd) then (None, w)
      else
        let cfg := default lv_expandable_card_get_default_config cfg_ptr in
        let cfg := {|
          expand_text := Some (default "Show More" (expand_text cfg));
          collapse_text := Some (default "Show Less" (collapse_text cfg));
          truncate_length := truncate_length cfg;
          truncate_suffix := truncate_suffix cfg;
          max_content_height := max_content_height cfg;
          button_width := button_width cfg;
          button_height := button_height cfg;
          style := style cfg;
          title_style := title_style cfg;
          button_style := button_style cfg;
          on_expand := on_expand cfg;
          on_collapse := on_collapse cfg;
          cb_user_data := cb_user_data cfg
        |} in
        if negb (malloc_data env) then (None, w)
        else
          match new_container env with
          | None => (None, w)
          | Some card_container =>
              let data := {|
                card_data := cd;
                content_container := Some (new_content_container env);
                content_label := Some (new_content_label env);
                expand_btn := Some (new_expand_btn env);
                expand_label := Some (new_expand_label env);
                config := cfg;
                expanded := false;
                truncated_text := None
              |} in
              let w1 :=
                log_call
                  (lv_label_set_text (new_title_label env)
                     (cd ≫= title)) w in
              let '(d1, w2) := update_card_display (malloc_text env) data w1 in
              (Some card_container, set_block card_container (Live d1) w2)
          end
  end.

(** *** The truncation as the specification words it *)

(** The first [n] UTF-8 characters of [s]: [n] lead bytes, each with the
    continuation bytes that follow it. *)
Fixpoint utf8_take (n : nat) (s : string) : string :=
  match s with
  | EmptyString => EmptyString
  | String c s' =>
      if is_continuation c then String c (utf8_take n s')
      else
        match n with
        | O => EmptyString
        | S n' => String c (utf8_take n' s')
        end
  end.

(** The result the specification describes for [create_truncated_text]. *)
Definition spec_truncated_text (content : string) (L : Z) (s : string) : string :=
  if utf8_char_count (Some content) <=? L then content
  else utf8_take (Z.to_nat (L - utf8_char_count (Some s))) content +:+ s.

(** The live data of card [c]. *)
Definition card_of (c : lv_obj_t) (w : cworld) : option lv_card_widget_data_t :=
  match user_data w !! c with
  | Some (Live d) => Some d
  | _ => None
  end.

(** The flag [lv_expandable_card_is_expanded] reports for [c]. *)
Definition expanded_of (c : lv_obj_t) (w : cworld) : option bool :=
  match lv_expandable_card_is_expanded (Some c) w with
  | Ret (b, _) => Some b
  | Trap => None
  end.

(** The bytes of [s] that start a character: all but the continuation
    bytes. *)
Fixpoint lead_bytes (s : string) : nat :=
  match s with
  | EmptyString => O
  | String c s' => ((if is_continuation c then 0 else 1) + lead_bytes s')%nat
  end.

(** Everything that can happen to a card once it exists: the two public
    operations that change it and a click on its button. *)
Inductive card_action : Type :=
| Toggle
| SetExpanded (b : bool)
| Clicked.

Definition run_card_action (malloc_ok : bool) (a : card_action) (c : lv_obj_t)
    (w : cworld) : outcome cworld :=
  match a with
  | Toggle => snd <$> lv_expandable_card_toggle malloc_ok (Some c) w
  | SetExpanded b =>
      snd <$> lv_expandable_card_set_expanded malloc_ok (Some c) b w
  | Clicked => expand_button_event_cb malloc_ok (Some c) w
  end.

(** The expansion flag an action asks for. *)
Definition expanded_after (a : card_action) (d : lv_card_widget_data_t)
  : bool :=
  match a with
  | Toggle | Clicked => negb (expanded d)
  | SetExpanded b => b
  end.

Definition is_card_callback (c : lvgl_call) : bool :=
  match c with
  | call_on_expand _ | call_on_collapse _ => true
  | _ => false
  end.

(** The calls of [on_expand] and [on_collapse] in a log. *)
Definition card_callbacks (log : list lvgl_call) : list lvgl_call :=
  filter (fun c => is_card_callback c = true) log.

End Card.

(** ** theme_manager.cpp and ui_helpers.cpp

    The statics of the two files make one state.  LVGL keeps the theme of
    the display; the colour [lv_theme_get_color_primary] answers is kept
    as the theme it was asked under. *)

Module Theme.

Definition lv_display_t : Type := positive.

Inductive lv_palette_t : Type :=
| LV_PALETTE_BLUE
| LV_PALETTE_LIGHT_BLUE
| LV_PALETTE_CYAN
| LV_PALETTE_GREY.

Inductive palette_color : Type :=
| lv_palette_lighten (p : lv_palette_t) (lvl : Z)
| lv_palette_darken (p : lv_palette_t) (lvl : Z).

(** The arguments of [lv_theme_default_init]. *)
Record lv_theme_t : Type := {
  color_primary : palette_color;
  color_secondary : palette_color;
  dark : bool;
  font : string
}.

Inductive lv_color_t : Type :=
| lv_color_white
| lv_color_black
| lv_theme_get_color_primary (current : option lv_theme_t).

(** The two properties the files set on their styles. *)
Record lv_style_t : Type := {
  text_color : option lv_color_t;
  bg_color : option lv_color_t
}.

Definition lv_style_init : lv_style_t :=
  {| text_color := None; bg_color := None |}.

(** A style is [Some] once its [_initialized] flag is set. *)
Record ui_state : Type := {
  g_is_dark_mode : bool;
  g_display : option lv_display_t;
  display_theme : option lv_theme_t;
  theme_inits : list lv_theme_t;
  title_style : option lv_style_t;
  button_style : option lv_style_t;
  switch_style : option lv_style_t
}.

(** The statics as the program starts. *)
Definition boot : ui_state := {|
  g_is_dark_mode := false;
  g_display := None;
  display_theme := None;
  theme_inits := [];
  title_style := None;
  button_style := None;
  switch_style := None
|}.

Definition set_mode (disp : option lv_display_t) (b : bool) (s : ui_state)
  : ui_state := {|
  g_is_dark_mode := b;
  g_display := disp;
  display_theme := display_theme s;
  theme_inits := theme_inits s;
  title_style := title_style s;
  button_style := button_style s;
  switch_style := switch_style s
|}.

(** [lv_disp_set_theme] of the theme [lv_theme_default_init] returns. *)
Definition lv_disp_set_theme (th : lv_theme_t) (s : ui_state) : ui_state := {|
  g_is_dark_mode := g_is_dark_mode s;
  g_display := g_display s;
  display_theme := Some th;
  theme_inits := theme_inits s ++ [th];
  title_style := title_style s;
  button_style := button_style s;
  switch_style := switch_style s
|}.

Definition set_styles (t b sw : option lv_style_t) (s : ui_state) : ui_state := {|
  g_is_dark_mode := g_is_dark_mode s;
  g_display := g_display s;
  display_theme := display_theme s;
  theme_inits := theme_inits s;
  title_style := t;
  button_style := b;
  switch_style := sw
|}.

Definition ui_update_title_style (s : ui_state) : ui_state :=
  match title_style s with
  | Some st =>
      set_styles
        (Some {| text_color :=
                   Some (lv_theme_get_color_primary (display_theme s));
                 bg_color := bg_color st |})
        (button_style s) (switch_style s) s
  | None => s
  end.

Definition ui_update_button_style (is_dark_mode : bool) (s : ui_state)
  : ui_state :=
  match button_style s with
  | Some st =>
      set_styles (title_style s)
        (Some {| text_color :=
                   Some (if is_dark_mode then lv_color_black
                         else lv_color_white);
                 bg_color :=
                   Some (lv_theme_get_color_primary (display_theme s)) |})
        (switch_style s) s
  | None => s
  end.

Definition ui_update_switch_style (s : ui_state) : ui_state :=
  match switch_style s with
  | Some st =>
      set_styles (title_style s) (button_style s)
        (Some {| text_color := text_color st;
                 bg_color :=
                   Some (lv_theme_get_color_primary (display_theme s)) |})
        s
  | None => s
  end.

Definition ui_get_title_style (s : ui_state) : option lv_style_t :=
  title_style s.

Definition ui_get_button_style (s : ui_state) : option lv_style_t :=
  button_style s.

Definition ui_get_switch_style (s : ui_state) : option lv_style_t :=
  switch_style s.

(** The part of [ui_create_title_label] that touches the statics. *)
Definition ui_create_title_label (s : ui_state) : ui_state :=
  let primary := lv_theme_get_color_primary (display_theme s) in
  set_styles
    (match title_style s with
     | Some st => Some st
     | None => Some {| text_color := Some primary;
                       bg_color := bg_color lv_style_init |}
     end)
    (match button_style s with
     | Some st => Some st
     | None => Some {| text_color := Some lv_color_white;
                       bg_color := Some primary |}
     end)
    (match switch_style s with
     | Some st => Some st
     | None => Some {| text_color := text_color lv_style_init;
                       bg_color := Some primary |}
     end)
    s.

(** The theme [theme_manager_apply_theme] builds for a mode. *)
Definition theme_of_mode (dark_mode : bool) : lv_theme_t :=
  if dark_mode then
    {| color_primary := lv_palette_lighten LV_PALETTE_LIGHT_BLUE 4;
       color_secondary := lv_palette_lighten LV_PALETTE_CYAN 4;
       dark := true;
       font := "opensans_hebrew_16" |}
  else
    {| color_primary := lv_palette_darken LV_PALETTE_BLUE 1;
       color_secondary := lv_palette_darken LV_PALETTE_GREY 2;
       dark := false;
       font := "opensans_hebrew_16" |}.

Definition theme_manager_apply_theme (s : ui_state) : ui_state :=
  match g_display s with
  | None => s
  | Some _ =>
      let s1 := lv_disp_set_theme (theme_of_mode (g_is_dark_mode s)) s in
      ui_update_switch_style
        (ui_update_button_style (g_is_dark_mode s1)
           (ui_update_title_style s1))
  end.

Definition theme_manager_init (disp : option lv_display_t) (s : ui_state)
  : ui_state :=
  theme_manager_apply_theme (set_mode disp false s).

Definition theme_manager_is_dark_mode (s : ui_state) : bool :=
  g_is_dark_mode s.

Definition theme_manager_set_dark_mode (dark_mode : bool) (s : ui_state)
  : ui_state :=
  if Bool.eqb (g_is_dark_mode s) dark_mode then s
  else theme_manager_apply_theme (set_mode (g_display s) dark_mode s).

Definition theme_manager_toggle_mode (s : ui_state) : ui_state :=
  theme_manager_set_dark_mode (negb (g_is_dark_mode s)) s.

(** What the application does to the theme once it runs. *)
Inductive ui_action : Type :=
| SetDarkMode (dark_mode : bool)
| ToggleMode
| ApplyTheme
| CreateTitleLabel.

Definition run_ui_action (a : ui_action) (s : ui_state) : ui_state :=
  match a with
  | SetDarkMode b => theme_manager_set_dark_mode b s
  | ToggleMode => theme_manager_toggle_mode s
  | ApplyTheme => theme_manager_apply_theme s
  | CreateTitleLabel => ui_create_title_label s
  end.

Definition run_ui_actions (acts : list ui_action) (s : ui_state) : ui_state :=
  foldl (fun s a => run_ui_action a s) s acts.

(** [create_hebrew_tabview]: the theme manager is initialised, then the
    tabs create their title labels. *)
Definition started (disp : lv_display_t) : ui_state :=
  ui_create_title_label (theme_manager_init (Some disp) boot).

End Theme.

(** ** settings_modal.cpp: the backlight *)

Module Settings.

Definition PWM_CHANNEL : Z := 0.

Definition wrap_u8 (z : Z) : Z := z mod 256.

(** [uint8_t pwm_value = (brightness_level * 255) / 100]: [int]
    arithmetic, the quotient truncated toward zero, then the low byte. *)
Definition pwm_value (brightness_level : Z) : Z :=
  wrap_u8 (Z.quot (wrap_int (brightness_level * 255)) 100).

(** The statics of the backlight and what was written to the PWM channel
    and to the label of the slider. *)
Record settings_state : Type := {
  brightness_level : Z;
  pwm_initialized : bool;
  ledc_writes : list Z;
  brightness_label : option string
}.

Definition boot : settings_state := {|
  brightness_level := 100;
  pwm_initialized := false;
  ledc_writes := [];
  brightness_label := None
|}.

(** [slider_value] is what [lv_slider_get_value] answers. *)
Definition brightness_slider_event_cb (slider_value : Z) (s : settings_state)
  : settings_state := {|
  brightness_level := slider_value;
  pwm_initialized := pwm_initialized s;
  ledc_writes := ledc_writes s ++ [pwm_value slider_value];
  brightness_label := Some (Gallery.string_of_int slider_value +:+ "%")
|}.

(** The backlight part of [create_settings_modal]; the slider is created
    with range 0 to 100 and the stored level. *)
Definition create_settings_modal (s : settings_state) : settings_state := {|
  brightness_level := brightness_level s;
  pwm_initialized := true;
  ledc_writes :=
    if pwm_initialized s then ledc_writes s
    else ledc_writes s ++ [pwm_value (brightness_level s)];
  brightness_label :=
    Some (Gallery.string_of_int (brightness_level s) +:+ "%")
|}.

Inductive settings_action : Type :=
| OpenModal
| MoveSlider (slider_value : Z).

Definition run_settings_action (a : settings_action) (s : settings_state)
  : settings_state :=
  match a with
  | OpenModal => create_settings_modal s
  | MoveSlider v => brightness_slider_event_cb v s
  end.

Definition run_settings_actions (acts : list settings_action)
    (s : settings_state) : settings_state :=
  foldl (fun s a => run_settings_action a s) s acts.

(** The slider only reports values of its range. *)
Definition in_slider_range (a : settings_action) : Prop :=
  match a with
  | OpenModal => True
  | MoveSlider v => 0 <= v <= 100
  end.

End Settings.

(** ** main.cpp: the statistics of [loop]

    [unsigned long] has 32 bits on the ESP32.  The frame rate, a [float],
    and the log lines are left out. *)

Module MainLoop.

Record loop_state : Type := {
  last_frame_time : Z;
  frame_count : Z;
  fps_display_enabled : bool;
  max_render_time : Z;
  total_render_time : Z;
  render_samples : Z;
  last_benchmark_reset : Z;
  frames_under_100ms : Z;
  frames_under_450ms : Z;
  frames_under_550ms : Z;
  frames_above_550ms : Z
}.

Definition boot : loop_state := {|
  last_frame_time := 0;
  frame_count := 0;
  fps_display_enabled := true;
  max_render_time := 0;
  total_render_time := 0;
  render_samples := 0;
  last_benchmark_reset := 0;
  frames_under_100ms := 0;
  frames_under_450ms := 0;
  frames_under_550ms := 0;
  frames_above_550ms := 0
|}.

Definition toggle_fps_display (s : loop_state) : loop_state := {|
  last_frame_time := last_frame_time s;
  frame_count := frame_count s;
  fps_display_enabled := negb (fps_display_enabled s);
  max_render_time := max_render_time s;
  total_render_time := total_render_time s;
  render_samples := render_samples s;
  last_benchmark_reset := last_benchmark_reset s;
  frames_under_100ms := frames_under_100ms s;
  frames_under_450ms := frames_under_450ms s;
  frames_under_550ms := frames_under_550ms s;
  frames_above_550ms := frames_above_550ms s
|}.

Definition is_fps_display_enabled (s : loop_state) : bool :=
  fps_display_enabled s.

(** One run of [loop]: [current_time] is what [millis] answers and
    [render_time] the difference of the two answers of [micros]. *)
Definition loop (current_time render_time : Z) (s : loop_state) : loop_state :=
  let elapsedTime := wrap_u32 (current_time - last_frame_time s) in
  let second := 1000 <=? elapsedTime in
  let frame_count1 := if second then 0 else frame_count s in
  let last_frame_time1 := if second then current_time else last_frame_time s in
  let total := wrap_u32 (total_render_time s + render_time) in
  let samples := wrap_int (render_samples s + 1) in
  let max := if max_render_time s <? render_time then render_time
             else max_render_time s in
  let under_100 :=
    if render_time <? 100000 then wrap_int (frames_under_100ms s + 1)
    else frames_under_100ms s in
  let under_450 :=
    if render_time <? 100000 then frames_under_450ms s
    else if render_time <? 450000 then wrap_int (frames_under_450ms s + 1)
    else frames_under_450ms s in
  let under_550 :=
    if render_time <? 100000 then frames_under_550ms s
    else if render_time <? 450000 then frames_under_550ms s
    else if render_time <? 550000 then wrap_int (frames_under_550ms s + 1)
    else frames_under_550ms s in
  let above_550 :=
    if render_time <? 100000 then frames_above_550ms s
    else if render_time <? 450000 then frames_above_550ms s
    else if render_time <? 550000 then frames_above_550ms s
    else wrap_int (frames_above_550ms s + 1) in
  let reset :=
    (100 <=? elapsedTime)
    && (10000 <=? wrap_u32 (current_time - last_benchmark_reset s)) in
  {|
    last_frame_time := last_frame_time1;
    frame_count := wrap_int (frame_count1 + 1);
    fps_display_enabled := fps_display_enabled s;
    max_render_time := if reset then 0 else max;
    total_render_time := if reset then 0 else total;
    render_samples := if reset then 0 else samples;
    last_benchmark_reset :=
      if reset then current_time else last_benchmark_reset s;
    frames_under_100ms := if reset then 0 else under_100;
    frames_under_450ms := if reset then 0 else under_450;
    frames_under_550ms := if reset then 0 else under_550;
    frames_above_550ms := if reset then 0 else above_550
  |}.

(** The runs of [loop] on the answers of the clock, one pair a run. *)
Definition run_loops (clock : list (Z * Z)) (s : loop_state) : loop_state :=
  foldl (fun s '(current_time, render_time) => loop current_time render_time s)
    s clock.

End MainLoop.

(** ** lvgl_setup.cpp: the touch input *)

Module Touch.

Inductive lv_indev_state_t : Type :=
| LV_INDEV_STATE_REL
| LV_INDEV_STATE_PR.

Record lv_indev_data_t : Type := {
  state : lv_indev_state_t;
  point_x : Z;
  point_y : Z
}.

(** The two lines the callback logs. *)
Inductive touch_log : Type :=
| touch_pressed (x y : Z)
| touch_released.

(** The static [was_pressed] and the lines logged so far. *)
Record touch_state : Type := {
  was_pressed : bool;
  logged : list touch_log
}.

Definition boot : touch_state := {| was_pressed := false; logged := [] |}.

(** [touch] is what [gfx.getTouch] answers: the coordinates when the panel
    is touched. *)
Definition touch_read_callback (touch : option (Z * Z))
    (data : lv_indev_data_t) (s : touch_state)
  : lv_indev_data_t * touch_state :=
  match touch with
  | None =>
      ({| state := LV_INDEV_STATE_REL;
          point_x := point_x data;
          point_y := point_y data |},
       {| was_pressed := false;
          logged := if was_pressed s then logged s ++ [touch_released]
                    else logged s |})
  | Some (touch_x, touch_y) =>
      ({| state := LV_INDEV_STATE_PR;
          point_x := touch_x;
          point_y := touch_y |},
       {| was_pressed := true;
          logged := if was_pressed s then logged s
                    else logged s ++ [touch_pressed touch_x touch_y] |})
  end.

(** The callback run on the answers of the panel, one after the other. *)
Definition run_touch (samples : list (option (Z * Z)))
    (r : lv_indev_data_t * touch_state) : lv_indev_data_t * touch_state :=
  foldl (fun r touch => touch_read_callback touch r.1 r.2) r samples.

Definition is_press (l : touch_log) : bool :=
  match l with
  | touch_pressed _ _ => true
  | touch_released => false
  end.

(** The presses and the releases logged. *)
Definition presses (log : list touch_log) : Z :=
  Z.of_nat (length (filter (fun l => is_press l = true) log)).

Definition releases (log : list touch_log) : Z :=
  Z.of_nat (length (filter (fun l => is_press l = false) log)).

End Touch.

(** ** The widgets as the application sets them up *)

Module Examples.

(** *** gallery_tab.cpp *)

Definition tab : lv_obj_t := 1%positive.

Definition gallery_images : list Gallery.lv_gallery_image_t := [
  {| Gallery.img_src := Some {| img_symbol := "image_1" |};
     Gallery.label_text := Some "תמונה 1";
     Gallery.border_color := 0x2196F3 |};
  {| Gallery.img_src := Some {| img_symbol := "image_2" |};
     Gallery.label_text := Some "תמונה 2";
     Gallery.border_color := 0x4CAF50 |};
  {| Gallery.img_src := Some {| img_symbol := "image_3" |};
     Gallery.label_text := Some "תמונה 3";
     Gallery.border_color := 0xFF5722 |}
].

Definition gallery_env : Gallery.create_env := {|
  Gallery.malloc_data := true;
  Gallery.new_container := Some 2%positive;
  Gallery.new_counter_label := 3%positive;
  Gallery.new_buttons_container := 4%positive;
  Gallery.new_img_obj := 5%positive;
  Gallery.new_prev_btn := Some 6%positive;
  Gallery.new_next_btn := Some 7%positive
|}.

Definition gallery : lv_obj_t := 2%positive.

Definition empty_gallery_world : Gallery.gworld := World ∅ [].

(** The world after [create_gallery_tab]. *)
Definition gallery_world : Gallery.gworld :=
  match
    Gallery.lv_image_gallery_create gallery_env (Some tab)
      (Some gallery_images) 3 (Some "Gallery") None empty_gallery_world
  with
  | Ret (_, w) => w
  | Trap => empty_gallery_world
  end.

Definition gallery_data : Gallery.lv_gallery_data_t :=
  Gallery.created_data gallery_env (Some gallery_images) 3 None.

(** *** pull_refresh_tab.cpp *)

Definition pull_config : PullRefresh.lv_pull_refresh_config_t := {|
  PullRefresh.pull_text := Some "Pull to refresh";
  PullRefresh.release_text := Some "Release to refresh";
  PullRefresh.refreshing_text := Some "Refreshing...";
  PullRefresh.pull_threshold := PullRefresh.PULL_DEFAULT_THRESHOLD;
  PullRefresh.indicator_size := PullRefresh.PULL_DEFAULT_INDICATOR_SIZE;
  PullRefresh.show_indicator := true;
  PullRefresh.style := widget_get_default_style;
  PullRefresh.refresh_cb := Some "pull_refresh_callback";
  PullRefresh.state_cb := Some "pull_state_callback";
  PullRefresh.cb_user_data := None
|}.

(** The same configuration with a threshold of zero pixels. *)
Definition zero_threshold_config : PullRefresh.lv_pull_refresh_config_t := {|
  PullRefresh.pull_text := Some "Pull to refresh";
  PullRefresh.release_text := Some "Release to refresh";
  PullRefresh.refreshing_text := Some "Refreshing...";
  PullRefresh.pull_threshold := 0;
  PullRefresh.indicator_size := PullRefresh.PULL_DEFAULT_INDICATOR_SIZE;
  PullRefresh.show_indicator := true;
  PullRefresh.style := widget_get_default_style;
  PullRefresh.refresh_cb := Some "pull_refresh_callback";
  PullRefresh.state_cb := Some "pull_state_callback";
  PullRefresh.cb_user_data := None
|}.

Definition pull_env : PullRefresh.create_env := {|
  PullRefresh.malloc_data := true;
  PullRefresh.new_container := Some 2%positive;
  PullRefresh.new_indicator_label := 3%positive;
  PullRefresh.new_indicator_icon := 4%positive
|}.

Definition pull_container : lv_obj_t := 2%positive.

Definition empty_pull_world : PullRefresh.pworld := World ∅ [].

Definition pull_world : PullRefresh.pworld :=
  (PullRefresh.lv_pull_refresh_create pull_env (Some tab) (Some pull_config)
     empty_pull_world).2.

Definition zero_threshold_world : PullRefresh.pworld :=
  (PullRefresh.lv_pull_refresh_create pull_env (Some tab)
     (Some zero_threshold_config) empty_pull_world).2.

(** The block of a fresh container with configuration [cfg]. *)
Definition fresh_pull_data (cfg : PullRefresh.lv_pull_refresh_config_t)
  : PullRefresh.lv_pull_refresh_data_t := {|
  PullRefresh.config := cfg;
  PullRefresh.indicator_label := Some 3%positive;
  PullRefresh.indicator_icon := Some 4%positive;
  PullRefresh.state := PullRefresh.PULL_STATE_IDLE;
  PullRefresh.current_pull_distance := 0;
  PullRefresh.refresh_triggered := false;
  PullRefresh.last_refresh_time := 0;
  PullRefresh.enabled := true
|}.

(** The world after [actions], run in order on [c] from [w]; a trap keeps
    the world it happened in. *)
Definition run_actions (actions : list PullRefresh.action) (c : lv_obj_t)
    (w : PullRefresh.pworld) : PullRefresh.pworld :=
  foldl (fun w a =>
           match PullRefresh.run_action a c w with
           | Ret w' => w'
           | Trap => w
           end) w actions.

(** A pull of 40 pixels, past the threshold. *)
Definition pulled_world : PullRefresh.pworld :=
  run_actions [PullRefresh.Event PullRefresh.LV_EVENT_SCROLL (-40) 1990]
    pull_container pull_world.

(** The pull is released two seconds after start: the container is
    refreshing. *)
Definition refreshing_world : PullRefresh.pworld :=
  run_actions [PullRefresh.Event PullRefresh.LV_EVENT_SCROLL_END (-40) 2000]
    pull_container pulled_world.

Definition refreshing_data : PullRefresh.lv_pull_refresh_data_t := {|
  PullRefresh.config := pull_config;
  PullRefresh.indicator_label := Some 3%positive;
  PullRefresh.indicator_icon := Some 4%positive;
  PullRefresh.state := PullRefresh.PULL_STATE_REFRESHING;
  PullRefresh.current_pull_distance := 40;
  PullRefresh.refresh_triggered := true;
  PullRefresh.last_refresh_time := 2000;
  PullRefresh.enabled := true
|}.

(** *** news_tab.cpp *)

(** The English article, shown with the default configuration. *)
Definition english_article : Card.lv_card_data_t := {|
  Card.title := Some "LVGL Multi-Language Support Demo";
  Card.content := Some
    ("This English card demonstrates that the expandable card widget supports both RTL and LTR text layouts. " +:+
     "The widget automatically handles text direction based on configuration. This makes it perfect for " +:+
     "international applications that need to support multiple languages with different reading directions. " +:+
     "Notice how this card flows left-to-right while Hebrew cards flow right-to-left seamlessly.")
|}.

Definition card_env : Card.create_env := {|
  Card.malloc_data := true;
  Card.malloc_text := true;
  Card.new_container := Some 2%positive;
  Card.new_title_label := 3%positive;
  Card.new_content_container := 4%positive;
  Card.new_content_label := 5%positive;
  Card.new_expand_btn := 6%positive;
  Card.new_expand_label := 7%positive
|}.

Definition card : lv_obj_t := 2%positive.

Definition empty_card_world : Card.cworld := World ∅ [].

Definition card_world : Card.cworld :=
  (Card.lv_expandable_card_create card_env (Some tab) (Some english_article)
     None empty_card_world).2.

Definition card_data_created : Card.lv_card_widget_data_t :=
  default
    {| Card.card_data := None; Card.content_container := None;
       Card.content_label := None; Card.expand_btn := None;
       Card.expand_label := None;
       Card.config := Card.lv_expandable_card_get_default_config;
       Card.expanded := false; Card.truncated_text := None |}
    (Card.card_of card card_world).

(** *** Further situations *)

(** The gallery of the tab when LVGL cannot make the "next" button. *)
Definition failing_gallery_env : Gallery.create_env := {|
  Gallery.malloc_data := true;
  Gallery.new_container := Some 2%positive;
  Gallery.new_counter_label := 3%positive;
  Gallery.new_buttons_container := 4%positive;
  Gallery.new_img_obj := 5%positive;
  Gallery.new_prev_btn := Some 6%positive;
  Gallery.new_next_btn := None
|}.

(** The block of the container after the pull of 40 pixels. *)
Definition pulled_data : PullRefresh.lv_pull_refresh_data_t := {|
  PullRefresh.config := pull_config;
  PullRefresh.indicator_label := Some 3%positive;
  PullRefresh.indicator_icon := Some 4%positive;
  PullRefresh.state := PullRefresh.PULL_STATE_READY;
  PullRefresh.current_pull_distance := 40;
  PullRefresh.refresh_triggered := false;
  PullRefresh.last_refresh_time := 0;
  PullRefresh.enabled := true
|}.

(** Nine characters in seventeen bytes. *)
Definition shalom_olam : string := "שלום עולם".

(** The world after the constructor has failed at the "next" button. *)
Definition failed_gallery_world : Gallery.gworld :=
  match
    Gallery.lv_image_gallery_create failing_gallery_env (Some tab)
      (Some gallery_images) 3 (Some "Gallery") None empty_gallery_world
  with
  | Ret (_, w) => w
  | Trap => empty_gallery_world
  end.

(** The English article on a card whose configuration has both
    callbacks. *)
Definition callback_card_config : Card.lv_card_config_t := {|
  Card.expand_text := Some "Show More";
  Card.collapse_text := Some "Show Less";
  Card.truncate_length := Card.CARD_DEFAULT_TRUNCATE_LENGTH;
  Card.truncate_suffix := Some "...";
  Card.max_content_height := 0;
  Card.button_width := Card.CARD_DEFAULT_BUTTON_WIDTH;
  Card.button_height := Card.CARD_DEFAULT_BUTTON_HEIGHT;
  Card.style := widget_get_default_style;
  Card.title_style := None;
  Card.button_style := None;
  Card.on_expand := Some "on_card_expand";
  Card.on_collapse := Some "on_card_collapse";
  Card.cb_user_data := None
|}.

Definition no_card_data : Card.lv_card_widget_data_t :=
  {| Card.card_data := None; Card.content_container := None;
     Card.content_label := None; Card.expand_btn := None;
     Card.expand_label := None;
     Card.config := Card.lv_expandable_card_get_default_config;
     Card.expanded := false; Card.truncated_text := None |}.

Definition callback_card_world : Card.cworld :=
  (Card.lv_expandable_card_create card_env (Some tab) (Some english_article)
     (Some callback_card_config) empty_card_world).2.

Definition callback_card_data : Card.lv_card_widget_data_t :=
  default no_card_data (Card.card_of card callback_card_world).

(** The same card after [lv_expandable_card_set_expanded] with [true]. *)
Definition expanded_callback_card_world : Card.cworld :=
  match
    Card.lv_expandable_card_set_expanded true (Some card) true
      callback_card_world
  with
  | Ret (_, w) => w
  | Trap => callback_card_world
  end.

Definition expanded_callback_card_data : Card.lv_card_widget_data_t :=
  default no_card_data (Card.card_of card expanded_callback_card_world).

(** The settings are opened, the slider is moved to 40, the settings are
    opened again. *)
Definition settings_session : list Settings.settings_action :=
  [Settings.OpenModal; Settings.MoveSlider 40; Settings.OpenModal].

(** Four runs of [loop], one render time for each counter. *)
Definition four_frames : list (Z * Z) :=
  [(0, 50000); (16, 200000); (33, 500000); (50, 600000)].

End Examples.

(** * Properties *)

(** ** C integers and the world *)

Lemma wrap_int_id (z : Z) : in_int z -> wrap_int z = z.
Proof.
  unfold in_int, wrap_int, INT_MIN, INT_MAX. intros Hz.
  rewrite Z.mod_small; lia.
Qed.

Lemma wrap_int_range (z : Z) : in_int (wrap_int z).
Proof.
  unfold in_int, wrap_int, INT_MIN, INT_MAX.
  pose proof (Z.mod_pos_bound (z + 2 ^ 31) (2 ^ 32) ltac:(lia)). lia.
Qed.

Lemma c_rem_nonneg (a b : Z) :
  0 <= a -> 0 < b -> c_rem a b = Some (a mod b).
Proof.
  intros Ha Hb. unfold c_rem.
  destruct (Z.eqb_spec b 0) as [->|_]; [lia|].
  destruct (Z.eqb_spec a INT_MIN) as [->|_]; [unfold INT_MIN in Ha; lia|].
  simpl. by rewrite Z.rem_mod_nonneg by lia.
Qed.

Lemma get_widget_data_null {D} (w : world D) obj :
  null_widget w obj -> get_widget_data w obj = None.
Proof.
  intros [-> | (o & -> & Ho)]; simpl; [done|]. by rewrite Ho.
Qed.

(** ** widget_common.c *)

(** C7: [widget_get_theme_font] returns the override when there is one;
    without an override and without a style it returns the LVGL default
    font; with a style it returns [button_font] for SMALL, [content_font]
    for NORMAL and [title_font] for LARGE, and the LVGL default font when
    that field is [NULL]. *)
Theorem widget_get_theme_font_spec :
  (forall style f size, widget_get_theme_font style (Some f) size = Some f) /\
  (forall size, widget_get_theme_font None None size = Some LV_FONT_DEFAULT) /\
  (forall st,
      widget_get_theme_font (Some st) None WIDGET_FONT_SIZE_SMALL
      = Some (default LV_FONT_DEFAULT (button_font st)) /\
      widget_get_theme_font (Some st) None WIDGET_FONT_SIZE_NORMAL
      = Some (default LV_FONT_DEFAULT (content_font st)) /\
      widget_get_theme_font (Some st) None WIDGET_FONT_SIZE_LARGE
      = Some (default LV_FONT_DEFAULT (title_font st))).
Proof.
  split; [done|]. split; [done|].
  intros st. unfold widget_get_theme_font; simpl.
  by destruct (button_font st), (content_font st), (title_font st).
Qed.

(** ** lv_image_gallery.c *)

Section GalleryFacts.
Import Gallery.

Lemma gallery_of_live (g : lv_obj_t) (w : gworld) (d : lv_gallery_data_t) :
  gallery_of g w = Some d -> get_gallery_data w (Some g) = Some (g, Live d).
Proof.
  unfold gallery_of, get_gallery_data; simpl.
  destruct (user_data w !! g) as [[d'|]|]; try done. by intros [= ->].
Qed.

Lemma gallery_of_set_block (g : lv_obj_t) (d : lv_gallery_data_t) (w : gworld) :
  gallery_of g (set_block g (Live d) w) = Some d.
Proof. unfold gallery_of, set_block; simpl. by rewrite lookup_insert_eq. Qed.

Lemma update_gallery_display_user_data (d : lv_gallery_data_t) (w w' : gworld) :
  update_gallery_display d w = Ret w' -> user_data w' = user_data w.
Proof.
  unfold update_gallery_display.
  destruct (images d) as [arr|]; [|by intros [= <-]].
  destruct (_ || _); [by intros [= <-]|].
  destruct (arr !! _) as [im|]; [|done].
  intros [= <-].
  by destruct (img_obj d), (img_src im), (counter_label d).
Qed.

(** The count of a well-formed gallery is far from [INT_MAX]. *)
Lemma gallery_wf_count (d : lv_gallery_data_t) :
  gallery_wf d -> 1 <= image_count d <= 2 ^ 30.
Proof.
  intros (H1 & arr & _ & Hlen & Hmem). split; [done|].
  unfold array_in_memory, sizeof_lv_gallery_image_t, SIZE_MAX in Hmem. lia.
Qed.

Lemma update_gallery_display_ok (d : lv_gallery_data_t) (w : gworld) :
  gallery_wf d -> index_in_range d ->
  exists w', update_gallery_display d w = Ret w' /\ user_data w' = user_data w.
Proof.
  intros (H1 & arr & Harr & Hlen & _) [Hlo Hhi].
  destruct (update_gallery_display d w) as [w'|] eqn:E.
  { exists w'. split; [done|]. by eapply update_gallery_display_user_data. }
  exfalso. revert E. unfold update_gallery_display. rewrite Harr.
  destruct (Z.ltb_spec (current_index d) 0); [lia|].
  destruct (Z.leb_spec (image_count d) (current_index d)); [lia|]. simpl.
  destruct (lookup_lt_is_Some_2 arr (Z.to_nat (current_index d))) as [im ->];
    [lia|done].
Qed.

Lemma gallery_step_index_live (f : lv_gallery_data_t -> option Z)
    (g : lv_obj_t) (w : gworld) (d : lv_gallery_data_t) (i : Z) :
  gallery_of g w = Some d -> gallery_wf d -> f d = Some i ->
  0 <= i < image_count d ->
  exists w', gallery_step_index f (Some g) w = Ret (tt, w') /\
             gallery_of g w' = Some (set_current_index i d).
Proof.
  intros Hg Hwf Hf Hi. unfold gallery_step_index.
  rewrite (gallery_of_live _ _ _ Hg), Hf.
  destruct (update_gallery_display_ok (set_current_index i d)
              (set_block g (Live (set_current_index i d)) w))
    as (w' & -> & Hud); [done|done|].
  exists w'. split; [done|].
  unfold gallery_of. rewrite Hud. apply gallery_of_set_block.
Qed.

Lemma next_index_mod (d : lv_gallery_data_t) :
  gallery_wf d -> index_in_range d ->
  next_index d = Some ((current_index d + 1) mod image_count d).
Proof.
  intros Hwf [Hlo Hhi]. pose proof (gallery_wf_count d Hwf) as [H1 Hn].
  unfold next_index.
  rewrite wrap_int_id by (unfold in_int, INT_MIN, INT_MAX; lia).
  apply c_rem_nonneg; lia.
Qed.

Lemma prev_index_mod (d : lv_gallery_data_t) :
  gallery_wf d -> index_in_range d ->
  prev_index d
  = Some ((current_index d - 1 + image_count d) mod image_count d).
Proof.
  intros Hwf [Hlo Hhi]. pose proof (gallery_wf_count d Hwf) as [H1 Hn].
  unfold prev_index.
  rewrite (wrap_int_id (current_index d - 1))
    by (unfold in_int, INT_MIN, INT_MAX; lia).
  rewrite wrap_int_id by (unfold in_int, INT_MIN, INT_MAX; lia).
  apply c_rem_nonneg; lia.
Qed.

(** Why the array has to lie in the address space: with more than
    [2 ^ 30] images [current_index - 1 + image_count] leaves [int], and
    the remainder of the wrapped sum is negative. *)
Lemma prev_index_past_int (d : lv_gallery_data_t) :
  image_count d = 2 ^ 30 + 1 -> current_index d = 2 ^ 30 ->
  prev_index d = Some (- (2 ^ 30 - 1)).
Proof. intros Hn Hi. unfold prev_index. rewrite Hn, Hi. by vm_compute. Qed.

Lemma index_after_step (f : lv_gallery_data_t -> option Z)
    (g : lv_obj_t) (w : gworld) (d : lv_gallery_data_t) (i : Z) :
  gallery_of g w = Some d -> gallery_wf d -> f d = Some i ->
  0 <= i < image_count d ->
  index_after (gallery_step_index f) g w = Some i.
Proof.
  intros Hg Hwf Hf Hi.
  destruct (gallery_step_index_live f g w d i) as (w' & E & Hg'); try done.
  unfold index_after. by rewrite E, Hg'.
Qed.

End GalleryFacts.

(** C1: in a gallery of [n >= 1] images whose current index is [i],
    [lv_image_gallery_next] (and the click handler of the next button) sets
    the index to [(i+1) mod n] and [lv_image_gallery_prev] (and the handler
    of the previous button) sets it to [(i-1+n) mod n]; from [n-1] next
    wraps to [0] and from [0] prev wraps to [n-1]. *)
Theorem gallery_next_prev_wrap
    (w : Gallery.gworld) (g : lv_obj_t) (d : Gallery.lv_gallery_data_t) :
  Gallery.gallery_of g w = Some d ->
  Gallery.gallery_wf d ->
  Gallery.index_in_range d ->
  let n := Gallery.image_count d in
  let i := Gallery.current_index d in
  Gallery.index_after Gallery.lv_image_gallery_next g w = Some ((i + 1) mod n) /\
  Gallery.index_after Gallery.lv_image_gallery_prev g w
  = Some ((i - 1 + n) mod n) /\
  Gallery.index_after Gallery.next_button_event_cb g w = Some ((i + 1) mod n) /\
  Gallery.index_after Gallery.prev_button_event_cb g w
  = Some ((i - 1 + n) mod n) /\
  (i = n - 1 -> Gallery.index_after Gallery.lv_image_gallery_next g w = Some 0) /\
  (i = 0 -> Gallery.index_after Gallery.lv_image_gallery_prev g w = Some (n - 1)).
Proof.
  intros Hg Hwf Hr n i.
  pose proof (gallery_wf_count d Hwf) as [H1 Hn].
  destruct Hr as [Hlo Hhi]. fold n in H1, Hn, Hhi. fold i in Hlo, Hhi.
  assert (Hnext : Gallery.index_after Gallery.lv_image_gallery_next g w
                  = Some ((i + 1) mod n)).
  { apply (index_after_step Gallery.next_index g w d); try done.
    - by apply next_index_mod.
    - apply Z.mod_pos_bound. lia. }
  assert (Hprev : Gallery.index_after Gallery.lv_image_gallery_prev g w
                  = Some ((i - 1 + n) mod n)).
  { apply (index_after_step Gallery.prev_index g w d); try done.
    - by apply prev_index_mod.
    - apply Z.mod_pos_bound. lia. }
  repeat split; try done.
  - intros Hi. rewrite Hnext. f_equal.
    replace (i + 1) with (1 * n) by lia. apply Z_mod_mult.
  - intros Hi. rewrite Hprev. f_equal.
    replace (i - 1 + n) with (n - 1) by lia. apply Z.mod_small. lia.
Qed.

Section GalleryCreate.
Import Gallery.

Lemma validate_images_loop_true (arr : list lv_gallery_image_t) (n i : nat) :
  validate_images_loop arr i n = Ret true ->
  forall j, (i <= j < i + n)%nat ->
            exists im src, arr !! j = Some im /\ img_src im = Some src.
Proof.
  revert i. induction n as [|n IH]; intros i H j Hj; [lia|].
  simpl in H.
  destruct (arr !! i) as [im|] eqn:Ei; [|done].
  destruct (img_src im) as [src|] eqn:Es; [|done].
  destruct (decide (j = i)) as [->|Hne]; [by exists im, src|].
  apply (IH (S i)); [done|lia].
Qed.

Lemma validate_images_loop_false (arr : list lv_gallery_image_t) (n i : nat) :
  validate_images_loop arr i n = Ret false ->
  exists j im, (i <= j < i + n)%nat /\ arr !! j = Some im /\ img_src im = None.
Proof.
  revert i. induction n as [|n IH]; intros i H; [done|].
  simpl in H.
  destruct (arr !! i) as [im|] eqn:Ei; [|done].
  destruct (img_src im) as [src|] eqn:Es.
  - destruct (IH _ H) as (j & im' & Hj & Ha & Hs).
    exists j, im'. split; [lia|done].
  - exists i, im. split; [lia|done].
Qed.

Lemma validate_images_loop_no_trap (arr : list lv_gallery_image_t) (n i : nat) :
  (i + n <= length arr)%nat -> validate_images_loop arr i n <> Trap.
Proof.
  revert i. induction n as [|n IH]; intros i Hlen; [done|].
  simpl.
  destruct (lookup_lt_is_Some_2 arr i) as [im ->]; [lia|].
  destruct (img_src im); [apply IH; lia|done].
Qed.

(** The three ways the constructor ends when the array is as announced:
    an early [NULL], a [NULL] after the container was made, a gallery. *)
Lemma lv_image_gallery_create_cases env parent imgs count title cfg
    (w : gworld) :
  array_holds imgs count ->
  let r := lv_image_gallery_create env parent imgs count title cfg w in
  ((parent = None \/ imgs = None \/ count <= 0 \/ has_null_src imgs count \/
    malloc_data env = false \/ new_container env = None) /\
   r = Ret (None, w))
  \/
  (exists c,
      new_container env = Some c /\
      (new_prev_btn env = None \/ new_next_btn env = None) /\
      r = Ret (None, set_block c Freed
                       (set_block c (Live (created_data env imgs count cfg)) w)))
  \/
  (exists c arr im src w',
      parent <> None /\ imgs = Some arr /\ 0 < count /\
      ~ has_null_src imgs count /\ ~ internal_failure env /\
      new_container env = Some c /\
      arr !! 0%nat = Some im /\ img_src im = Some src /\
      w' = log_call
             (lv_label_set_text (new_counter_label env)
                (Some (counter_text (wrap_int (0 + 1)) count
                         (default "" (label_text im)))))
             (log_call (lv_img_set_src (new_img_obj env) src)
                (set_block c (Live (created_data env imgs count cfg)) w)) /\
      r = Ret (Some c, w')).
Proof.
  intros Harr r. subst r. unfold lv_image_gallery_create.
  destruct parent as [p|]; [|left; split; [tauto|done]].
  unfold validate_images_array.
  destruct imgs as [arr|]; [|left; split; [tauto|done]].
  destruct (Z.leb_spec count 0) as [Hc|Hc]; [left; split; [tauto|done]|].
  simpl in Harr. rename Harr into Hlen.
  destruct (validate_images_loop arr 0 (Z.to_nat count)) as [[|]|] eqn:Ev;
    simpl.
  - pose proof (validate_images_loop_true _ _ _ Ev) as Hall.
    destruct (malloc_data env) eqn:Em; simpl; [|left; split; [tauto|done]].
    destruct (new_container env) as [c|] eqn:Ec; [|left; split; [tauto|done]].
    destruct (new_prev_btn env) as [pb|] eqn:Ep; simpl;
      [|right; left; exists c; split; [done|]; split; [tauto|done]].
    destruct (new_next_btn env) as [nb|] eqn:En; simpl;
      [|right; left; exists c; split; [done|]; split; [tauto|done]].
    right; right.
    destruct (Hall 0%nat ltac:(lia)) as (im & src & Him & Hsrc).
    exists c, arr, im, src. eexists.
    split; [done|]. split; [done|]. split; [done|].
    split.
    { intros (arr' & j & im' & [= <-] & Hj & Ha & Hs).
      destruct (Hall j ltac:(lia)) as (im2 & src2 & Ha2 & Hs2). congruence. }
    split.
    { unfold internal_failure. rewrite Em, Ec, Ep, En.
      intros [?|[?|[?|?]]]; done. }
    split; [done|]. split; [done|]. split; [done|]. split; [reflexivity|].
    unfold update_gallery_display; simpl.
    destruct (Z.leb_spec count 0); [lia|].
    change (Z.to_nat 0) with 0%nat. rewrite Him, Hsrc. reflexivity.
  - left. split; [|done].
    destruct (validate_images_loop_false _ _ _ Ev) as (j & im & Hj & Ha & Hs).
    do 3 right. left. exists arr, j, im. split; [done|]. split; [lia|done].
  - exfalso. by eapply (validate_images_loop_no_trap arr (Z.to_nat count) 0);
      [lia|].
Qed.

End GalleryCreate.

Section GalleryIndex.
Import Gallery.

Lemma shown_image_app (log1 log2 : list lvgl_call) (obj : lv_obj_t) :
  shown_image (log1 ++ log2) obj
  = foldl (fun acc c =>
             match c with
             | lv_img_set_src o src => if decide (o = obj) then Some src else acc
             | _ => acc
             end) (shown_image log1 obj) log2.
Proof. unfold shown_image. apply foldl_app. Qed.

(** What a successful construction leaves behind. *)
Lemma lv_image_gallery_create_success env parent imgs count title cfg
    (w w' : gworld) (g : lv_obj_t) :
  lv_image_gallery_create env parent imgs count title cfg w = Ret (Some g, w') ->
  gallery_of g w' = Some (created_data env imgs count cfg) /\
  0 < count /\
  exists arr, imgs = Some arr /\ count <= Z.of_nat (length arr).
Proof.
  unfold lv_image_gallery_create.
  destruct parent as [p|]; [|done].
  unfold validate_images_array.
  destruct imgs as [arr|]; [|done].
  destruct (Z.leb_spec count 0) as [Hc|Hc]; [done|].
  destruct (validate_images_loop arr 0 (Z.to_nat count)) as [[|]|] eqn:Ev;
    simpl; [|done|done].
  pose proof (validate_images_loop_true _ _ _ Ev) as Hall.
  assert (Hlen : count <= Z.of_nat (length arr)).
  { destruct (Hall (Z.to_nat count - 1)%nat ltac:(lia)) as (im & _ & Him & _).
    apply lookup_lt_Some in Him. lia. }
  destruct (malloc_data env); simpl; [|done].
  destruct (new_container env) as [c|]; [|done].
  destruct (new_prev_btn env); simpl; [|done].
  destruct (new_next_btn env); simpl; [|done].
  destruct (update_gallery_display _ _) as [w2|] eqn:Eu; simpl; [|done].
  intros [= <- <-].
  split; [|split; [done|by exists arr]].
  unfold gallery_of. rewrite (update_gallery_display_user_data _ _ _ Eu).
  apply gallery_of_set_block.
Qed.

End GalleryIndex.

Section GalleryKeeps.
Import Gallery.

Lemma gallery_next_prev_live (w : gworld) (g : lv_obj_t)
    (d : lv_gallery_data_t) :
  gallery_of g w = Some d -> gallery_wf d -> index_in_range d ->
  forall op,
    op = lv_image_gallery_next \/ op = lv_image_gallery_prev ->
    exists w' d',
      op (Some g) w = Ret (tt, w') /\ gallery_of g w' = Some d' /\
      index_in_range d' /\ gallery_wf d'.
Proof.
  intros Hg Hwf Hr op Hop.
  pose proof (gallery_wf_count d Hwf) as [H1 Hn].
  destruct Hop as [-> | ->].
  - destruct (gallery_step_index_live next_index g w d
                ((current_index d + 1) mod image_count d))
      as (w' & E & Hg'); try done.
    { by apply next_index_mod. }
    { apply Z.mod_pos_bound. lia. }
    exists w'. eexists. split; [exact E|]. split; [exact Hg'|].
    split; [|done]. unfold index_in_range; simpl.
    apply Z.mod_pos_bound. lia.
  - destruct (gallery_step_index_live prev_index g w d
                ((current_index d - 1 + image_count d) mod image_count d))
      as (w' & E & Hg'); try done.
    { by apply prev_index_mod. }
    { apply Z.mod_pos_bound. lia. }
    exists w'. eexists. split; [exact E|]. split; [exact Hg'|].
    split; [|done]. unfold index_in_range; simpl.
    apply Z.mod_pos_bound. lia.
Qed.

Lemma lv_image_gallery_set_index_live (w : gworld) (g : lv_obj_t)
    (d : lv_gallery_data_t) (index : Z) :
  gallery_of g w = Some d -> gallery_wf d -> index_in_range d ->
  exists r w' d',
    lv_image_gallery_set_index (Some g) index w = Ret (r, w') /\
    gallery_of g w' = Some d' /\
    index_in_range d' /\ gallery_wf d' /\
    (r = true <-> 0 <= index < image_count d) /\
    (r = true -> current_index d' = index) /\
    (r = false -> w' = w).
Proof.
  intros Hg Hwf Hr. unfold lv_image_gallery_set_index.
  rewrite (gallery_of_live _ _ _ Hg).
  pose proof Hr as [Hlo Hhi].
  destruct (Z.ltb_spec index 0) as [Hneg|Hnn]; simpl.
  { exists false, w, d. do 4 (split; [done|]).
    split; [split; [done|lia]|done]. }
  destruct (Z.leb_spec (image_count d) index) as [Hbig|Hsm]; simpl.
  { exists false, w, d. do 4 (split; [done|]).
    split; [split; [done|lia]|done]. }
  destruct (update_gallery_display_ok (set_current_index index d)
              (set_block g (Live (set_current_index index d)) w))
    as (w' & -> & Hud); [done|done|]. simpl.
  exists true, w', (set_current_index index d).
  split; [done|]. split.
  { unfold gallery_of. rewrite Hud. apply gallery_of_set_block. }
  do 2 (split; [done|]). split; [split; [lia|done]|done].
Qed.

End GalleryKeeps.

(** What the constructor keeps of its contract: when the array is as
    announced, [lv_image_gallery_create] returns [NULL] exactly when the
    parent is [NULL], [images] is [NULL], the count is not positive, one of
    the images has a [NULL] source, or a step the constructor checks
    fails; a [NULL] result adds no live gallery data to the world; a
    gallery that is returned has current index 0 and shows the first image
    of the array; the constructor never traps. *)
Theorem lv_image_gallery_create_spec
    (env : Gallery.create_env) (parent : option lv_obj_t)
    (imgs : option (list Gallery.lv_gallery_image_t)) (count : Z)
    (title : option string) (cfg : option Gallery.lv_gallery_config_t)
    (w : Gallery.gworld) :
  Gallery.array_holds imgs count ->
  let r := Gallery.lv_image_gallery_create env parent imgs count title cfg w in
  ((exists w', r = Ret (None, w')) <->
   (parent = None \/ imgs = None \/ count <= 0 \/
    Gallery.has_null_src imgs count \/ Gallery.internal_failure env)) /\
  (forall w', r = Ret (None, w') ->
     forall o d, user_data w' !! o = Some (Live d) ->
                 user_data w !! o = Some (Live d)) /\
  (forall g w', r = Ret (Some g, w') ->
     Gallery.lv_image_gallery_get_index (Some g) w' = Ret (0, w') /\
     exists arr im src,
       imgs = Some arr /\ arr !! 0%nat = Some im /\
       Gallery.img_src im = Some src /\
       Gallery.shown_image (lvgl_log w') (Gallery.new_img_obj env) = Some src) /\
  r <> Trap.
Proof.
  intros Harr r.
  destruct (lv_image_gallery_create_cases env parent imgs count title cfg w Harr)
    as [[Hc Hr] | [(c & Hcont & Hbtn & Hr) | (c & arr & im & src & w2 & Hp & Hi
         & Hcnt & Hnn & Hnf & Hcont & Him & Hsrc & Hw2 & Hr)]];
    fold r in Hr; rewrite Hr.
  - split; [split|split; [|split]]; try done.
    + intros _. unfold Gallery.internal_failure. tauto.
    + intros _. by eexists.
    + by intros w' [= <-].
  - split; [split|split; [|split]]; try done.
    + intros _. unfold Gallery.internal_failure. tauto.
    + intros _. by eexists.
    + intros w' [= <-] o d. unfold set_block; simpl.
      destruct (decide (o = c)) as [->|Hne].
      * by rewrite lookup_insert_eq.
      * by rewrite !lookup_insert_ne.
  - split; [split|split; [|split]]; try done.
    + by intros (w' & [=]).
    + intros [H|[H|[H|[H|H]]]]; try done; [congruence|lia].
    + intros g w' [= <- <-]. split.
      * unfold Gallery.lv_image_gallery_get_index, Gallery.get_gallery_data.
        rewrite Hw2; simpl. by rewrite lookup_insert_eq.
      * exists arr, im, src. repeat split; try done.
        rewrite Hw2; simpl. rewrite !shown_image_app; simpl.
        by rewrite decide_True.
Qed.

(** C6, on the code: [lv_image_gallery_create] does not always return
    [NULL] "creating no gallery".  When the making of a navigation button
    fails, on arguments that are valid, the constructor has already made
    the container and stored the data pointer in it; it frees the data and
    returns [NULL], and the container stays: the world is not what it was,
    the container holds a pointer to the freed block, and
    [lv_image_gallery_get_index] on it, like its delete handler, reads
    freed memory.  When the making of the container itself fails, the
    sibling path, the world is left as it was. *)
Theorem lv_image_gallery_create_keeps_failed_container
    (env : Gallery.create_env) (c : lv_obj_t) (parent : option lv_obj_t)
    (arr : list Gallery.lv_gallery_image_t) (count : Z)
    (title : option string) (cfg : option Gallery.lv_gallery_config_t)
    (w : Gallery.gworld) :
  parent <> None -> 0 < count -> count <= Z.of_nat (length arr) ->
  ~ Gallery.has_null_src (Some arr) count ->
  Gallery.malloc_data env = true ->
  Gallery.new_container env = Some c ->
  Gallery.new_prev_btn env = None \/ Gallery.new_next_btn env = None ->
  user_data w !! c = None ->
  (exists w',
      Gallery.lv_image_gallery_create env parent (Some arr) count title cfg w
      = Ret (None, w') /\
      w' <> w /\
      user_data w' !! c = Some Freed /\
      (forall o, o <> c -> user_data w' !! o = user_data w !! o) /\
      Gallery.lv_image_gallery_get_index (Some c) w' = Trap /\
      Gallery.gallery_delete_event_cb c w' = Trap) /\
  (forall env',
      Gallery.malloc_data env' = true ->
      Gallery.new_container env' = None ->
      Gallery.lv_image_gallery_create env' parent (Some arr) count title cfg w
      = Ret (None, w)).
Proof.
  intros Hp Hc Hlen Hnn Hm Hcont Hbtn Hfresh.
  assert (Hvalid : Gallery.validate_images_loop arr 0 (Z.to_nat count)
                   = Ret true).
  { destruct (Gallery.validate_images_loop arr 0 (Z.to_nat count))
      as [[|]|] eqn:Ev; [done| |].
    - exfalso. apply Hnn.
      destruct (validate_images_loop_false _ _ _ Ev)
        as (j & im & Hj & Ha & Hs).
      exists arr, j, im. split; [done|]. split; [lia|done].
    - exfalso.
      by eapply (validate_images_loop_no_trap arr (Z.to_nat count) 0);
        [lia|]. }
  split.
  - assert (Hcreate : exists w',
               Gallery.lv_image_gallery_create env parent (Some arr) count
                 title cfg w = Ret (None, w') /\
               user_data w' !! c = Some Freed /\
               (forall o, o <> c -> user_data w' !! o = user_data w !! o)).
    { unfold Gallery.lv_image_gallery_create.
      destruct parent as [p|]; [|done]. simpl.
      destruct (Z.leb_spec count 0); [lia|].
      rewrite Hvalid; simpl. rewrite Hm, Hcont; simpl.
      destruct Hbtn as [-> | ->]; simpl.
      - eexists. split; [done|]. simpl. split.
        + by rewrite lookup_insert_eq.
        + intros o Ho. by rewrite !lookup_insert_ne.
      - destruct (Gallery.new_prev_btn env); eexists;
          (split; [done|]); simpl;
          (split; [by rewrite lookup_insert_eq|]);
          intros o Ho; by rewrite !lookup_insert_ne. }
    destruct Hcreate as (w' & E & Hfreed & Hother). exists w'.
    split; [done|]. split.
    { intros ->. by rewrite Hfresh in Hfreed. }
    split; [done|]. split; [done|].
    unfold Gallery.lv_image_gallery_get_index, Gallery.gallery_delete_event_cb,
      Gallery.get_gallery_data, get_widget_data.
    by rewrite Hfreed.
  - intros env' Hm' Hc'. unfold Gallery.lv_image_gallery_create.
    destruct parent as [p|]; [|done]. simpl.
    destruct (Z.leb_spec count 0); [lia|].
    rewrite Hvalid; simpl. by rewrite Hm', Hc'.
Qed.

(** C8: the index of a gallery is within [0, image_count) after creation;
    [lv_image_gallery_next], [lv_image_gallery_prev] and
    [lv_image_gallery_set_index] keep it there; [lv_image_gallery_set_index]
    returns [true] exactly when [0 <= index < image_count], then the index
    is [index]; otherwise it returns [false] and changes nothing. *)
Theorem gallery_index_invariant :
  (forall env parent imgs count title cfg (w w' : Gallery.gworld) g,
      Gallery.lv_image_gallery_create env parent imgs count title cfg w
      = Ret (Some g, w') ->
      exists d, Gallery.gallery_of g w' = Some d /\ Gallery.index_in_range d /\
                ((forall arr, imgs = Some arr -> Gallery.array_in_memory arr) ->
                 Gallery.gallery_wf d)) /\
  (forall (w : Gallery.gworld) g d,
      Gallery.gallery_of g w = Some d ->
      Gallery.gallery_wf d ->
      Gallery.index_in_range d ->
      (forall op,
          op = Gallery.lv_image_gallery_next \/
          op = Gallery.lv_image_gallery_prev ->
          exists w' d',
            op (Some g) w = Ret (tt, w') /\
            Gallery.gallery_of g w' = Some d' /\
            Gallery.index_in_range d' /\ Gallery.gallery_wf d') /\
      (forall index,
          exists r w' d',
            Gallery.lv_image_gallery_set_index (Some g) index w = Ret (r, w') /\
            Gallery.gallery_of g w' = Some d' /\
            Gallery.index_in_range d' /\ Gallery.gallery_wf d' /\
            (r = true <-> 0 <= index < Gallery.image_count d) /\
            (r = true -> Gallery.current_index d' = index) /\
            (r = false -> w' = w))).
Proof.
  split.
  - intros env parent imgs count title cfg w w' g Hc.
    destruct (lv_image_gallery_create_success _ _ _ _ _ _ _ _ _ Hc)
      as (Hg & Hcnt & arr & -> & Hlen).
    eexists. split; [exact Hg|]. split.
    + unfold Gallery.index_in_range; simpl. lia.
    + intros Hmem. unfold Gallery.gallery_wf; simpl.
      split; [lia|]. exists arr. split; [done|]. split; [done|by apply Hmem].
  - intros w g d Hg Hwf Hr. split.
    + by apply (gallery_next_prev_live w g d).
    + intros index. by apply (lv_image_gallery_set_index_live w g d).
Qed.

(** ** lv_pull_refresh.c *)

Section PullRefreshFacts.
Import PullRefresh.

Lemma data_of_live (c : lv_obj_t) (w : pworld) (d : lv_pull_refresh_data_t) :
  data_of c w = Some d -> get_pull_refresh_data w (Some c) = Some (c, Live d).
Proof.
  unfold data_of, get_pull_refresh_data; simpl.
  destruct (user_data w !! c) as [[d'|]|]; try done. by intros [= ->].
Qed.

Lemma data_of_set_block (c : lv_obj_t) (d : lv_pull_refresh_data_t) (w : pworld) :
  data_of c (set_block c (Live d) w) = Some d.
Proof. unfold data_of, set_block; simpl. by rewrite lookup_insert_eq. Qed.

Lemma data_of_log_call (c : lv_obj_t) (e : lvgl_call) (w : pworld) :
  data_of c (log_call e w) = data_of c w.
Proof. done. Qed.

Lemma state_of_data_of (c : lv_obj_t) (w : pworld) :
  state_of c w = state <$> data_of c w.
Proof.
  unfold state_of, data_of. by destruct (user_data w !! c) as [[d|]|].
Qed.

Lemma set_state_same (d : lv_pull_refresh_data_t) : set_state (state d) d = d.
Proof. by destruct d. Qed.

Lemma update_indicator_display_user_data (d : lv_pull_refresh_data_t)
    (w : pworld) :
  user_data (update_indicator_display d w) = user_data w.
Proof.
  unfold update_indicator_display.
  destruct (show_indicator (config d)); simpl; [|done].
  destruct (indicator_for d) as [text show].
  destruct (indicator_label d), (indicator_icon d), show, text; done.
Qed.

Lemma refresh_calls_log_call (e : lvgl_call) (w : pworld) :
  is_refresh_call e = false ->
  refresh_calls (lvgl_log (log_call e w)) = refresh_calls (lvgl_log w).
Proof.
  intros He. unfold refresh_calls, log_call; simpl.
  rewrite filter_app. rewrite (filter_cons_False _ e); [|congruence].
  by rewrite filter_nil, app_nil_r.
Qed.

Lemma update_indicator_display_refresh_calls (d : lv_pull_refresh_data_t)
    (w : pworld) :
  refresh_calls (lvgl_log (update_indicator_display d w))
  = refresh_calls (lvgl_log w).
Proof.
  unfold update_indicator_display.
  destruct (show_indicator (config d)); simpl; [|done].
  destruct (indicator_for d) as [text show].
  destruct (indicator_label d), (indicator_icon d), show, text;
    rewrite ?refresh_calls_log_call; done.
Qed.

(** [set_pull_state] writes the state and nothing else in the block, keeps
    the user data of every object and calls no refresh callback. *)
Lemma set_pull_state_spec (d : lv_pull_refresh_data_t) (s : lv_pull_state_t)
    (c : lv_obj_t) (w : pworld) :
  (set_pull_state d s c w).1 = set_state s d /\
  user_data (set_pull_state d s c w).2 = user_data w /\
  refresh_calls (lvgl_log (set_pull_state d s c w).2)
  = refresh_calls (lvgl_log w).
Proof.
  unfold set_pull_state.
  destruct (decide (state d = s)) as [<-|Hne]; cbn [fst snd].
  { by rewrite set_state_same. }
  change (state_cb (config (set_state s d))) with (state_cb (config d)).
  destruct (state_cb (config d)) as [cb|]; cbn [fst snd].
  - rewrite refresh_calls_log_call by done.
    change (user_data (log_call ?e ?w)) with (user_data w).
    by rewrite update_indicator_display_user_data,
      update_indicator_display_refresh_calls.
  - by rewrite update_indicator_display_user_data,
      update_indicator_display_refresh_calls.
Qed.

(** What [lv_pull_refresh_complete] does to a container with live data. *)
Lemma lv_pull_refresh_complete_live (c : lv_obj_t) (w : pworld)
    (d : lv_pull_refresh_data_t) :
  data_of c w = Some d ->
  exists w',
    lv_pull_refresh_complete (Some c) w = Ret (tt, w') /\
    data_of c w'
    = Some (set_state PULL_STATE_IDLE
              (set_current_pull_distance 0 (set_refresh_triggered false d))) /\
    refresh_calls (lvgl_log w') = refresh_calls (lvgl_log w).
Proof.
  intros Hd. unfold lv_pull_refresh_complete.
  rewrite (data_of_live _ _ _ Hd).
  destruct (set_pull_state_spec
              (set_current_pull_distance 0 (set_refresh_triggered false d))
              PULL_STATE_IDLE c w) as (H1 & H2 & H3).
  destruct (set_pull_state _ _ _ _) as [d2 w2]; simpl in *.
  eexists. split; [done|]. split.
  - rewrite data_of_log_call, data_of_set_block. by rewrite H1.
  - by rewrite refresh_calls_log_call.
Qed.

(** The scroll event on an enabled container that is not refreshing. *)
Lemma scroll_event_live (c : lv_obj_t) (w : pworld)
    (d : lv_pull_refresh_data_t) (scroll_y tick : Z) :
  data_of c w = Some d -> enabled d = true ->
  state d <> PULL_STATE_REFRESHING ->
  exists w',
    scroll_event_cb LV_EVENT_SCROLL (Some c) scroll_y tick w = Ret w' /\
    data_of c w'
    = Some (set_state
              (state_for_distance (wrap_int (- scroll_y))
                 (pull_threshold (config d)))
              (set_current_pull_distance (wrap_int (- scroll_y)) d)).
Proof.
  intros Hd He Hs. unfold scroll_event_cb.
  rewrite (data_of_live _ _ _ Hd), He; simpl.
  rewrite decide_False by done.
  destruct (set_pull_state_spec
              (set_current_pull_distance (wrap_int (- scroll_y)) d)
              (state_for_distance (wrap_int (- scroll_y))
                 (pull_threshold (config d))) c w) as (H1 & H2 & H3).
  simpl in *.
  destruct (set_pull_state _ _ _ _) as [d2 w2]; simpl in *.
  eexists. split; [done|]. by rewrite data_of_set_block, H1.
Qed.

End PullRefreshFacts.

(** C2, as the code has it: a scroll event on an enabled container that is
    not refreshing stores the negated scroll offset as the pull distance
    and sets the state from that distance and the threshold alone: IDLE
    when the distance is at most 0, PULLING when it is positive and below
    the threshold, READY when it is positive and at least the threshold. *)
Theorem scroll_event_state_by_distance
    (c : lv_obj_t) (w : PullRefresh.pworld)
    (d : PullRefresh.lv_pull_refresh_data_t) (scroll_y tick : Z) :
  PullRefresh.data_of c w = Some d ->
  PullRefresh.enabled d = true ->
  PullRefresh.state d <> PullRefresh.PULL_STATE_REFRESHING ->
  exists w' d',
    PullRefresh.scroll_event_cb PullRefresh.LV_EVENT_SCROLL (Some c)
      scroll_y tick w = Ret w' /\
    PullRefresh.data_of c w' = Some d' /\
    PullRefresh.config d' = PullRefresh.config d /\
    PullRefresh.current_pull_distance d' = wrap_int (- scroll_y) /\
    (INT_MIN < scroll_y <= INT_MAX ->
     PullRefresh.current_pull_distance d' = - scroll_y) /\
    let dist := PullRefresh.current_pull_distance d' in
    let thr := PullRefresh.pull_threshold (PullRefresh.config d) in
    PullRefresh.state d' = PullRefresh.state_for_distance dist thr /\
    (dist <= 0 -> PullRefresh.state d' = PullRefresh.PULL_STATE_IDLE) /\
    (0 < dist < thr -> PullRefresh.state d' = PullRefresh.PULL_STATE_PULLING) /\
    (0 < dist /\ thr <= dist ->
     PullRefresh.state d' = PullRefresh.PULL_STATE_READY).
Proof.
  intros Hd He Hs.
  destruct (scroll_event_live c w d scroll_y tick Hd He Hs) as (w' & E & Hd').
  exists w'. eexists. split; [exact E|]. split; [exact Hd'|]. simpl.
  split; [done|]. split; [done|]. split.
  { intros Hy. apply wrap_int_id. unfold in_int. unfold INT_MIN, INT_MAX in *.
    lia. }
  split; [done|]. unfold PullRefresh.state_for_distance.
  repeat split; intros H;
    destruct (Z.leb_spec (wrap_int (- scroll_y)) 0);
    destruct (Z.ltb_spec (wrap_int (- scroll_y))
                (PullRefresh.pull_threshold (PullRefresh.config d)));
    done || lia.
Qed.

Section PullRefreshSteps.
Import PullRefresh.

(** Events leave a refreshing container as it is, but for the pull
    distance a scroll event stores. *)
Lemma scroll_event_refreshing (c : lv_obj_t) (w : pworld)
    (d : lv_pull_refresh_data_t) (code : lv_event_code_t) (scroll_y tick : Z) :
  data_of c w = Some d -> state d = PULL_STATE_REFRESHING ->
  exists w' d',
    scroll_event_cb code (Some c) scroll_y tick w = Ret w' /\
    data_of c w' = Some d' /\
    state d' = PULL_STATE_REFRESHING /\
    refresh_triggered d' = refresh_triggered d /\
    lvgl_log w' = lvgl_log w.
Proof.
  intros Hd Hs. unfold scroll_event_cb.
  rewrite (data_of_live _ _ _ Hd).
  destruct (enabled d); simpl; [|by exists w, d].
  destruct code.
  - rewrite decide_True by done.
    eexists. eexists. split; [done|]. by rewrite data_of_set_block.
  - rewrite Hs; simpl. by exists w, d.
  - by exists w, d.
Qed.

Lemma scroll_end_live (c : lv_obj_t) (w : pworld)
    (d : lv_pull_refresh_data_t) (scroll_y tick : Z) :
  data_of c w = Some d ->
  exists w' d',
    scroll_event_cb LV_EVENT_SCROLL_END (Some c) scroll_y tick w = Ret w' /\
    data_of c w' = Some d'.
Proof.
  intros Hd. unfold scroll_event_cb.
  rewrite (data_of_live _ _ _ Hd).
  destruct (enabled d); simpl; [|by exists w, d].
  destruct (_ && _).
  - destruct (set_pull_state _ _ _ _) as [d2 w2].
    eexists. eexists. split; [done|]. apply data_of_set_block.
  - destruct (decide _); [by exists w, d|].
    destruct (set_pull_state _ _ _ _) as [d2 w2].
    eexists. eexists. split; [done|]. apply data_of_set_block.
Qed.

Lemma lv_pull_refresh_set_refreshing_true_live (c : lv_obj_t) (w : pworld)
    (d : lv_pull_refresh_data_t) :
  data_of c w = Some d ->
  exists w',
    lv_pull_refresh_set_refreshing (Some c) true w = Ret (tt, w') /\
    data_of c w'
    = Some (set_state PULL_STATE_REFRESHING (set_refresh_triggered true d)).
Proof.
  intros Hd. unfold lv_pull_refresh_set_refreshing.
  rewrite (data_of_live _ _ _ Hd).
  destruct (set_pull_state_spec (set_refresh_triggered true d)
              PULL_STATE_REFRESHING c w) as (H1 & _).
  destruct (set_pull_state _ _ _ _) as [d2 w2]; simpl in *.
  eexists. split; [done|]. by rewrite data_of_set_block, H1.
Qed.

Lemma lv_pull_refresh_set_refreshing_false (c : option lv_obj_t) (w : pworld) :
  lv_pull_refresh_set_refreshing c false w = lv_pull_refresh_complete c w.
Proof.
  unfold lv_pull_refresh_set_refreshing, lv_pull_refresh_complete.
  by destruct (get_pull_refresh_data w c) as [[o [d|]]|].
Qed.

Lemma lv_pull_refresh_set_enabled_live (c : lv_obj_t) (w : pworld)
    (d : lv_pull_refresh_data_t) (en : bool) :
  data_of c w = Some d ->
  exists w',
    lv_pull_refresh_set_enabled (Some c) en w = Ret (tt, w') /\
    data_of c w'
    = Some (if negb en && negb (bool_decide (state d = PULL_STATE_IDLE))
            then set_state PULL_STATE_IDLE
                   (set_current_pull_distance 0
                      (set_refresh_triggered false (set_enabled en d)))
            else set_enabled en d).
Proof.
  intros Hd. unfold lv_pull_refresh_set_enabled.
  rewrite (data_of_live _ _ _ Hd).
  change (state (set_enabled en d)) with (state d).
  destruct (negb en && _).
  - destruct (lv_pull_refresh_complete_live c
                (set_block c (Live (set_enabled en d)) w) (set_enabled en d))
      as (w' & E & Hd' & _); [apply data_of_set_block|].
    by exists w'.
  - eexists. split; [done|]. apply data_of_set_block.
Qed.

(** No action traps on a container with live data, and the data stays
    live. *)
Lemma run_action_live (a : action) (c : lv_obj_t) (w : pworld)
    (d : lv_pull_refresh_data_t) :
  data_of c w = Some d ->
  exists w' d', run_action a c w = Ret w' /\ data_of c w' = Some d'.
Proof.
  intros Hd. destruct a as [code y t| | |b| |b]; simpl.
  - destruct code.
    + unfold scroll_event_cb. rewrite (data_of_live _ _ _ Hd).
      destruct (enabled d); simpl; [|by exists w, d].
      destruct (decide _).
      * eexists. eexists. split; [done|]. apply data_of_set_block.
      * destruct (set_pull_state _ _ _ _) as [d2 w2].
        eexists. eexists. split; [done|]. apply data_of_set_block.
    + by apply (scroll_end_live c w d).
    + unfold scroll_event_cb. rewrite (data_of_live _ _ _ Hd).
      destruct (enabled d); by exists w, d.
  - destruct (lv_pull_refresh_complete_live c w d Hd) as (w' & -> & Hd' & _).
    by eexists _, _.
  - unfold lv_pull_refresh_is_refreshing. rewrite (data_of_live _ _ _ Hd).
    by exists w, d.
  - destruct b.
    + destruct (lv_pull_refresh_set_refreshing_true_live c w d Hd)
        as (w' & -> & Hd').
      by eexists _, _.
    + rewrite lv_pull_refresh_set_refreshing_false.
      destruct (lv_pull_refresh_complete_live c w d Hd) as (w' & -> & Hd' & _).
      by eexists _, _.
  - unfold lv_pull_refresh_get_pull_distance. rewrite (data_of_live _ _ _ Hd).
    by exists w, d.
  - destruct (lv_pull_refresh_set_enabled_live c w d b Hd) as (w' & -> & Hd').
    by eexists _, _.
Qed.

Lemma lv_pull_refresh_create_live env parent cfg (w0 w : pworld)
    (c : lv_obj_t) :
  lv_pull_refresh_create env parent cfg w0 = (Some c, w) ->
  exists d, data_of c w = Some d /\ state d = PULL_STATE_IDLE /\
            refresh_triggered d = false /\ enabled d = true /\
            current_pull_distance d = 0.
Proof.
  unfold lv_pull_refresh_create.
  destruct parent; [|done]. destruct cfg as [cfg|]; [|done].
  destruct (refresh_cb cfg); [|done].
  destruct (malloc_data env); simpl; [|done].
  destruct (new_container env); [|done].
  intros [= <- <-]. eexists. by rewrite data_of_set_block.
Qed.

Lemma reachable_live (c : lv_obj_t) (w : pworld) :
  reachable c w -> exists d, data_of c w = Some d.
Proof.
  induction 1 as [env parent cfg w0 w Hc | a w w' Hr [d Hd] Hstep].
  - destruct (lv_pull_refresh_create_live _ _ _ _ _ _ Hc) as (d & Hd & _).
    by exists d.
  - destruct (run_action_live a c w d Hd) as (w2 & d2 & E & Hd2).
    rewrite E in Hstep. injection Hstep as <-. by exists d2.
Qed.

End PullRefreshSteps.

(** C5: [lv_pull_state_t] has exactly the four states IDLE, PULLING, READY
    and REFRESHING; a container starts in IDLE, and in every world reached
    from its creation by scroll events, scroll-end events and public
    operations its state is one of the four; no such step traps. *)
Theorem pull_state_four_states :
  (forall s : PullRefresh.lv_pull_state_t, s ∈ PullRefresh.all_pull_states) /\
  NoDup PullRefresh.all_pull_states /\
  length PullRefresh.all_pull_states = 4%nat /\
  (forall env parent cfg (w0 w : PullRefresh.pworld) c,
      PullRefresh.lv_pull_refresh_create env parent cfg w0 = (Some c, w) ->
      PullRefresh.state_of c w = Some PullRefresh.PULL_STATE_IDLE) /\
  (forall c (w : PullRefresh.pworld),
      PullRefresh.reachable c w ->
      (exists s, PullRefresh.state_of c w = Some s /\
                 s ∈ PullRefresh.all_pull_states) /\
      (forall a, exists w', PullRefresh.run_action a c w = Ret w')).
Proof.
  assert (Hall : forall s : PullRefresh.lv_pull_state_t,
             s ∈ PullRefresh.all_pull_states).
  { intros []; unfold PullRefresh.all_pull_states;
      repeat first [apply list_elem_of_here | apply list_elem_of_further]. }
  split; [exact Hall|]. split.
  { apply NoDup_ListNoDup. unfold PullRefresh.all_pull_states.
    repeat constructor; simpl; intuition discriminate. }
  split; [done|]. split.
  - intros env parent cfg w0 w c Hc.
    destruct (lv_pull_refresh_create_live _ _ _ _ _ _ Hc) as (d & Hd & Hs & _).
    by rewrite state_of_data_of, Hd; simpl; rewrite Hs.
  - intros c w Hr. destruct (reachable_live c w Hr) as [d Hd]. split.
    + exists (PullRefresh.state d). split; [|apply Hall].
      by rewrite state_of_data_of, Hd.
    + intros a. destruct (run_action_live a c w d Hd) as (w' & _ & E & _).
      by exists w'.
Qed.

(** C10: while a container is REFRESHING, scroll and scroll-end events
    keep it REFRESHING and call nothing, so no refresh callback runs again;
    an action after which it is no longer REFRESHING is
    [lv_pull_refresh_complete], [lv_pull_refresh_set_refreshing] with
    [false] or [lv_pull_refresh_set_enabled] with [false], and each of the
    three leaves it IDLE with [refresh_triggered] cleared. *)
Theorem refreshing_left_only_by_completion
    (c : lv_obj_t) (w : PullRefresh.pworld)
    (d : PullRefresh.lv_pull_refresh_data_t) :
  PullRefresh.data_of c w = Some d ->
  PullRefresh.state d = PullRefresh.PULL_STATE_REFRESHING ->
  (forall code scroll_y tick,
      exists w',
        PullRefresh.scroll_event_cb code (Some c) scroll_y tick w = Ret w' /\
        PullRefresh.state_of c w' = Some PullRefresh.PULL_STATE_REFRESHING /\
        lvgl_log w' = lvgl_log w /\
        PullRefresh.refresh_calls (lvgl_log w')
        = PullRefresh.refresh_calls (lvgl_log w)) /\
  (forall a w',
      PullRefresh.run_action a c w = Ret w' ->
      PullRefresh.state_of c w' <> Some PullRefresh.PULL_STATE_REFRESHING ->
      a = PullRefresh.Complete \/ a = PullRefresh.SetRefreshing false \/
      a = PullRefresh.SetEnabled false) /\
  (forall a,
      a = PullRefresh.Complete \/ a = PullRefresh.SetRefreshing false \/
      a = PullRefresh.SetEnabled false ->
      exists w' d',
        PullRefresh.run_action a c w = Ret w' /\
        PullRefresh.data_of c w' = Some d' /\
        PullRefresh.state d' = PullRefresh.PULL_STATE_IDLE /\
        PullRefresh.refresh_triggered d' = false /\
        PullRefresh.refresh_calls (lvgl_log w')
        = PullRefresh.refresh_calls (lvgl_log w)).
Proof.
  intros Hd Hs. split; [|split].
  - intros code y t.
    destruct (scroll_event_refreshing c w d code y t Hd Hs)
      as (w' & d' & E & Hd' & Hs' & _ & Hlog).
    exists w'. split; [done|]. split.
    + by rewrite state_of_data_of, Hd'; simpl; rewrite Hs'.
    + by rewrite Hlog.
  - intros a w' Hrun Hleft.
    destruct a as [code y t| | |[|]| |[|]]; simpl in Hrun; auto; exfalso;
      apply Hleft; rewrite state_of_data_of.
    + destruct (scroll_event_refreshing c w d code y t Hd Hs)
        as (w2 & d2 & E & Hd2 & Hs2 & _).
      rewrite E in Hrun. injection Hrun as <-. by rewrite Hd2; simpl; f_equal.
    + unfold PullRefresh.lv_pull_refresh_is_refreshing in Hrun.
      rewrite (data_of_live _ _ _ Hd) in Hrun. injection Hrun as <-.
      by rewrite Hd; simpl; f_equal.
    + destruct (lv_pull_refresh_set_refreshing_true_live c w d Hd)
        as (w2 & E & Hd2).
      rewrite E in Hrun. injection Hrun as <-. by rewrite Hd2.
    + unfold PullRefresh.lv_pull_refresh_get_pull_distance in Hrun.
      rewrite (data_of_live _ _ _ Hd) in Hrun. injection Hrun as <-.
      by rewrite Hd; simpl; f_equal.
    + destruct (lv_pull_refresh_set_enabled_live c w d true Hd)
        as (w2 & E & Hd2).
      rewrite E in Hrun. injection Hrun as <-. rewrite Hd2; simpl.
      by f_equal.
  - intros a Ha.
    destruct (lv_pull_refresh_complete_live c w d Hd) as (w1 & E1 & Hd1 & Hc1).
    destruct Ha as [-> | [-> | ->]]; simpl.
    + rewrite E1. by eexists _, _.
    + rewrite lv_pull_refresh_set_refreshing_false, E1. by eexists _, _.
    + unfold PullRefresh.lv_pull_refresh_set_enabled.
      rewrite (data_of_live _ _ _ Hd).
      change (PullRefresh.state (PullRefresh.set_enabled false d))
        with (PullRefresh.state d).
      rewrite Hs; simpl.
      destruct (lv_pull_refresh_complete_live c
                  (set_block c (Live (PullRefresh.set_enabled false d)) w)
                  (PullRefresh.set_enabled false d))
        as (w2 & -> & Hd2 & Hc2); [apply data_of_set_block|].
      by eexists _, _.
Qed.

(** ** lv_expandable_card.c *)

Section CardFacts.
Import Card.

Lemma card_of_live (c : lv_obj_t) (w : cworld) (d : lv_card_widget_data_t) :
  card_of c w = Some d -> get_card_data w (Some c) = Some (c, Live d).
Proof.
  unfold card_of, get_card_data; simpl.
  destruct (user_data w !! c) as [[d'|]|]; try done. by intros [= ->].
Qed.

Lemma card_of_set_block (c : lv_obj_t) (d : lv_card_widget_data_t) (w : cworld) :
  card_of c (set_block c (Live d) w) = Some d.
Proof. unfold card_of, set_block; simpl. by rewrite lookup_insert_eq. Qed.

Lemma expanded_of_card_of (c : lv_obj_t) (w : cworld)
    (d : lv_card_widget_data_t) :
  card_of c w = Some d -> expanded_of c w = Some (expanded d).
Proof.
  intros Hd. unfold expanded_of, lv_expandable_card_is_expanded.
  by rewrite (card_of_live _ _ _ Hd).
Qed.

(** [update_card_display] leaves the expansion flag alone. *)
Lemma update_card_display_expanded (m : bool) (d : lv_card_widget_data_t)
    (w : cworld) :
  expanded (update_card_display m d w).1 = expanded d.
Proof.
  unfold update_card_display.
  destruct (card_data d) as [cd|]; [|done].
  destruct (content_label d) as [lbl|].
  - destruct (expanded d) eqn:E.
    + destruct (expand_label d); simpl; done.
    + destruct (truncated_text d); simpl.
      * destruct (expand_label d); simpl; done.
      * destruct (expand_label d); simpl; done.
  - destruct (expand_label d); simpl; done.
Qed.

Lemma lv_expandable_card_toggle_live (m : bool) (c : lv_obj_t) (w : cworld)
    (d : lv_card_widget_data_t) :
  card_of c w = Some d ->
  exists w' d',
    lv_expandable_card_toggle m (Some c) w = Ret (tt, w') /\
    card_of c w' = Some d' /\ expanded d' = negb (expanded d).
Proof.
  intros Hd. unfold lv_expandable_card_toggle.
  rewrite (card_of_live _ _ _ Hd).
  pose proof (update_card_display_expanded m
                (set_expanded (negb (expanded d)) d) w) as He.
  destruct (update_card_display _ _ _) as [d1 w1]; simpl in He.
  exists (set_block c (Live d1) w1), d1.
  split; [done|]. split; [apply card_of_set_block|done].
Qed.

Lemma expand_button_event_cb_live (m : bool) (c : lv_obj_t) (w : cworld)
    (d : lv_card_widget_data_t) :
  card_of c w = Some d ->
  exists w' d',
    expand_button_event_cb m (Some c) w = Ret w' /\
    card_of c w' = Some d' /\ expanded d' = negb (expanded d).
Proof.
  intros Hd. unfold expand_button_event_cb.
  rewrite (card_of_live _ _ _ Hd).
  pose proof (update_card_display_expanded m
                (set_expanded (negb (expanded d)) d) w) as He.
  destruct (update_card_display _ _ _) as [d1 w1]; simpl in He.
  eexists _, d1.
  split; [done|]. split; [apply card_of_set_block|done].
Qed.

Lemma lv_expandable_card_set_expanded_live (m : bool) (c : lv_obj_t)
    (w : cworld) (d : lv_card_widget_data_t) (b : bool) :
  card_of c w = Some d ->
  exists w' d',
    lv_expandable_card_set_expanded m (Some c) b w = Ret (true, w') /\
    card_of c w' = Some d' /\ expanded d' = b.
Proof.
  intros Hd. unfold lv_expandable_card_set_expanded.
  rewrite (card_of_live _ _ _ Hd).
  pose proof (update_card_display_expanded m (set_expanded b d) w) as He.
  destruct (update_card_display _ _ _) as [d1 w1]; simpl in He.
  exists (set_block c (Live d1) w1), d1.
  split; [done|]. split; [apply card_of_set_block|done].
Qed.

End CardFacts.

(** C3: on a card with live data [lv_expandable_card_toggle] (and the
    click handler of the button) negates the expansion flag, so that two
    toggles give the flag back, and [lv_expandable_card_is_expanded] after
    [lv_expandable_card_set_expanded] with [b] returns [b]; whether the
    truncated text could be allocated plays no part. *)
Theorem card_toggle_set_expanded
    (c : lv_obj_t) (w : Card.cworld) (d : Card.lv_card_widget_data_t) :
  Card.card_of c w = Some d ->
  (forall m1 m2,
      exists w1 w2,
        Card.lv_expandable_card_toggle m1 (Some c) w = Ret (tt, w1) /\
        Card.expanded_of c w1 = Some (negb (Card.expanded d)) /\
        Card.lv_expandable_card_toggle m2 (Some c) w1 = Ret (tt, w2) /\
        Card.expanded_of c w2 = Some (Card.expanded d)) /\
  (forall m,
      exists w1,
        Card.expand_button_event_cb m (Some c) w = Ret w1 /\
        Card.expanded_of c w1 = Some (negb (Card.expanded d))) /\
  (forall m b,
      exists w1,
        Card.lv_expandable_card_set_expanded m (Some c) b w = Ret (true, w1) /\
        Card.lv_expandable_card_is_expanded (Some c) w1 = Ret (b, w1)).
Proof.
  intros Hd. split; [|split].
  - intros m1 m2.
    destruct (lv_expandable_card_toggle_live m1 c w d Hd)
      as (w1 & d1 & E1 & Hd1 & He1).
    destruct (lv_expandable_card_toggle_live m2 c w1 d1 Hd1)
      as (w2 & d2 & E2 & Hd2 & He2).
    exists w1, w2. split; [done|]. split.
    { by rewrite (expanded_of_card_of _ _ _ Hd1), He1. }
    split; [done|].
    rewrite (expanded_of_card_of _ _ _ Hd2), He2, He1. by rewrite negb_involutive.
  - intros m.
    destruct (expand_button_event_cb_live m c w d Hd)
      as (w1 & d1 & E1 & Hd1 & He1).
    exists w1. split; [done|].
    by rewrite (expanded_of_card_of _ _ _ Hd1), He1.
  - intros m b.
    destruct (lv_expandable_card_set_expanded_live m c w d b Hd)
      as (w1 & d1 & E1 & Hd1 & He1).
    exists w1. split; [done|].
    unfold Card.lv_expandable_card_is_expanded.
    by rewrite (card_of_live _ _ _ Hd1), He1.
Qed.

(** ** The three widgets on a [NULL] object *)

(** C4, as the code has it: on an object that is [NULL] or whose user data is
    [NULL], every public operation of the gallery, the card and the
    pull-to-refresh container returns its failure value ([false], [-1],
    [0]) or just returns, and leaves the world as it was.  This is not the
    only way an operation fails: on a gallery with live data
    [lv_image_gallery_set_index] refuses an index out of range, returning
    [false] and leaving the world as it was; on a widget with live data
    (a gallery with its array in memory and its index in range) no
    operation reads freed memory. *)
Theorem null_widget_operations :
  (forall (w : Gallery.gworld) obj,
      null_widget w obj ->
      (forall index,
          Gallery.lv_image_gallery_set_index obj index w = Ret (false, w)) /\
      Gallery.lv_image_gallery_get_index obj w = Ret (-1, w) /\
      Gallery.lv_image_gallery_next obj w = Ret (tt, w) /\
      Gallery.lv_image_gallery_prev obj w = Ret (tt, w)) /\
  (forall (w : Card.cworld) obj,
      null_widget w obj ->
      (forall m b,
          Card.lv_expandable_card_set_expanded m obj b w = Ret (false, w)) /\
      Card.lv_expandable_card_is_expanded obj w = Ret (false, w) /\
      (forall m, Card.lv_expandable_card_toggle m obj w = Ret (tt, w))) /\
  (forall (w : PullRefresh.pworld) obj,
      null_widget w obj ->
      PullRefresh.lv_pull_refresh_complete obj w = Ret (tt, w) /\
      PullRefresh.lv_pull_refresh_is_refreshing obj w = Ret (false, w) /\
      (forall b,
          PullRefresh.lv_pull_refresh_set_refreshing obj b w = Ret (tt, w)) /\
      PullRefresh.lv_pull_refresh_get_pull_distance obj w = Ret (0, w) /\
      (forall b,
          PullRefresh.lv_pull_refresh_set_enabled obj b w = Ret (tt, w))) /\
  (forall (w : Gallery.gworld) g d,
      Gallery.gallery_of g w = Some d ->
      Gallery.gallery_wf d -> Gallery.index_in_range d ->
      (forall index, Gallery.lv_image_gallery_set_index (Some g) index w <> Trap) /\
      (forall index,
          ~ (0 <= index < Gallery.image_count d) ->
          Gallery.lv_image_gallery_set_index (Some g) index w = Ret (false, w)) /\
      Gallery.lv_image_gallery_get_index (Some g) w <> Trap /\
      Gallery.lv_image_gallery_next (Some g) w <> Trap /\
      Gallery.lv_image_gallery_prev (Some g) w <> Trap) /\
  (forall (w : Card.cworld) c d,
      Card.card_of c w = Some d ->
      (forall m b, Card.lv_expandable_card_set_expanded m (Some c) b w <> Trap) /\
      Card.lv_expandable_card_is_expanded (Some c) w <> Trap /\
      (forall m, Card.lv_expandable_card_toggle m (Some c) w <> Trap)) /\
  (forall (w : PullRefresh.pworld) c d,
      PullRefresh.data_of c w = Some d ->
      forall a, PullRefresh.run_action a c w <> Trap).
Proof.
  split; [|split; [|split; [|split; [|split]]]].
  - intros w obj Hnull.
    pose proof (get_widget_data_null w obj Hnull) as Hget.
    unfold Gallery.lv_image_gallery_set_index, Gallery.lv_image_gallery_get_index,
      Gallery.lv_image_gallery_next, Gallery.lv_image_gallery_prev,
      Gallery.gallery_step_index, Gallery.get_gallery_data.
    by rewrite Hget.
  - intros w obj Hnull.
    pose proof (get_widget_data_null w obj Hnull) as Hget.
    unfold Card.lv_expandable_card_set_expanded,
      Card.lv_expandable_card_is_expanded, Card.lv_expandable_card_toggle,
      Card.get_card_data.
    by rewrite Hget.
  - intros w obj Hnull.
    pose proof (get_widget_data_null w obj Hnull) as Hget.
    unfold PullRefresh.lv_pull_refresh_complete,
      PullRefresh.lv_pull_refresh_is_refreshing,
      PullRefresh.lv_pull_refresh_set_refreshing,
      PullRefresh.lv_pull_refresh_get_pull_distance,
      PullRefresh.lv_pull_refresh_set_enabled,
      PullRefresh.get_pull_refresh_data.
    by rewrite Hget.
  - intros w g d Hg Hwf Hr.
    pose proof (gallery_next_prev_live w g d Hg Hwf Hr) as Hstep.
    split; [|split; [|split; [|split]]].
    + intros index.
      by destruct (lv_image_gallery_set_index_live w g d index Hg Hwf Hr)
        as (r & w' & d' & -> & _).
    + intros index Hout.
      destruct (lv_image_gallery_set_index_live w g d index Hg Hwf Hr)
        as (r & w' & d' & -> & _ & _ & _ & Hiff & _ & Hsame).
      destruct r; [by destruct Hout; apply Hiff|by rewrite Hsame].
    + unfold Gallery.lv_image_gallery_get_index.
      by rewrite (gallery_of_live _ _ _ Hg).
    + destruct (Hstep Gallery.lv_image_gallery_next) as (w' & d' & -> & _);
        [by left|done].
    + destruct (Hstep Gallery.lv_image_gallery_prev) as (w' & d' & -> & _);
        [by right|done].
  - intros w c d Hd. split; [|split].
    + intros m b.
      by destruct (lv_expandable_card_set_expanded_live m c w d b Hd)
        as (w' & d' & -> & _).
    + unfold Card.lv_expandable_card_is_expanded.
      by rewrite (card_of_live _ _ _ Hd).
    + intros m.
      by destruct (lv_expandable_card_toggle_live m c w d Hd)
        as (w' & d' & -> & _).
  - intros w c d Hd a.
    by destruct (run_action_live a c w d Hd) as (w' & d' & -> & _).
Qed.

Section CardText.
Import Card.

Lemma utf8_char_to_byte_pos_loop_done (p : string) (char_pos cc bp : Z) :
  char_pos <= cc -> utf8_char_to_byte_pos_loop p char_pos cc bp = bp.
Proof.
  intros H. destruct p as [|c p]; [done|]. simpl.
  destruct (Z.ltb_spec cc char_pos); [lia|]. by rewrite orb_true_r.
Qed.

(** The loop stops in front of the lead byte of character [char_pos]: it
    has then stepped over [char_pos - 1] characters. *)
Lemma utf8_char_to_byte_pos_loop_spec (p : string) :
  forall (n : nat) (cc bp : Z),
    0 <= cc -> 0 <= bp ->
    cc + 1 + Z.of_nat n <= INT_MAX ->
    bp + Z.of_nat (String.length p) <= INT_MAX ->
    utf8_char_to_byte_pos_loop p (cc + 1 + Z.of_nat n) cc bp
    = bp + Z.of_nat (String.length (utf8_take n (c_str p))).
Proof.
  induction p as [|c p IH]; intros n cc bp Hcc Hbp Hn Hlen.
  { simpl. lia. }
  simpl in Hlen. simpl.
  destruct (is_nul c) eqn:Enul; simpl; [lia|].
  destruct (Z.ltb_spec cc (cc + 1 + Z.of_nat n)) as [_|]; [|lia]. simpl.
  destruct (is_continuation c) eqn:Econt.
  - destruct (Z.ltb_spec cc (cc + 1 + Z.of_nat n)) as [_|]; [|lia].
    rewrite wrap_int_id by (unfold in_int, INT_MIN, INT_MAX in *; lia).
    rewrite IH by lia. simpl. lia.
  - rewrite (wrap_int_id (cc + 1))
      by (unfold in_int, INT_MIN, INT_MAX in *; lia).
    destruct n as [|n].
    + destruct (Z.ltb_spec (cc + 1) (cc + 1 + Z.of_nat 0)); [lia|].
      rewrite utf8_char_to_byte_pos_loop_done by lia. simpl. lia.
    + destruct (Z.ltb_spec (cc + 1) (cc + 1 + Z.of_nat (S n))); [|lia].
      rewrite wrap_int_id by (unfold in_int, INT_MIN, INT_MAX in *; lia).
      replace (cc + 1 + Z.of_nat (S n)) with (cc + 1 + 1 + Z.of_nat n) by lia.
      rewrite IH by lia. simpl. lia.
Qed.

Lemma substring_utf8_take (n : nat) (s : string) :
  String.substring 0 (String.length (utf8_take n s)) s = utf8_take n s.
Proof.
  revert n. induction s as [|c s IH]; intros n; [done|]. simpl.
  destruct (is_continuation c); simpl; [by rewrite IH|].
  destruct n as [|n]; simpl; [done|by rewrite IH].
Qed.

Lemma append_empty_r (s : string) : s +:+ "" = s.
Proof.
  induction s as [|c s IH]; [done|].
  change (String c (s +:+ "") = String c s). by rewrite IH.
Qed.

(** What [create_truncated_text] returns for a content of more than
    [max_chars] characters: with [k = max_chars - |suffix|] at least 1, the
    first [k - 1] characters of the content and the suffix; the cut falls
    in front of a lead byte. *)
Lemma create_truncated_text_long (ft sfx : string) (max_chars : Z) :
  Z.of_nat (String.length ft) <= INT_MAX ->
  max_chars < utf8_char_count (Some ft) ->
  1 <= max_chars - utf8_char_count (Some sfx) <= INT_MAX ->
  create_truncated_text true (Some ft) max_chars (Some sfx)
  = Some (utf8_take (Z.to_nat (max_chars - utf8_char_count (Some sfx) - 1))
            (c_str ft) +:+ c_str sfx).
Proof.
  intros Hlen Hlong Hk. unfold create_truncated_text.
  destruct (Z.leb_spec (utf8_char_count (Some ft)) max_chars); [lia|].
  set (k := max_chars - utf8_char_count (Some sfx)) in *.
  rewrite wrap_int_id by (unfold in_int, INT_MIN, INT_MAX in *; lia).
  destruct (Z.ltb_spec k 0); [lia|]. simpl.
  unfold utf8_char_to_byte_pos.
  destruct (Z.leb_spec k 0); [lia|].
  assert (Hpos : utf8_char_to_byte_pos_loop ft k 0 0
                 = Z.of_nat (String.length
                               (utf8_take (Z.to_nat (k - 1)) (c_str ft)))).
  { replace k with (0 + 1 + Z.of_nat (Z.to_nat (k - 1))) at 1 by lia.
    rewrite utf8_char_to_byte_pos_loop_spec by (unfold INT_MAX in *; lia).
    lia. }
  rewrite Hpos, Nat2Z.id, substring_utf8_take.
  destruct (Z.ltb_spec 0 (strlen sfx)) as [_|Hz]; [done|].
  unfold strlen in Hz.
  destruct (c_str sfx); [by rewrite append_empty_r|simpl in Hz; lia].
Qed.

End CardText.

(** C9, on the code: for the English article of the news tab, 393
    characters long, with the default limit of 60 and the suffix of three
    dots, [create_truncated_text] keeps 56 characters of the content where
    the specification has 57; and with limit 4 and a one-dot suffix it
    turns "abcdef" into "ab." where the specification has "abc.". *)
Theorem create_truncated_text_keeps_one_less :
  Card.create_truncated_text true
    (Card.content Examples.english_article)
    Card.CARD_DEFAULT_TRUNCATE_LENGTH (Some "...")
  = Some "This English card demonstrates that the expandable card ..." /\
  Card.spec_truncated_text
    (default "" (Card.content Examples.english_article))
    Card.CARD_DEFAULT_TRUNCATE_LENGTH "..."
  = "This English card demonstrates that the expandable card w..." /\
  Card.truncated_text Examples.card_data_created
  = Some "This English card demonstrates that the expandable card ..." /\
  Card.create_truncated_text true (Some "abcdef") 4 (Some ".") = Some "ab." /\
  Card.spec_truncated_text "abcdef" 4 "." = "abc." /\
  Card.utf8_char_to_byte_pos (Some "abcdef") 3 = 2.
Proof. repeat split; by vm_compute. Qed.

(** The part of C9 the code keeps: a content of at most [max_chars]
    characters is copied as it is. *)
Lemma create_truncated_text_short (ft : string) (max_chars : Z)
    (suffix : option string) :
  Card.utf8_char_count (Some ft) <= max_chars ->
  Card.create_truncated_text true (Some ft) max_chars suffix
  = Some (Card.c_str ft).
Proof.
  intros H. unfold Card.create_truncated_text.
  by destruct (Z.leb_spec (Card.utf8_char_count (Some ft)) max_chars); [|lia].
Qed.

(** ** The theorems at work on the application's widgets *)

Lemma gallery_world_created :
  Gallery.lv_image_gallery_create Examples.gallery_env (Some Examples.tab)
    (Some Examples.gallery_images) 3 (Some "Gallery") None
    Examples.empty_gallery_world
  = Ret (Some Examples.gallery, Examples.gallery_world).
Proof. by vm_compute. Defined.

Lemma gallery_data_live :
  Gallery.gallery_of Examples.gallery Examples.gallery_world
  = Some Examples.gallery_data.
Proof. by vm_compute. Defined.

Lemma gallery_images_held : Gallery.array_holds (Some Examples.gallery_images) 3.
Proof. simpl. lia. Defined.

Lemma gallery_data_wf : Gallery.gallery_wf Examples.gallery_data.
Proof.
  split; [simpl; lia|]. exists Examples.gallery_images.
  split; [done|]. split; [simpl; lia|].
  unfold Gallery.array_in_memory, Gallery.sizeof_lv_gallery_image_t, SIZE_MAX.
  simpl. lia.
Defined.

Lemma gallery_data_in_range : Gallery.index_in_range Examples.gallery_data.
Proof. unfold Gallery.index_in_range; simpl. lia. Defined.

Lemma gallery_next_prev_wrap_witness :
  Gallery.gallery_of Examples.gallery Examples.gallery_world
  = Some Examples.gallery_data /\
  Gallery.gallery_wf Examples.gallery_data /\
  Gallery.index_in_range Examples.gallery_data /\
  Gallery.index_after Gallery.lv_image_gallery_next Examples.gallery
    Examples.gallery_world = Some 1 /\
  Gallery.index_after Gallery.lv_image_gallery_prev Examples.gallery
    Examples.gallery_world = Some 2.
Proof.
  split; [exact gallery_data_live|].
  split; [exact gallery_data_wf|].
  split; [exact gallery_data_in_range|].
  destruct (gallery_next_prev_wrap Examples.gallery_world Examples.gallery
              Examples.gallery_data gallery_data_live gallery_data_wf
              gallery_data_in_range) as (Hn & Hp & _).
  split; [exact Hn|exact Hp].
Defined.

Lemma lv_image_gallery_create_spec_witness :
  Gallery.array_holds (Some Examples.gallery_images) 3 /\
  Gallery.lv_image_gallery_get_index (Some Examples.gallery)
    Examples.gallery_world = Ret (0, Examples.gallery_world) /\
  Gallery.shown_image (lvgl_log Examples.gallery_world)
    (Gallery.new_img_obj Examples.gallery_env)
  = Some {| img_symbol := "image_1" |}.
Proof.
  split; [exact gallery_images_held|].
  destruct (lv_image_gallery_create_spec Examples.gallery_env
              (Some Examples.tab) (Some Examples.gallery_images) 3
              (Some "Gallery") None Examples.empty_gallery_world
              gallery_images_held) as (_ & _ & Hok & _).
  destruct (Hok Examples.gallery Examples.gallery_world gallery_world_created)
    as (Hidx & arr & im & src & Harr & Him & Hsrc & Hshown).
  split; [exact Hidx|].
  rewrite Hshown. injection Harr as <-. injection Him as <-.
  injection Hsrc as <-. reflexivity.
Defined.

Lemma gallery_index_invariant_witness :
  Gallery.gallery_of Examples.gallery Examples.gallery_world
  = Some Examples.gallery_data /\
  Gallery.gallery_wf Examples.gallery_data /\
  Gallery.index_in_range Examples.gallery_data /\
  (exists d, Gallery.gallery_of Examples.gallery Examples.gallery_world = Some d /\
             Gallery.index_in_range d) /\
  (exists w' d',
      Gallery.lv_image_gallery_set_index (Some Examples.gallery) 2
        Examples.gallery_world = Ret (true, w') /\
      Gallery.gallery_of Examples.gallery w' = Some d' /\
      Gallery.current_index d' = 2) /\
  Gallery.lv_image_gallery_set_index (Some Examples.gallery) 3
    Examples.gallery_world = Ret (false, Examples.gallery_world).
Proof.
  split; [exact gallery_data_live|].
  split; [exact gallery_data_wf|].
  split; [exact gallery_data_in_range|].
  destruct gallery_index_invariant as [Hcreate Hkeep].
  split.
  - destruct (Hcreate _ _ _ _ _ _ _ _ _ gallery_world_created)
      as (d & Hd & Hr & _).
    by exists d.
  - destruct (Hkeep Examples.gallery_world Examples.gallery
                Examples.gallery_data gallery_data_live gallery_data_wf
                gallery_data_in_range) as [_ Hset].
    split.
    + destruct (Hset 2) as (r & w' & d' & E & Hd' & _ & _ & Hiff & Hidx & _).
      assert (Hr : r = true) by (apply Hiff; simpl; lia). subst r.
      exists w', d'. split; [exact E|]. split; [exact Hd'|by apply Hidx].
    + destruct (Hset 3) as (r & w' & d' & E & _ & _ & _ & Hiff & _ & Hsame).
      destruct r.
      * exfalso. destruct Hiff as [Hiff _].
        specialize (Hiff eq_refl). simpl in Hiff. lia.
      * rewrite E. by rewrite (Hsame eq_refl).
Defined.

(** The constructor after a failed button: it returns [NULL] and frees the
    data, and the container it made keeps pointing to the freed block. *)
Lemma lv_image_gallery_create_failed_button (env : Gallery.create_env)
    (c : lv_obj_t) parent arr count title cfg (w : Gallery.gworld) :
  parent <> None -> 0 < count -> count <= Z.of_nat (length arr) ->
  ~ Gallery.has_null_src (Some arr) count ->
  Gallery.malloc_data env = true ->
  Gallery.new_container env = Some c ->
  Gallery.new_next_btn env = None ->
  exists w',
    Gallery.lv_image_gallery_create env parent (Some arr) count title cfg w
    = Ret (None, w') /\
    user_data w' !! c = Some Freed.
Proof.
  intros Hp Hc Hlen Hnn Hm Hcont Hbtn.
  unfold Gallery.lv_image_gallery_create.
  destruct parent as [p|]; [|done]. simpl.
  destruct (Z.leb_spec count 0); [lia|].
  destruct (Gallery.validate_images_loop arr 0 (Z.to_nat count))
    as [[|]|] eqn:Ev; simpl.
  - rewrite Hm, Hcont, Hbtn; simpl.
    destruct (Gallery.new_prev_btn env); eexists;
      (split; [done|]); simpl; by rewrite lookup_insert_eq.
  - exfalso. apply Hnn.
    destruct (validate_images_loop_false _ _ _ Ev) as (j & im & Hj & Ha & Hs).
    exists arr, j, im. split; [done|]. split; [lia|done].
  - exfalso.
    by eapply (validate_images_loop_no_trap arr (Z.to_nat count) 0); [lia|].
Qed.

Lemma pull_world_created :
  PullRefresh.lv_pull_refresh_create Examples.pull_env (Some Examples.tab)
    (Some Examples.pull_config) Examples.empty_pull_world
  = (Some Examples.pull_container, Examples.pull_world).
Proof. by vm_compute. Defined.

Lemma pull_data_live :
  PullRefresh.data_of Examples.pull_container Examples.pull_world
  = Some (Examples.fresh_pull_data Examples.pull_config).
Proof. by vm_compute. Defined.

Lemma zero_threshold_data_live :
  PullRefresh.data_of Examples.pull_container Examples.zero_threshold_world
  = Some (Examples.fresh_pull_data Examples.zero_threshold_config).
Proof. by vm_compute. Defined.

Lemma refreshing_data_live :
  PullRefresh.data_of Examples.pull_container Examples.refreshing_world
  = Some Examples.refreshing_data.
Proof. by vm_compute. Defined.

Lemma refreshing_world_reachable :
  PullRefresh.reachable Examples.pull_container Examples.refreshing_world.
Proof.
  apply (PullRefresh.reach_step Examples.pull_container
           (PullRefresh.Event PullRefresh.LV_EVENT_SCROLL_END (-40) 2000)
           Examples.pulled_world Examples.refreshing_world).
  - apply (PullRefresh.reach_step Examples.pull_container
             (PullRefresh.Event PullRefresh.LV_EVENT_SCROLL (-40) 1990)
             Examples.pull_world Examples.pulled_world).
    + exact (PullRefresh.reach_create _ _ _ _ _ _ pull_world_created).
    + by vm_compute.
  - by vm_compute.
Defined.

(** C2 as it is worded fails where the threshold is not positive: with a
    threshold of 0 and a scroll offset of 0 the distance 0 is at least the
    threshold, and the container is IDLE, not READY. *)
Lemma scroll_event_zero_threshold_idle :
  PullRefresh.data_of Examples.pull_container Examples.zero_threshold_world
  = Some (Examples.fresh_pull_data Examples.zero_threshold_config) /\
  PullRefresh.enabled (Examples.fresh_pull_data Examples.zero_threshold_config)
  = true /\
  PullRefresh.state (Examples.fresh_pull_data Examples.zero_threshold_config)
  <> PullRefresh.PULL_STATE_REFRESHING /\
  exists w' d',
    PullRefresh.scroll_event_cb PullRefresh.LV_EVENT_SCROLL
      (Some Examples.pull_container) 0 0 Examples.zero_threshold_world
    = Ret w' /\
    PullRefresh.data_of Examples.pull_container w' = Some d' /\
    PullRefresh.current_pull_distance d'
    >= PullRefresh.pull_threshold (PullRefresh.config d') /\
    PullRefresh.state d' = PullRefresh.PULL_STATE_IDLE /\
    PullRefresh.state d' <> PullRefresh.PULL_STATE_READY.
Proof.
  split; [exact zero_threshold_data_live|]. split; [done|]. split; [done|].
  eexists. eexists. split; [by vm_compute|]. split; [by vm_compute|].
  split; [simpl; lia|]. split; done.
Qed.

Lemma scroll_event_state_by_distance_witness :
  PullRefresh.data_of Examples.pull_container Examples.pull_world
  = Some (Examples.fresh_pull_data Examples.pull_config) /\
  PullRefresh.enabled (Examples.fresh_pull_data Examples.pull_config) = true /\
  PullRefresh.state (Examples.fresh_pull_data Examples.pull_config)
  <> PullRefresh.PULL_STATE_REFRESHING /\
  exists w' d',
    PullRefresh.scroll_event_cb PullRefresh.LV_EVENT_SCROLL
      (Some Examples.pull_container) (-40) 1990 Examples.pull_world = Ret w' /\
    PullRefresh.data_of Examples.pull_container w' = Some d' /\
    PullRefresh.current_pull_distance d' = 40 /\
    PullRefresh.state d' = PullRefresh.PULL_STATE_READY.
Proof.
  assert (He : PullRefresh.enabled
                 (Examples.fresh_pull_data Examples.pull_config) = true)
    by reflexivity.
  assert (Hs : PullRefresh.state
                 (Examples.fresh_pull_data Examples.pull_config)
               <> PullRefresh.PULL_STATE_REFRESHING) by discriminate.
  split; [exact pull_data_live|]. split; [exact He|]. split; [exact Hs|].
  destruct (scroll_event_state_by_distance Examples.pull_container
              Examples.pull_world
              (Examples.fresh_pull_data Examples.pull_config) (-40) 1990
              pull_data_live He Hs)
    as (w' & d' & E & Hd' & _ & Hdist & _ & Hst & _).
  exists w', d'. split; [exact E|]. split; [exact Hd'|].
  split; [exact Hdist|]. rewrite Hst, Hdist. reflexivity.
Defined.

Lemma pull_state_four_states_witness :
  PullRefresh.reachable Examples.pull_container Examples.refreshing_world /\
  (exists s,
      PullRefresh.state_of Examples.pull_container Examples.refreshing_world
      = Some s /\ s ∈ PullRefresh.all_pull_states) /\
  PullRefresh.state_of Examples.pull_container Examples.pull_world
  = Some PullRefresh.PULL_STATE_IDLE.
Proof.
  split; [exact refreshing_world_reachable|].
  destruct pull_state_four_states as (_ & _ & _ & Hstart & Hreach).
  split.
  - exact (proj1 (Hreach _ _ refreshing_world_reachable)).
  - exact (Hstart _ _ _ _ _ _ pull_world_created).
Defined.

Lemma refreshing_left_only_by_completion_witness :
  PullRefresh.data_of Examples.pull_container Examples.refreshing_world
  = Some Examples.refreshing_data /\
  PullRefresh.state Examples.refreshing_data
  = PullRefresh.PULL_STATE_REFRESHING /\
  (exists w',
      PullRefresh.scroll_event_cb PullRefresh.LV_EVENT_SCROLL_END
        (Some Examples.pull_container) 0 5000 Examples.refreshing_world
      = Ret w' /\
      PullRefresh.state_of Examples.pull_container w'
      = Some PullRefresh.PULL_STATE_REFRESHING /\
      lvgl_log w' = lvgl_log Examples.refreshing_world) /\
  (exists w' d',
      PullRefresh.run_action PullRefresh.Complete Examples.pull_container
        Examples.refreshing_world = Ret w' /\
      PullRefresh.data_of Examples.pull_container w' = Some d' /\
      PullRefresh.state d' = PullRefresh.PULL_STATE_IDLE /\
      PullRefresh.refresh_triggered d' = false).
Proof.
  assert (Hs : PullRefresh.state Examples.refreshing_data
               = PullRefresh.PULL_STATE_REFRESHING) by reflexivity.
  split; [exact refreshing_data_live|]. split; [exact Hs|].
  destruct (refreshing_left_only_by_completion Examples.pull_container
              Examples.refreshing_world Examples.refreshing_data
              refreshing_data_live Hs) as (Hev & _ & Hleave).
  split.
  - destruct (Hev PullRefresh.LV_EVENT_SCROLL_END 0 5000)
      as (w' & E & Hst & Hlog & _).
    by exists w'.
  - destruct (Hleave PullRefresh.Complete (or_introl eq_refl))
      as (w' & d' & E & Hd' & Hst & Htr & _).
    by exists w', d'.
Defined.

Lemma card_data_live :
  Card.card_of Examples.card Examples.card_world
  = Some Examples.card_data_created.
Proof. by vm_compute. Defined.

Lemma card_toggle_set_expanded_witness :
  Card.card_of Examples.card Examples.card_world
  = Some Examples.card_data_created /\
  (exists w1 w2,
      Card.lv_expandable_card_toggle true (Some Examples.card)
        Examples.card_world = Ret (tt, w1) /\
      Card.expanded_of Examples.card w1 = Some true /\
      Card.lv_expandable_card_toggle true (Some Examples.card) w1
      = Ret (tt, w2) /\
      Card.expanded_of Examples.card w2 = Some false) /\
  (exists w1,
      Card.lv_expandable_card_set_expanded true (Some Examples.card) true
        Examples.card_world = Ret (true, w1) /\
      Card.lv_expandable_card_is_expanded (Some Examples.card) w1
      = Ret (true, w1)).
Proof.
  split; [exact card_data_live|].
  destruct (card_toggle_set_expanded Examples.card Examples.card_world
              Examples.card_data_created card_data_live)
    as (Htoggle & _ & Hset).
  split.
  - destruct (Htoggle true true) as (w1 & w2 & E1 & H1 & E2 & H2).
    by exists w1, w2.
  - destruct (Hset true true) as (w1 & E1 & H1). by exists w1.
Defined.

Lemma null_widget_operations_witness :
  null_widget Examples.gallery_world None /\
  null_widget Examples.gallery_world (Some 9%positive) /\
  Gallery.lv_image_gallery_get_index None Examples.gallery_world
  = Ret (-1, Examples.gallery_world) /\
  Gallery.lv_image_gallery_set_index (Some 9%positive) 0 Examples.gallery_world
  = Ret (false, Examples.gallery_world) /\
  null_widget Examples.card_world None /\
  Card.lv_expandable_card_is_expanded None Examples.card_world
  = Ret (false, Examples.card_world) /\
  null_widget Examples.pull_world (Some 9%positive) /\
  PullRefresh.lv_pull_refresh_get_pull_distance (Some 9%positive)
    Examples.pull_world = Ret (0, Examples.pull_world) /\
  Gallery.lv_image_gallery_next (Some Examples.gallery) Examples.gallery_world
  <> Trap /\
  Card.lv_expandable_card_is_expanded (Some Examples.card) Examples.card_world
  <> Trap /\
  PullRefresh.run_action PullRefresh.Complete Examples.pull_container
    Examples.refreshing_world <> Trap.
Proof.
  assert (Hg0 : null_widget Examples.gallery_world None) by (by left).
  assert (Hg9 : null_widget Examples.gallery_world (Some 9%positive)).
  { right. exists 9%positive. split; [done|]. by vm_compute. }
  assert (Hc0 : null_widget Examples.card_world None) by (by left).
  assert (Hp9 : null_widget Examples.pull_world (Some 9%positive)).
  { right. exists 9%positive. split; [done|]. by vm_compute. }
  destruct null_widget_operations as (Hg & Hc & Hp & Hgl & Hcl & Hpl).
  split; [exact Hg0|]. split; [exact Hg9|].
  split; [exact (proj1 (proj2 (Hg _ _ Hg0)))|].
  split; [exact (proj1 (Hg _ _ Hg9) 0)|].
  split; [exact Hc0|].
  split; [exact (proj1 (proj2 (Hc _ _ Hc0)))|].
  split; [exact Hp9|].
  split; [exact (proj1 (proj2 (proj2 (proj2 (Hp _ _ Hp9))))) |].
  split.
  { exact (proj1 (proj2 (proj2 (proj2 (Hgl _ _ _ gallery_data_live
                                           gallery_data_wf
                                           gallery_data_in_range))))). }
  split.
  { exact (proj1 (proj2 (Hcl _ _ _ card_data_live))). }
  exact (Hpl _ _ _ refreshing_data_live PullRefresh.Complete).
Defined.

(** * More of the widgets *)

(** ** lv_image_gallery.c: navigation *)

Section GalleryNavigation.
Import Gallery.

Lemma set_current_index_same (d : lv_gallery_data_t) :
  set_current_index (current_index d) d = d.
Proof. by destruct d. Qed.

Lemma set_current_index_twice (i j : Z) (d : lv_gallery_data_t) :
  set_current_index i (set_current_index j d) = set_current_index i d.
Proof. done. Qed.

Lemma next_step_live (g : lv_obj_t) (w : gworld) (d : lv_gallery_data_t) :
  gallery_of g w = Some d -> gallery_wf d -> index_in_range d ->
  exists w',
    lv_image_gallery_next (Some g) w = Ret (tt, w') /\
    gallery_of g w'
    = Some (set_current_index ((current_index d + 1) mod image_count d) d).
Proof.
  intros Hg Hwf Hr. pose proof (gallery_wf_count d Hwf) as [H1 Hn].
  apply (gallery_step_index_live next_index g w d); try done.
  - by apply next_index_mod.
  - apply Z.mod_pos_bound. lia.
Qed.

Lemma prev_step_live (g : lv_obj_t) (w : gworld) (d : lv_gallery_data_t) :
  gallery_of g w = Some d -> gallery_wf d -> index_in_range d ->
  exists w',
    lv_image_gallery_prev (Some g) w = Ret (tt, w') /\
    gallery_of g w'
    = Some (set_current_index
              ((current_index d - 1 + image_count d) mod image_count d) d).
Proof.
  intros Hg Hwf Hr. pose proof (gallery_wf_count d Hwf) as [H1 Hn].
  apply (gallery_step_index_live prev_index g w d); try done.
  - by apply prev_index_mod.
  - apply Z.mod_pos_bound. lia.
Qed.

Lemma index_in_range_set (i : Z) (d : lv_gallery_data_t) :
  0 <= i < image_count d -> index_in_range (set_current_index i d).
Proof. done. Qed.

Lemma mod_next_prev (i n : Z) :
  0 <= i < n -> ((i + 1) mod n - 1 + n) mod n = i.
Proof.
  intros Hi. destruct (decide (i + 1 = n)) as [E|E].
  - rewrite E, Z_mod_same_full. replace (0 - 1 + n) with i by lia.
    apply Z.mod_small. lia.
  - rewrite (Z.mod_small (i + 1)) by lia.
    replace (i + 1 - 1 + n) with (i + 1 * n) by lia.
    rewrite Z_mod_plus_full. apply Z.mod_small. lia.
Qed.

Lemma mod_prev_next (i n : Z) :
  0 <= i < n -> ((i - 1 + n) mod n + 1) mod n = i.
Proof.
  intros Hi. destruct (decide (i = 0)) as [->|E].
  - replace (0 - 1 + n) with (n - 1) by lia.
    rewrite (Z.mod_small (n - 1)) by lia.
    replace (n - 1 + 1) with n by lia. apply Z_mod_same_full.
  - replace (i - 1 + n) with (i - 1 + 1 * n) by lia.
    rewrite Z_mod_plus_full, (Z.mod_small (i - 1)) by lia.
    replace (i - 1 + 1) with i by lia. apply Z.mod_small. lia.
Qed.

End GalleryNavigation.

(** X1: on a gallery, [lv_image_gallery_prev] undoes
    [lv_image_gallery_next] and [lv_image_gallery_next] undoes
    [lv_image_gallery_prev]: after the pair the data of the gallery is
    what it was. *)
Theorem gallery_next_prev_inverse
    (w : Gallery.gworld) (g : lv_obj_t) (d : Gallery.lv_gallery_data_t) :
  Gallery.gallery_of g w = Some d ->
  Gallery.gallery_wf d ->
  Gallery.index_in_range d ->
  (exists w1 w2,
      Gallery.lv_image_gallery_next (Some g) w = Ret (tt, w1) /\
      Gallery.lv_image_gallery_prev (Some g) w1 = Ret (tt, w2) /\
      Gallery.gallery_of g w2 = Some d) /\
  (exists w1 w2,
      Gallery.lv_image_gallery_prev (Some g) w = Ret (tt, w1) /\
      Gallery.lv_image_gallery_next (Some g) w1 = Ret (tt, w2) /\
      Gallery.gallery_of g w2 = Some d).
Proof.
  intros Hg Hwf Hr. pose proof (gallery_wf_count d Hwf) as [H1 Hn].
  pose proof Hr as [Hlo Hhi]. split.
  - destruct (next_step_live g w d Hg Hwf Hr) as (w1 & E1 & Hg1).
    destruct (prev_step_live g w1 _ Hg1) as (w2 & E2 & Hg2); [done| |].
    { apply index_in_range_set, Z.mod_pos_bound. lia. }
    exists w1, w2. split; [done|]. split; [done|].
    rewrite Hg2. simpl. rewrite mod_next_prev by done.
    by rewrite set_current_index_twice, set_current_index_same.
  - destruct (prev_step_live g w d Hg Hwf Hr) as (w1 & E1 & Hg1).
    destruct (next_step_live g w1 _ Hg1) as (w2 & E2 & Hg2); [done| |].
    { apply index_in_range_set, Z.mod_pos_bound. lia. }
    exists w1, w2. split; [done|]. split; [done|].
    rewrite Hg2. simpl. rewrite mod_prev_next by done.
    by rewrite set_current_index_twice, set_current_index_same.
Qed.

Section GalleryCycle.
Import Gallery.

Lemma repeat_next_live (k : nat) :
  forall (g : lv_obj_t) (w : gworld) (d : lv_gallery_data_t),
    gallery_of g w = Some d -> gallery_wf d -> index_in_range d ->
    exists w',
      repeat_step k lv_image_gallery_next g w = Ret (tt, w') /\
      gallery_of g w'
      = Some (set_current_index
                ((current_index d + Z.of_nat k) mod image_count d) d).
Proof.
  induction k as [|k IH]; intros g w d Hg Hwf Hr.
  - exists w. split; [done|]. rewrite Z.add_0_r.
    destruct Hr. rewrite Z.mod_small by lia.
    by rewrite set_current_index_same.
  - pose proof (gallery_wf_count d Hwf) as [H1 Hn].
    destruct (next_step_live g w d Hg Hwf Hr) as (w1 & E1 & Hg1).
    destruct (IH g w1 _ Hg1) as (w2 & E2 & Hg2); [done| |].
    { apply index_in_range_set, Z.mod_pos_bound. lia. }
    exists w2. simpl. rewrite E1. split; [done|].
    rewrite Hg2. simpl. rewrite set_current_index_twice. do 2 f_equal.
    rewrite Zplus_mod_idemp_l. f_equal. lia.
Qed.

Lemma repeat_prev_live (k : nat) :
  forall (g : lv_obj_t) (w : gworld) (d : lv_gallery_data_t),
    gallery_of g w = Some d -> gallery_wf d -> index_in_range d ->
    exists w',
      repeat_step k lv_image_gallery_prev g w = Ret (tt, w') /\
      gallery_of g w'
      = Some (set_current_index
                ((current_index d - Z.of_nat k) mod image_count d) d).
Proof.
  induction k as [|k IH]; intros g w d Hg Hwf Hr.
  - exists w. split; [done|]. rewrite Z.sub_0_r.
    destruct Hr. rewrite Z.mod_small by lia.
    by rewrite set_current_index_same.
  - pose proof (gallery_wf_count d Hwf) as [H1 Hn].
    destruct (prev_step_live g w d Hg Hwf Hr) as (w1 & E1 & Hg1).
    destruct (IH g w1 _ Hg1) as (w2 & E2 & Hg2); [done| |].
    { apply index_in_range_set, Z.mod_pos_bound. lia. }
    exists w2. simpl. rewrite E1. split; [done|].
    rewrite Hg2. simpl. rewrite set_current_index_twice. do 2 f_equal.
    rewrite Zminus_mod_idemp_l.
    replace (current_index d - 1 + image_count d - Z.of_nat k)
      with (current_index d - Z.of_nat (S k) + 1 * image_count d) by lia.
    apply Z_mod_plus_full.
Qed.

End GalleryCycle.

(** X2: [k] calls of [lv_image_gallery_next] move the index from [i] to
    [(i + k) mod n] and [k] calls of [lv_image_gallery_prev] to
    [(i - k) mod n]; after [n] calls of either the gallery data is what it
    was: the carousel has gone round once. *)
Theorem gallery_full_cycle
    (w : Gallery.gworld) (g : lv_obj_t) (d : Gallery.lv_gallery_data_t) :
  Gallery.gallery_of g w = Some d ->
  Gallery.gallery_wf d ->
  Gallery.index_in_range d ->
  let n := Gallery.image_count d in
  let i := Gallery.current_index d in
  (forall k : nat,
      exists w',
        Gallery.repeat_step k Gallery.lv_image_gallery_next g w = Ret (tt, w') /\
        Gallery.lv_image_gallery_get_index (Some g) w'
        = Ret ((i + Z.of_nat k) mod n, w')) /\
  (forall k : nat,
      exists w',
        Gallery.repeat_step k Gallery.lv_image_gallery_prev g w = Ret (tt, w') /\
        Gallery.lv_image_gallery_get_index (Some g) w'
        = Ret ((i - Z.of_nat k) mod n, w')) /\
  (exists w',
      Gallery.repeat_step (Z.to_nat n) Gallery.lv_image_gallery_next g w
      = Ret (tt, w') /\ Gallery.gallery_of g w' = Some d) /\
  (exists w',
      Gallery.repeat_step (Z.to_nat n) Gallery.lv_image_gallery_prev g w
      = Ret (tt, w') /\ Gallery.gallery_of g w' = Some d).
Proof.
  intros Hg Hwf Hr n i. pose proof (gallery_wf_count d Hwf) as [H1 Hn].
  pose proof Hr as [Hlo Hhi]. fold n in H1, Hn, Hhi. fold i in Hlo, Hhi.
  split; [|split; [|split]].
  - intros k. destruct (repeat_next_live k g w d Hg Hwf Hr) as (w' & E & Hg').
    exists w'. split; [done|].
    unfold Gallery.lv_image_gallery_get_index.
    by rewrite (gallery_of_live _ _ _ Hg').
  - intros k. destruct (repeat_prev_live k g w d Hg Hwf Hr) as (w' & E & Hg').
    exists w'. split; [done|].
    unfold Gallery.lv_image_gallery_get_index.
    by rewrite (gallery_of_live _ _ _ Hg').
  - destruct (repeat_next_live (Z.to_nat n) g w d Hg Hwf Hr) as (w' & E & Hg').
    exists w'. split; [done|]. rewrite Hg'. f_equal.
    rewrite Z2Nat.id by lia. fold n i.
    replace (i + n) with (i + 1 * n) by lia.
    rewrite Z_mod_plus_full, Z.mod_small by lia.
    apply set_current_index_same.
  - destruct (repeat_prev_live (Z.to_nat n) g w d Hg Hwf Hr) as (w' & E & Hg').
    exists w'. split; [done|]. rewrite Hg'. f_equal.
    rewrite Z2Nat.id by lia. fold n i.
    replace (i - n) with (i + (-1) * n) by lia.
    rewrite Z_mod_plus_full, Z.mod_small by lia.
    apply set_current_index_same.
Qed.

Section GalleryDisplay.
Import Gallery.

Lemma shown_text_app (log1 log2 : list lvgl_call) (obj : lv_obj_t) :
  shown_text (log1 ++ log2) obj
  = foldl (fun acc c =>
             match c with
             | lv_label_set_text o t => if decide (o = obj) then Some t else acc
             | _ => acc
             end) (shown_text log1 obj) log2.
Proof. unfold shown_text. apply foldl_app. Qed.

(** What [update_gallery_display] puts on the screen for a block whose
    index is in range and whose two objects exist. *)
Lemma update_gallery_display_shows (d : lv_gallery_data_t) (w : gworld)
    (o l : lv_obj_t) :
  gallery_wf d -> index_in_range d ->
  img_obj d = Some o -> counter_label d = Some l ->
  exists arr im w',
    images d = Some arr /\
    arr !! Z.to_nat (current_index d) = Some im /\
    update_gallery_display d w = Ret w' /\
    user_data w' = user_data w /\
    shown_text (lvgl_log w') l
    = Some (Some (counter_text (current_index d + 1) (image_count d)
                    (default "" (label_text im)))) /\
    (forall src, img_src im = Some src ->
                 shown_image (lvgl_log w') o = Some src).
Proof.
  intros Hwf [Hlo Hhi] Ho Hl.
  pose proof (gallery_wf_count d Hwf) as [H1 Hn].
  destruct Hwf as (_ & arr & Harr & Hlen & _).
  destruct (lookup_lt_is_Some_2 arr (Z.to_nat (current_index d))) as [im Him];
    [lia|].
  exists arr, im. unfold update_gallery_display.
  rewrite Harr, Him, Ho, Hl.
  destruct (Z.ltb_spec (current_index d) 0); [lia|].
  destruct (Z.leb_spec (image_count d) (current_index d)); [lia|]. simpl.
  rewrite wrap_int_id by (unfold in_int, INT_MIN, INT_MAX; lia).
  eexists. split; [done|]. split; [done|]. split; [done|].
  destruct (img_src im) as [src|]; simpl.
  - split; [by destruct (img_src im)|].
    split.
    + rewrite shown_text_app. simpl. by rewrite decide_True.
    + intros src' [= <-]. rewrite !shown_image_app. simpl.
      by rewrite decide_True.
  - split; [done|]. split; [|done].
    rewrite shown_text_app. simpl. by rewrite decide_True.
Qed.

Lemma displays_current_after (g : lv_obj_t) (d : lv_gallery_data_t)
    (w w' : gworld) (o l : lv_obj_t) :
  gallery_wf d -> index_in_range d ->
  img_obj d = Some o -> counter_label d = Some l ->
  update_gallery_display d (set_block g (Live d) w) = Ret w' ->
  displays_current g w'.
Proof.
  intros Hwf Hr Ho Hl E.
  destruct (update_gallery_display_shows d (set_block g (Live d) w) o l)
    as (arr & im & w2 & Harr & Him & E2 & Hud & Htxt & Himg); try done.
  rewrite E in E2. injection E2 as <-.
  exists d, arr, im, o, l. split.
  { unfold gallery_of. rewrite Hud. apply gallery_of_set_block. }
  done.
Qed.

Lemma gallery_step_index_unfold (f : lv_gallery_data_t -> option Z)
    (g : lv_obj_t) (w : gworld) (d : lv_gallery_data_t) (i : Z) :
  gallery_of g w = Some d -> f d = Some i ->
  gallery_step_index f (Some g) w
  = (w' ← update_gallery_display (set_current_index i d)
            (set_block g (Live (set_current_index i d)) w);
     Ret (tt, w')).
Proof.
  intros Hg Hf. unfold gallery_step_index.
  by rewrite (gallery_of_live _ _ _ Hg), Hf.
Qed.

Lemma displays_current_step (f : lv_gallery_data_t -> option Z)
    (g : lv_obj_t) (w : gworld) (d : lv_gallery_data_t) (i : Z) (o l : lv_obj_t) :
  gallery_of g w = Some d -> gallery_wf d -> f d = Some i ->
  0 <= i < image_count d ->
  img_obj d = Some o -> counter_label d = Some l ->
  exists w', gallery_step_index f (Some g) w = Ret (tt, w') /\
             displays_current g w'.
Proof.
  intros Hg Hwf Hf Hi Ho Hl.
  rewrite (gallery_step_index_unfold f g w d i Hg Hf).
  destruct (update_gallery_display_ok (set_current_index i d)
              (set_block g (Live (set_current_index i d)) w))
    as (w' & E & _); [done|done|].
  rewrite E. simpl. exists w'. split; [done|].
  by eapply (displays_current_after g (set_current_index i d)).
Qed.

End GalleryDisplay.

(** X3: the screen follows the index.  After a successful
    [lv_image_gallery_create] and after every [lv_image_gallery_next],
    [lv_image_gallery_prev] and accepted [lv_image_gallery_set_index] on a
    gallery that has its image object and counter label, the counter label
    reads "index+1 / count - label" for the current image (an empty label
    when [label_text] is [NULL]) and the image object holds its source. *)
Theorem gallery_display_follows_index :
  (forall env parent imgs count title cfg (w w' : Gallery.gworld) g,
      Gallery.lv_image_gallery_create env parent imgs count title cfg w
      = Ret (Some g, w') ->
      (forall arr, imgs = Some arr -> Gallery.array_in_memory arr) ->
      Gallery.displays_current g w') /\
  (forall (w : Gallery.gworld) g d o l,
      Gallery.gallery_of g w = Some d ->
      Gallery.gallery_wf d ->
      Gallery.index_in_range d ->
      Gallery.img_obj d = Some o ->
      Gallery.counter_label d = Some l ->
      (exists w', Gallery.lv_image_gallery_next (Some g) w = Ret (tt, w') /\
                  Gallery.displays_current g w') /\
      (exists w', Gallery.lv_image_gallery_prev (Some g) w = Ret (tt, w') /\
                  Gallery.displays_current g w') /\
      (forall index,
          0 <= index < Gallery.image_count d ->
          exists w',
            Gallery.lv_image_gallery_set_index (Some g) index w
            = Ret (true, w') /\
            Gallery.displays_current g w')).
Proof.
  split.
  - intros env parent imgs count title cfg w w' g Hc Hmem.
    destruct (lv_image_gallery_create_success _ _ _ _ _ _ _ _ _ Hc)
      as (Hg & Hcnt & arr & -> & Hlen).
    assert (Hwf : Gallery.gallery_wf
                    (Gallery.created_data env (Some arr) count cfg)).
    { split; [simpl; lia|]. exists arr. split; [done|].
      split; [done|by apply Hmem]. }
    assert (Hr : Gallery.index_in_range
                   (Gallery.created_data env (Some arr) count cfg)).
    { unfold Gallery.index_in_range; simpl. lia. }
    revert Hc. unfold Gallery.lv_image_gallery_create.
    destruct parent; [|done]. unfold Gallery.validate_images_array.
    destruct (Z.leb_spec count 0); [lia|].
    destruct (Gallery.validate_images_loop arr 0 (Z.to_nat count))
      as [[|]|]; simpl; [|done|done].
    destruct (Gallery.malloc_data env); simpl; [|done].
    destruct (Gallery.new_container env) as [c|]; [|done].
    destruct (Gallery.new_prev_btn env); simpl; [|done].
    destruct (Gallery.new_next_btn env); simpl; [|done].
    destruct (Gallery.update_gallery_display _ _) as [w2|] eqn:Eu;
      simpl; [|done].
    intros [= <- <-].
    by eapply (displays_current_after c
                 (Gallery.created_data env (Some arr) count cfg)).
  - intros w g d o l Hg Hwf Hr Ho Hl.
    pose proof (gallery_wf_count d Hwf) as [H1 Hn]. split; [|split].
    + apply (displays_current_step Gallery.next_index g w d
               ((Gallery.current_index d + 1) mod Gallery.image_count d) o l);
        try done.
      * by apply next_index_mod.
      * apply Z.mod_pos_bound. lia.
    + apply (displays_current_step Gallery.prev_index g w d
               ((Gallery.current_index d - 1 + Gallery.image_count d)
                  mod Gallery.image_count d) o l); try done.
      * by apply prev_index_mod.
      * apply Z.mod_pos_bound. lia.
    + intros index Hi. unfold Gallery.lv_image_gallery_set_index.
      rewrite (gallery_of_live _ _ _ Hg).
      destruct (Z.ltb_spec index 0); [lia|].
      destruct (Z.leb_spec (Gallery.image_count d) index); [lia|]. simpl.
      destruct (update_gallery_display_ok (Gallery.set_current_index index d)
                  (set_block g (Live (Gallery.set_current_index index d)) w))
        as (w' & E & _); [done|done|].
      rewrite E. simpl. exists w'. split; [done|].
      by eapply (displays_current_after g
                   (Gallery.set_current_index index d)).
Qed.

Section GalleryFrame.
Import Gallery.

Lemma update_gallery_display_log (d : lv_gallery_data_t) (w w' : gworld) :
  update_gallery_display d w = Ret w' -> lvgl_log w `prefix_of` lvgl_log w'.
Proof.
  unfold update_gallery_display.
  destruct (images d) as [arr|]; [|by intros [= <-]].
  destruct (_ || _); [by intros [= <-]|].
  destruct (arr !! Z.to_nat (current_index d)) as [im|]; [|done].
  intros [= <-].
  destruct (img_obj d), (img_src im), (counter_label d); simpl;
    rewrite <- ?app_assoc; first [by eexists | by exists []; rewrite app_nil_r].
Qed.

Lemma gallery_write_frame (g : lv_obj_t) (d' : lv_gallery_data_t)
    (w w' : gworld) :
  update_gallery_display d' (set_block g (Live d') w) = Ret w' ->
  gallery_of g w' = Some d' /\
  (forall o, o <> g -> user_data w' !! o = user_data w !! o) /\
  lvgl_log w `prefix_of` lvgl_log w'.
Proof.
  intros E. pose proof (update_gallery_display_user_data _ _ _ E) as Hud.
  split; [|split].
  - unfold gallery_of. rewrite Hud. apply gallery_of_set_block.
  - intros o Ho. rewrite Hud. simpl. by rewrite lookup_insert_ne.
  - by apply update_gallery_display_log in E.
Qed.

End GalleryFrame.

(** X4: navigation touches one gallery and one field.  After
    [lv_image_gallery_next], [lv_image_gallery_prev] or
    [lv_image_gallery_set_index] on gallery [g] the data of [g] differs
    from before in [current_index] at most (the images, the count, the
    configuration and the two display objects are kept), the user data of
    every other object is as before, and the log has only grown. *)
Theorem gallery_navigation_frame
    (w : Gallery.gworld) (g : lv_obj_t) (d : Gallery.lv_gallery_data_t) :
  Gallery.gallery_of g w = Some d ->
  Gallery.gallery_wf d ->
  Gallery.index_in_range d ->
  (forall op,
      op = Gallery.lv_image_gallery_next \/ op = Gallery.lv_image_gallery_prev ->
      exists w' i,
        op (Some g) w = Ret (tt, w') /\
        Gallery.gallery_of g w' = Some (Gallery.set_current_index i d) /\
        (forall o, o <> g -> user_data w' !! o = user_data w !! o) /\
        lvgl_log w `prefix_of` lvgl_log w') /\
  (forall index,
      exists r w' i,
        Gallery.lv_image_gallery_set_index (Some g) index w = Ret (r, w') /\
        Gallery.gallery_of g w' = Some (Gallery.set_current_index i d) /\
        (forall o, o <> g -> user_data w' !! o = user_data w !! o) /\
        lvgl_log w `prefix_of` lvgl_log w').
Proof.
  intros Hg Hwf Hr. pose proof (gallery_wf_count d Hwf) as [H1 Hn]. split.
  - intros op Hop.
    assert (Hstep : forall f i,
               f d = Some i -> 0 <= i < Gallery.image_count d ->
               exists w' i,
                 Gallery.gallery_step_index f (Some g) w = Ret (tt, w') /\
                 Gallery.gallery_of g w' = Some (Gallery.set_current_index i d) /\
                 (forall o, o <> g -> user_data w' !! o = user_data w !! o) /\
                 lvgl_log w `prefix_of` lvgl_log w').
    { intros f i Hf Hi.
      rewrite (gallery_step_index_unfold f g w d i Hg Hf).
      destruct (update_gallery_display_ok (Gallery.set_current_index i d)
                  (set_block g (Live (Gallery.set_current_index i d)) w))
        as (w' & E & _); [done|done|].
      rewrite E. simpl. exists w', i. split; [done|].
      by apply gallery_write_frame. }
    destruct Hop as [-> | ->].
    + apply (Hstep Gallery.next_index
               ((Gallery.current_index d + 1) mod Gallery.image_count d)).
      * by apply next_index_mod.
      * apply Z.mod_pos_bound. lia.
    + apply (Hstep Gallery.prev_index
               ((Gallery.current_index d - 1 + Gallery.image_count d)
                  mod Gallery.image_count d)).
      * by apply prev_index_mod.
      * apply Z.mod_pos_bound. lia.
  - intros index. unfold Gallery.lv_image_gallery_set_index.
    rewrite (gallery_of_live _ _ _ Hg).
    destruct ((index <? 0) || (Gallery.image_count d <=? index)) eqn:Eout.
    + exists false, w, (Gallery.current_index d). split; [done|].
      rewrite set_current_index_same. done.
    + apply orb_false_elim in Eout as [E1 E2].
      apply Z.ltb_ge in E1. apply Z.leb_gt in E2.
      destruct (update_gallery_display_ok (Gallery.set_current_index index d)
                  (set_block g (Live (Gallery.set_current_index index d)) w))
        as (w' & E & _); [done|done|].
      rewrite E. simpl. exists true, w', index. split; [done|].
      by apply gallery_write_frame.
Qed.

(** X5: a construction that fails at a navigation button returns [NULL]
    after the container was made: the container keeps a user data pointer
    to the released block, so that every gallery operation on it and its
    delete handler read released memory (a trap); the delete handler of a
    gallery that was returned releases its data once. *)
Theorem gallery_failed_button_dangles
    (env : Gallery.create_env) (c : lv_obj_t) (parent : option lv_obj_t)
    (arr : list Gallery.lv_gallery_image_t) (count : Z)
    (title : option string) (cfg : option Gallery.lv_gallery_config_t)
    (w : Gallery.gworld) :
  parent <> None -> 0 < count -> count <= Z.of_nat (length arr) ->
  ~ Gallery.has_null_src (Some arr) count ->
  Gallery.malloc_data env = true ->
  Gallery.new_container env = Some c ->
  Gallery.new_prev_btn env = None \/ Gallery.new_next_btn env = None ->
  (exists w',
      Gallery.lv_image_gallery_create env parent (Some arr) count title cfg w
      = Ret (None, w') /\
      user_data w' !! c = Some Freed /\
      Gallery.lv_image_gallery_next (Some c) w' = Trap /\
      Gallery.lv_image_gallery_prev (Some c) w' = Trap /\
      (forall index, Gallery.lv_image_gallery_set_index (Some c) index w' = Trap) /\
      Gallery.lv_image_gallery_get_index (Some c) w' = Trap /\
      Gallery.gallery_delete_event_cb c w' = Trap) /\
  (forall (w1 : Gallery.gworld) g d,
      Gallery.gallery_of g w1 = Some d ->
      exists w2,
        Gallery.gallery_delete_event_cb g w1 = Ret w2 /\
        user_data w2 !! g = Some Freed /\
        (forall o, o <> g -> user_data w2 !! o = user_data w1 !! o)).
Proof.
  intros Hp Hc Hlen Hnn Hm Hcont Hbtn. split.
  - assert (Hcreate : exists w',
               Gallery.lv_image_gallery_create env parent (Some arr) count
                 title cfg w = Ret (None, w') /\
               user_data w' !! c = Some Freed).
    { unfold Gallery.lv_image_gallery_create.
      destruct parent as [p|]; [|done]. simpl.
      destruct (Z.leb_spec count 0); [lia|].
      destruct (Gallery.validate_images_loop arr 0 (Z.to_nat count))
        as [[|]|] eqn:Ev; simpl.
      - rewrite Hm, Hcont; simpl.
        destruct Hbtn as [-> | ->]; simpl.
        + eexists. split; [done|]. simpl. by rewrite lookup_insert_eq.
        + destruct (Gallery.new_prev_btn env); eexists;
            (split; [done|]); simpl; by rewrite lookup_insert_eq.
      - exfalso. apply Hnn.
        destruct (validate_images_loop_false _ _ _ Ev)
          as (j & im & Hj & Ha & Hs).
        exists arr, j, im. split; [done|]. split; [lia|done].
      - exfalso.
        by eapply (validate_images_loop_no_trap arr (Z.to_nat count) 0);
          [lia|]. }
    destruct Hcreate as (w' & E & Hfreed). exists w'.
    split; [done|]. split; [done|].
    unfold Gallery.lv_image_gallery_next, Gallery.lv_image_gallery_prev,
      Gallery.gallery_step_index, Gallery.lv_image_gallery_set_index,
      Gallery.lv_image_gallery_get_index, Gallery.gallery_delete_event_cb,
      Gallery.get_gallery_data, get_widget_data.
    by rewrite Hfreed.
  - intros w1 g d Hg. unfold Gallery.gallery_delete_event_cb.
    unfold Gallery.gallery_of in Hg.
    destruct (user_data w1 !! g) as [[d1|]|]; try done.
    eexists. split; [done|]. simpl. split.
    + by rewrite lookup_insert_eq.
    + intros o Ho. by rewrite lookup_insert_ne.
Qed.

(** ** lv_pull_refresh.c: what the actions do *)

Section PullRefreshEffect.
Import PullRefresh.

Lemma world_ext {D} (w1 w2 : world D) :
  user_data w1 = user_data w2 -> lvgl_log w1 = lvgl_log w2 -> w1 = w2.
Proof. destruct w1, w2; simpl. by intros -> ->. Qed.

Lemma update_indicator_display_calls (d : lv_pull_refresh_data_t)
    (w : pworld) :
  update_indicator_display d w
  = World (user_data w) (lvgl_log w ++ indicator_calls d).
Proof.
  unfold update_indicator_display, indicator_calls.
  destruct (show_indicator (config d)); simpl;
    [|by destruct w; simpl; rewrite app_nil_r].
  destruct (indicator_for d) as [text show].
  destruct (indicator_label d), (indicator_icon d), show, text;
    apply world_ext; simpl; rewrite <- ?app_assoc, ?app_nil_r; done.
Qed.

Lemma set_pull_state_calls (d : lv_pull_refresh_data_t)
    (s : lv_pull_state_t) (c : lv_obj_t) (w : pworld) :
  set_pull_state d s c w
  = (set_state s d,
     World (user_data w) (lvgl_log w ++ state_change_calls d s c)).
Proof.
  unfold set_pull_state, state_change_calls.
  destruct (decide (state d = s)) as [<-|Hne].
  { rewrite set_state_same. f_equal.
    apply world_ext; simpl; by rewrite ?app_nil_r. }
  change (state_cb (config (set_state s d))) with (state_cb (config d)).
  change (current_pull_distance (set_state s d))
    with (current_pull_distance d).
  rewrite update_indicator_display_calls.
  destruct (state_cb (config d)); f_equal; apply world_ext; simpl;
    rewrite <- ?app_assoc, ?app_nil_r; done.
Qed.

Lemma lv_pull_refresh_complete_effect (c : lv_obj_t) (w : pworld)
    (d : lv_pull_refresh_data_t) :
  data_of c w = Some d ->
  lv_pull_refresh_complete (Some c) w
  = Ret (tt, World (<[c := Live (completed d)]> (user_data w))
               (lvgl_log w ++ complete_calls d c)).
Proof.
  intros Hd. unfold lv_pull_refresh_complete.
  rewrite (data_of_live _ _ _ Hd), set_pull_state_calls.
  do 2 f_equal. apply world_ext; simpl; [done|].
  unfold complete_calls. by rewrite app_assoc.
Qed.

Ltac effect_done :=
  eexists; split; [reflexivity|]; split; [|split];
  [ unfold data_of, set_block, log_call; simpl;
    rewrite ?lookup_insert_eq; reflexivity
  | intros ? ?; unfold set_block, log_call; simpl;
    rewrite ?lookup_insert_ne by done; reflexivity
  | unfold set_block, log_call; simpl;
    rewrite <- ?app_assoc, ?app_nil_r; reflexivity ].

(** [run_action] on a container with live data: it returns, writes
    [data_after] into the block of the container, leaves every other
    object alone, and appends [log_after] to the log. *)
Lemma run_action_effect (a : action) (c : lv_obj_t) (w : pworld)
    (d : lv_pull_refresh_data_t) :
  data_of c w = Some d ->
  exists w',
    run_action a c w = Ret w' /\
    data_of c w' = Some (data_after a d) /\
    (forall o, o <> c -> user_data w' !! o = user_data w !! o) /\
    lvgl_log w' = lvgl_log w ++ log_after a c d.
Proof.
  intros Hd.
  destruct a as [code y t| | |b| |b]; cbn [run_action data_after log_after].
  - unfold scroll_event_cb. rewrite (data_of_live _ _ _ Hd).
    destruct code; destruct (enabled d); cbn [negb];
      try (exists w; rewrite app_nil_r; done).
    + destruct (decide (state d = PULL_STATE_REFRESHING)).
      * rewrite decide_True by done. effect_done.
      * rewrite decide_False by done.
        rewrite set_pull_state_calls. effect_done.
    + fold (triggers d t). destruct (triggers d t).
      * rewrite set_pull_state_calls. cbn [config set_state].
        change (refresh_cb (config (set_last_refresh_time t
                                      (set_refresh_triggered true d))))
          with (refresh_cb (config d)).
        destruct (refresh_cb (config d)); effect_done.
      * destruct (decide (state d = PULL_STATE_REFRESHING));
          [exists w; rewrite app_nil_r; done|].
        rewrite set_pull_state_calls. effect_done.
  - rewrite (lv_pull_refresh_complete_effect c w d Hd). effect_done.
  - unfold lv_pull_refresh_is_refreshing. rewrite (data_of_live _ _ _ Hd).
    exists w; rewrite app_nil_r; done.
  - destruct b.
    + unfold lv_pull_refresh_set_refreshing.
      rewrite (data_of_live _ _ _ Hd), set_pull_state_calls. effect_done.
    + rewrite lv_pull_refresh_set_refreshing_false.
      rewrite (lv_pull_refresh_complete_effect c w d Hd). effect_done.
  - unfold lv_pull_refresh_get_pull_distance.
    rewrite (data_of_live _ _ _ Hd). exists w; rewrite app_nil_r; done.
  - unfold lv_pull_refresh_set_enabled. rewrite (data_of_live _ _ _ Hd).
    change (state (set_enabled b d)) with (state d).
    destruct (negb b && negb (bool_decide (state d = PULL_STATE_IDLE))).
    + rewrite (lv_pull_refresh_complete_effect c _ (set_enabled b d))
        by apply data_of_set_block.
      effect_done.
    + effect_done.
Qed.

End PullRefreshEffect.

(** X6: [lv_pull_refresh_create] returns [NULL] exactly when the parent is
    [NULL], the configuration is [NULL], its refresh callback is [NULL],
    [lv_malloc] fails or the container cannot be made, and then it leaves
    the world as it was; the container it returns holds a copy of the
    configuration, is IDLE and enabled, with pull distance 0, no refresh
    triggered and last refresh time 0, and no other object is touched. *)
Theorem lv_pull_refresh_create_spec
    (env : PullRefresh.create_env) (parent : option lv_obj_t)
    (cfg : option PullRefresh.lv_pull_refresh_config_t)
    (w : PullRefresh.pworld) :
  let r := PullRefresh.lv_pull_refresh_create env parent cfg w in
  (r.1 = None <->
   parent = None \/ cfg = None \/
   (exists c, cfg = Some c /\ PullRefresh.refresh_cb c = None) \/
   PullRefresh.malloc_data env = false \/
   PullRefresh.new_container env = None) /\
  (r.1 = None -> r.2 = w) /\
  (forall c, r.1 = Some c ->
     PullRefresh.new_container env = Some c /\
     (forall o, o <> c -> user_data r.2 !! o = user_data w !! o) /\
     exists d conf,
       cfg = Some conf /\
       PullRefresh.data_of c r.2 = Some d /\
       PullRefresh.config d = conf /\
       PullRefresh.state d = PullRefresh.PULL_STATE_IDLE /\
       PullRefresh.enabled d = true /\
       PullRefresh.current_pull_distance d = 0 /\
       PullRefresh.refresh_triggered d = false /\
       PullRefresh.last_refresh_time d = 0).
Proof.
  intros r. subst r. unfold PullRefresh.lv_pull_refresh_create.
  destruct parent as [p|]; [|by split; [split; [auto|]|]].
  destruct cfg as [conf|]; [|by split; [split; [auto|]|]].
  destruct (PullRefresh.refresh_cb conf) as [cb|] eqn:Ecb;
    [|split; [split; [intros _; right; right; left; by exists conf|done]|done]].
  destruct (PullRefresh.malloc_data env) eqn:Em; simpl;
    [|by split; [split; [auto|]|]].
  destruct (PullRefresh.new_container env) as [c|] eqn:Ec; simpl;
    [|by split; [split; [auto 6|]|]].
  split; [split; [done|]|split; [done|]].
  - intros [H|[H|[(c0 & [= <-] & H)|[H|H]]]]; congruence.
  - intros c' [= <-]. split; [done|]. split.
    + intros o Ho. destruct (PullRefresh.show_indicator conf); simpl;
        by rewrite lookup_insert_ne.
    + eexists _, conf. split; [done|]. split.
      * unfold PullRefresh.data_of, set_block. simpl.
        by rewrite lookup_insert_eq.
      * done.
Qed.

Section PullRefreshInvariant.
Import PullRefresh.

Lemma state_for_distance_not_refreshing (x t : Z) :
  state_for_distance x t <> PULL_STATE_REFRESHING.
Proof.
  unfold state_for_distance. by destruct (x <=? 0), (x <? t).
Qed.

Lemma triggers_spec (d : lv_pull_refresh_data_t) (tick : Z) :
  triggers d tick = true <->
  state d = PULL_STATE_READY /\ refresh_triggered d = false /\
  PULL_REFRESH_COOLDOWN <= wrap_u32 (tick - last_refresh_time d).
Proof.
  unfold triggers.
  rewrite !andb_true_iff, bool_decide_eq_true, negb_true_iff, Z.leb_le.
  tauto.
Qed.

Lemma data_after_flag_agrees (a : action) (d : lv_pull_refresh_data_t) :
  flag_agrees d -> flag_agrees (data_after a d).
Proof.
  unfold flag_agrees. intros Hinv.
  assert (Hi : false = true <-> PULL_STATE_IDLE = PULL_STATE_REFRESHING)
    by (split; discriminate).
  assert (Hr : true = true <-> PULL_STATE_REFRESHING = PULL_STATE_REFRESHING)
    by (split; reflexivity).
  destruct a as [code y t| | |[|]| |b]; simpl.
  - destruct code; destruct (enabled d); simpl; try done.
    + destruct (decide (state d = PULL_STATE_REFRESHING)); simpl; [done|].
      pose proof (state_for_distance_not_refreshing (wrap_int (- y))
                    (pull_threshold (config d))).
      split; [intros Ht; apply Hinv in Ht; done|done].
    + destruct (triggers d t); simpl; [done|].
      destruct (decide (state d = PULL_STATE_REFRESHING)); simpl; [done|].
      split; [intros Ht; apply Hinv in Ht; done|done].
  - done.
  - done.
  - done.
  - done.
  - done.
  - destruct (negb b && _); simpl; [done|done].
Qed.

Lemma reachable_flag_agrees (c : lv_obj_t) (w : pworld) :
  reachable c w -> exists d, data_of c w = Some d /\ flag_agrees d.
Proof.
  induction 1 as [env parent cfg w0 w Hc | a w w' Hr (d & Hd & Hinv) Hstep].
  - destruct (lv_pull_refresh_create_live _ _ _ _ _ _ Hc)
      as (d & Hd & Hs & Ht & _).
    exists d. split; [done|]. unfold flag_agrees. rewrite Hs, Ht.
    split; discriminate.
  - destruct (run_action_effect a c w d Hd) as (w2 & E & Hd2 & _).
    rewrite E in Hstep. injection Hstep as <-.
    exists (data_after a d). split; [done|]. by apply data_after_flag_agrees.
Qed.

End PullRefreshInvariant.

(** X7: in every world reached from the creation of a container,
    [refresh_triggered] is set exactly when the state is REFRESHING, so
    that [lv_pull_refresh_is_refreshing] returns the value of the flag. *)
Theorem refresh_flag_follows_state (c : lv_obj_t) (w : PullRefresh.pworld) :
  PullRefresh.reachable c w ->
  exists d,
    PullRefresh.data_of c w = Some d /\
    (PullRefresh.refresh_triggered d = true <->
     PullRefresh.state d = PullRefresh.PULL_STATE_REFRESHING) /\
    PullRefresh.lv_pull_refresh_is_refreshing (Some c) w
    = Ret (PullRefresh.refresh_triggered d, w).
Proof.
  intros Hr. destruct (reachable_flag_agrees c w Hr) as (d & Hd & Hinv).
  exists d. split; [done|]. split; [done|].
  unfold PullRefresh.lv_pull_refresh_is_refreshing.
  rewrite (data_of_live _ _ _ Hd). do 2 f_equal.
  destruct (PullRefresh.refresh_triggered d) eqn:Et.
  - apply bool_decide_eq_true. by apply Hinv.
  - apply bool_decide_eq_false. intros Hs. apply Hinv in Hs. congruence.
Qed.

Section PullRefreshCalls.
Import PullRefresh.

Lemma refresh_calls_app (l1 l2 : list lvgl_call) :
  refresh_calls (l1 ++ l2) = refresh_calls l1 ++ refresh_calls l2.
Proof. apply filter_app. Qed.

Lemma state_calls_app (l1 l2 : list lvgl_call) :
  state_calls (l1 ++ l2) = state_calls l1 ++ state_calls l2.
Proof. apply filter_app. Qed.

Lemma indicator_calls_quiet (d : lv_pull_refresh_data_t) :
  refresh_calls (indicator_calls d) = [] /\
  state_calls (indicator_calls d) = [].
Proof.
  unfold indicator_calls.
  destruct (show_indicator (config d)); simpl; [|done].
  destruct (indicator_for d) as [text show].
  by destruct (indicator_label d), (indicator_icon d), show, text.
Qed.

Lemma state_change_calls_refresh (d : lv_pull_refresh_data_t)
    (s : lv_pull_state_t) (c : lv_obj_t) :
  refresh_calls (state_change_calls d s c) = [].
Proof.
  unfold state_change_calls. destruct (decide (state d = s)); [done|].
  rewrite refresh_calls_app.
  destruct (indicator_calls_quiet (set_state s d)) as [-> _].
  by destruct (state_cb (config d)).
Qed.

Lemma state_change_calls_state (d : lv_pull_refresh_data_t)
    (s : lv_pull_state_t) (c : lv_obj_t) :
  state_calls (state_change_calls d s c)
  = if decide (s = state d) then []
    else match state_cb (config d) with
         | Some cb =>
             [call_state_cb cb c (current_pull_distance d)
                (bool_decide (s = PULL_STATE_READY)
                 || bool_decide (s = PULL_STATE_REFRESHING))]
         | None => []
         end.
Proof.
  unfold state_change_calls.
  destruct (decide (state d = s)) as [<-|Hne].
  { by rewrite decide_True. }
  rewrite decide_False by done. rewrite state_calls_app.
  destruct (indicator_calls_quiet (set_state s d)) as [_ ->].
  by destruct (state_cb (config d)).
Qed.

(** The shape of what an action appends: nothing, with the state kept;
    or the calls of one change of state, with a scroll request before or
    after it, or the refresh callback after it. *)
Lemma log_after_shape (a : action) (c : lv_obj_t)
    (d : lv_pull_refresh_data_t) :
  (log_after a c d = [] /\ state (data_after a d) = state d) \/
  exists pre post d1 s,
    log_after a c d = pre ++ state_change_calls d1 s c ++ post /\
    data_after a d = set_state s d1 /\
    state d1 = state d /\ config d1 = config d /\
    indicator_label d1 = indicator_label d /\
    indicator_icon d1 = indicator_icon d /\
    (pre = [] \/ pre = [lv_obj_scroll_to_y c 0]) /\
    (post = [] \/ post = [lv_obj_scroll_to_y c 0] \/
     exists cb, post = [call_refresh_cb cb c]).
Proof.
  assert (Hcomplete : forall d0,
             state d0 = state d -> config d0 = config d ->
             indicator_label d0 = indicator_label d ->
             indicator_icon d0 = indicator_icon d ->
             exists pre post d1 s,
               complete_calls d0 c = pre ++ state_change_calls d1 s c ++ post /\
               completed d0 = set_state s d1 /\
               state d1 = state d /\ config d1 = config d /\
               indicator_label d1 = indicator_label d /\
               indicator_icon d1 = indicator_icon d /\
               (pre = [] \/ pre = [lv_obj_scroll_to_y c 0]) /\
               (post = [] \/ post = [lv_obj_scroll_to_y c 0] \/
                exists cb, post = [call_refresh_cb cb c])).
  { intros d0 H1 H2 H3 H4.
    exists [], [lv_obj_scroll_to_y c 0],
      (set_current_pull_distance 0 (set_refresh_triggered false d0)),
      PULL_STATE_IDLE.
    split; [done|]. split; [done|]. repeat split; auto. }
  destruct a as [code y t| | |[|]| |b]; simpl.
  - destruct code; destruct (enabled d); simpl; try (by left).
    + destruct (decide (state d = PULL_STATE_REFRESHING)); [by left|].
      right.
      exists [], [], (set_current_pull_distance (wrap_int (- y)) d),
        (state_for_distance (wrap_int (- y)) (pull_threshold (config d))).
      rewrite app_nil_r. repeat split; auto.
    + destruct (triggers d t).
      * right.
        exists [],
          (match refresh_cb (config d) with
           | Some cb => [call_refresh_cb cb c]
           | None => []
           end),
          (set_last_refresh_time t (set_refresh_triggered true d)),
          PULL_STATE_REFRESHING.
        split; [done|]. split; [done|]. repeat split; auto.
        destruct (refresh_cb (config d)) as [cb|]; [|by left].
        right; right. by exists cb.
      * destruct (decide (state d = PULL_STATE_REFRESHING)); [by left|].
        right. exists [lv_obj_scroll_to_y c 0], [], d, PULL_STATE_IDLE.
        rewrite app_nil_r. repeat split; auto.
  - right. by apply Hcomplete.
  - by left.
  - right.
    exists [], [], (set_refresh_triggered true d), PULL_STATE_REFRESHING.
    rewrite app_nil_r. repeat split; auto.
  - right. by apply Hcomplete.
  - by left.
  - destruct (negb b && _); [|by left].
    right. by apply Hcomplete.
Qed.

End PullRefreshCalls.

(** X8: the refresh callback runs in one situation only.  Whatever the
    action on a container with live data, the refresh callbacks in the log
    grow by exactly one call when the action is a scroll-end event on an
    enabled container that is READY with no refresh triggered and whose
    last refresh is at least 1000 ticks back (modulo 2^32), and by nothing
    otherwise; the public operations, [lv_pull_refresh_set_refreshing]
    with [true] included, never run it. *)
Theorem refresh_callback_only_on_release
    (c : lv_obj_t) (w : PullRefresh.pworld)
    (d : PullRefresh.lv_pull_refresh_data_t) :
  PullRefresh.data_of c w = Some d ->
  (forall tick,
      PullRefresh.triggers d tick = true <->
      PullRefresh.state d = PullRefresh.PULL_STATE_READY /\
      PullRefresh.refresh_triggered d = false /\
      PullRefresh.PULL_REFRESH_COOLDOWN
      <= wrap_u32 (tick - PullRefresh.last_refresh_time d)) /\
  (forall a,
      exists w',
        PullRefresh.run_action a c w = Ret w' /\
        PullRefresh.refresh_calls (lvgl_log w')
        = PullRefresh.refresh_calls (lvgl_log w)
          ++ match a with
             | PullRefresh.Event PullRefresh.LV_EVENT_SCROLL_END _ tick =>
                 if PullRefresh.enabled d && PullRefresh.triggers d tick then
                   match PullRefresh.refresh_cb (PullRefresh.config d) with
                   | Some cb => [call_refresh_cb cb c]
                   | None => []
                   end
                 else []
             | _ => []
             end).
Proof.
  intros Hd. split; [intros tick; apply triggers_spec|].
  intros a. destruct (run_action_effect a c w d Hd) as (w' & E & _ & _ & Hlog).
  exists w'. split; [done|]. rewrite Hlog, refresh_calls_app. f_equal.
  assert (Hcompl : forall d0, PullRefresh.refresh_calls
                                (PullRefresh.complete_calls d0 c) = []).
  { intros d0. unfold PullRefresh.complete_calls.
    by rewrite refresh_calls_app, state_change_calls_refresh. }
  destruct a as [code y t| | |[|]| |b]; simpl;
    rewrite ?Hcompl, ?state_change_calls_refresh; try done.
  - destruct code; destruct (PullRefresh.enabled d); simpl; try done.
    + destruct (decide _); [done|]. apply state_change_calls_refresh.
    + destruct (PullRefresh.triggers d t).
      * rewrite refresh_calls_app, state_change_calls_refresh.
        by destruct (PullRefresh.refresh_cb (PullRefresh.config d)).
      * destruct (decide _); [done|].
        change (PullRefresh.refresh_calls
                  (lv_obj_scroll_to_y c 0
                     :: PullRefresh.state_change_calls d
                          PullRefresh.PULL_STATE_IDLE c))
          with (PullRefresh.refresh_calls
                  ([lv_obj_scroll_to_y c 0]
                     ++ PullRefresh.state_change_calls d
                          PullRefresh.PULL_STATE_IDLE c)).
        by rewrite refresh_calls_app, state_change_calls_refresh.
  - destruct (negb b && _); [apply Hcompl|done].
Qed.

Section PullRefreshCallback.
Import PullRefresh.

(** The refresh callbacks an action appends. *)
Lemma log_after_refresh_calls (a : action) (c : lv_obj_t)
    (d : lv_pull_refresh_data_t) :
  refresh_calls (log_after a c d)
  = match a with
    | Event LV_EVENT_SCROLL_END _ tick =>
        if enabled d && triggers d tick then
          match refresh_cb (config d) with
          | Some cb => [call_refresh_cb cb c]
          | None => []
          end
        else []
    | _ => []
    end.
Proof.
  assert (Hcompl : forall d0, refresh_calls (complete_calls d0 c) = []).
  { intros d0. unfold complete_calls.
    by rewrite refresh_calls_app, state_change_calls_refresh. }
  destruct a as [code y t| | |[|]| |b]; simpl;
    rewrite ?Hcompl, ?state_change_calls_refresh; try done.
  - destruct code; destruct (enabled d); simpl; try done.
    + destruct (decide _); [done|]. apply state_change_calls_refresh.
    + destruct (triggers d t).
      * rewrite refresh_calls_app, state_change_calls_refresh.
        by destruct (refresh_cb (config d)).
      * destruct (decide _); [done|].
        change (refresh_calls
                  (lv_obj_scroll_to_y c 0
                     :: state_change_calls d PULL_STATE_IDLE c))
          with (refresh_calls
                  ([lv_obj_scroll_to_y c 0]
                     ++ state_change_calls d PULL_STATE_IDLE c)).
        by rewrite refresh_calls_app, state_change_calls_refresh.
  - destruct (negb b && _); [apply Hcompl|done].
Qed.

(** The handler with a refresh callback that calls [ops]: they run on
    the world the handler leaves when it has called the refresh callback,
    and not at all otherwise. *)
Lemma scroll_event_cb_calling_spec (ops : list action)
    (code : lv_event_code_t) (c : lv_obj_t) (scroll_y tick : Z) (w : pworld)
    (d : lv_pull_refresh_data_t) :
  data_of c w = Some d ->
  exists w1,
    scroll_event_cb code (Some c) scroll_y tick w = Ret w1 /\
    data_of c w1 = Some (data_after (Event code scroll_y tick) d) /\
    lvgl_log w1 = lvgl_log w ++ log_after (Event code scroll_y tick) c d /\
    (refresh_calls (log_after (Event code scroll_y tick) c d) = [] ->
     scroll_event_cb_calling ops code c scroll_y tick w = Ret w1) /\
    (refresh_calls (log_after (Event code scroll_y tick) c d) <> [] ->
     scroll_event_cb_calling ops code c scroll_y tick w = run_ops ops c w1).
Proof.
  intros Hd.
  destruct (run_action_effect (Event code scroll_y tick) c w d Hd)
    as (w1 & E & Hd1 & _ & Hlog).
  change (scroll_event_cb code (Some c) scroll_y tick w = Ret w1) in E.
  exists w1. split; [exact E|]. split; [exact Hd1|]. split; [exact Hlog|].
  unfold scroll_event_cb_calling. rewrite E, Hlog, refresh_calls_app.
  rewrite List.length_app.
  split; intros Hcalls.
  - rewrite Hcalls. simpl. rewrite Nat.add_0_r, Nat.ltb_irrefl. done.
  - destruct (refresh_calls (log_after (Event code scroll_y tick) c d))
      as [|x l]; [done|].
    destruct (Nat.ltb_spec (length (refresh_calls (lvgl_log w)))
                (length (refresh_calls (lvgl_log w)) + length (x :: l)));
      [done|simpl in *; lia].
Qed.

(** A release that starts a refresh whose callback calls
    [lv_pull_refresh_complete]. *)
Lemma scroll_end_completing (c : lv_obj_t) (w : pworld)
    (d : lv_pull_refresh_data_t) (scroll_y tick : Z) :
  data_of c w = Some d ->
  enabled d = true ->
  triggers d tick = true ->
  refresh_cb (config d) <> None ->
  exists w2,
    scroll_event_cb_calling [Complete] LV_EVENT_SCROLL_END c scroll_y tick w
    = Ret w2 /\
    data_of c w2
    = Some (completed
              (set_state PULL_STATE_REFRESHING
                 (set_last_refresh_time tick (set_refresh_triggered true d)))) /\
    state_calls (lvgl_log w2)
    = state_calls (lvgl_log w)
      ++ match state_cb (config d) with
         | Some cb =>
             [call_state_cb cb c (current_pull_distance d) true;
              call_state_cb cb c 0 false]
         | None => []
         end.
Proof.
  intros Hd Hen Htr Hcb.
  destruct (scroll_event_cb_calling_spec [Complete] LV_EVENT_SCROLL_END c
              scroll_y tick w d Hd) as (w1 & E & Hd1 & Hlog & _ & Hcall).
  rewrite log_after_refresh_calls, Hen, Htr in Hcall. simpl in Hcall.
  assert (Hne : match refresh_cb (config d) with
                | Some cb => [call_refresh_cb cb c]
                | None => []
                end <> [])
    by (by destruct (refresh_cb (config d))).
  specialize (Hcall Hne). rewrite Hcall.
  simpl in Hd1, Hlog. rewrite Hen, Htr in Hd1, Hlog.
  destruct (run_action_effect Complete c w1 _ Hd1)
    as (w2 & E2 & Hd2 & _ & Hlog2).
  exists w2. simpl in E2. rewrite E2. split; [done|]. split; [exact Hd2|].
  rewrite Hlog2, Hlog. simpl. unfold complete_calls.
  rewrite !state_calls_app, !state_change_calls_state. simpl.
  assert (Hready : state d = PULL_STATE_READY).
  { by apply triggers_spec in Htr as [? _]. }
  rewrite Hready.
  rewrite (decide_False (P := PULL_STATE_REFRESHING = PULL_STATE_READY))
    by done.
  assert (Hq : state_calls
                 match refresh_cb (config d) with
                 | Some cb => [call_refresh_cb cb c]
                 | None => []
                 end = [])
    by (by destruct (refresh_cb (config d))).
  rewrite Hq, app_nil_r, <- app_assoc. f_equal.
  by destruct (state_cb (config d)).
Qed.

End PullRefreshCallback.

(** X9: the state callback is called once for each change of state.  For
    every event and public operation on a container with live data whose
    callbacks do not call the widget (as those of [pull_refresh_tab.cpp]),
    the state callbacks in the log stay as they are when the state after
    the action is the state before it, and grow by one call when it
    differs and a state callback is configured; the call carries the pull
    distance stored after the action and [threshold_reached] is set
    exactly for READY and REFRESHING.  When the refresh callback calls
    [lv_pull_refresh_complete] itself, as the example of
    [lv_pull_refresh.h] does, a release that starts a refresh changes the
    state twice, READY to REFRESHING to IDLE, and the state callback is
    called twice: with the pull distance and [true], then with 0 and
    [false]. *)
Theorem state_callback_on_change
    (c : lv_obj_t) (w : PullRefresh.pworld)
    (d : PullRefresh.lv_pull_refresh_data_t) :
  PullRefresh.data_of c w = Some d ->
  (forall a : PullRefresh.action,
      exists w' d',
        PullRefresh.run_action a c w = Ret w' /\
        PullRefresh.data_of c w' = Some d' /\
        (PullRefresh.state d' = PullRefresh.state d ->
         PullRefresh.state_calls (lvgl_log w')
         = PullRefresh.state_calls (lvgl_log w)) /\
        (PullRefresh.state d' <> PullRefresh.state d ->
         PullRefresh.state_calls (lvgl_log w')
         = PullRefresh.state_calls (lvgl_log w)
           ++ match PullRefresh.state_cb (PullRefresh.config d) with
              | Some cb =>
                  [call_state_cb cb c (PullRefresh.current_pull_distance d')
                     match PullRefresh.state d' with
                     | PullRefresh.PULL_STATE_READY
                     | PullRefresh.PULL_STATE_REFRESHING => true
                     | _ => false
                     end]
              | None => []
              end)) /\
  (forall scroll_y tick,
      PullRefresh.enabled d = true ->
      PullRefresh.triggers d tick = true ->
      PullRefresh.refresh_cb (PullRefresh.config d) <> None ->
      exists w2 d2,
        PullRefresh.scroll_event_cb_calling [PullRefresh.Complete]
          PullRefresh.LV_EVENT_SCROLL_END c scroll_y tick w = Ret w2 /\
        PullRefresh.data_of c w2 = Some d2 /\
        PullRefresh.state d = PullRefresh.PULL_STATE_READY /\
        PullRefresh.state d2 = PullRefresh.PULL_STATE_IDLE /\
        PullRefresh.state_calls (lvgl_log w2)
        = PullRefresh.state_calls (lvgl_log w)
          ++ match PullRefresh.state_cb (PullRefresh.config d) with
             | Some cb =>
                 [call_state_cb cb c (PullRefresh.current_pull_distance d)
                    true;
                  call_state_cb cb c 0 false]
             | None => []
             end).
Proof.
  intros Hd. split.
  - intros a.
    destruct (run_action_effect a c w d Hd) as (w' & E & Hd' & _ & Hlog).
    exists w', (PullRefresh.data_after a d). split; [done|]. split; [done|].
    rewrite Hlog, state_calls_app.
    destruct (log_after_shape a c d)
      as [[-> Hs] | (pre & post & d1 & s & -> & -> & Hs1 & Hc1 & _ & _ & Hpre
                     & Hpost)].
    + split; [by rewrite app_nil_r|done].
    + rewrite !state_calls_app, state_change_calls_state.
      assert (Hq1 : PullRefresh.state_calls pre = [])
        by (by destruct Hpre as [-> | ->]).
      assert (Hq2 : PullRefresh.state_calls post = [])
        by (by destruct Hpost as [-> | [-> | (cb & ->)]]).
      rewrite Hq1, Hq2, app_nil_r. simpl. rewrite Hs1, Hc1.
      split; intros Hs.
      * rewrite decide_True by done. by rewrite app_nil_r.
      * rewrite decide_False by done. f_equal.
        destruct (PullRefresh.state_cb (PullRefresh.config d)); [|done].
        by destruct s.
  - intros scroll_y tick Hen Htr Hcb.
    destruct (scroll_end_completing c w d scroll_y tick Hd Hen Htr Hcb)
      as (w2 & E & Hd2 & Hcalls).
    eexists w2, _. split; [exact E|]. split; [exact Hd2|].
    split; [by apply triggers_spec in Htr as [? _]|].
    split; [done|exact Hcalls].
Qed.

(** X10: what a release does.  On a scroll-end event of an enabled
    container the handler leaves the block REFRESHING when a refresh
    starts or was already running, and IDLE otherwise, never PULLING or
    READY; a refresh that starts records the tick and sets the flag, any
    other release keeps both; the stored pull distance is kept.  This is
    the block the refresh callback is called on, and the outcome of the
    event when no refresh starts or when the refresh callback does not
    call the widget (as that of [pull_refresh_tab.cpp], which completes
    from a timer).  When the refresh callback calls
    [lv_pull_refresh_complete] itself, as the example of
    [lv_pull_refresh.h] does, the release that starts a refresh ends IDLE,
    with the flag cleared and the pull distance 0, the tick recorded. *)
Theorem scroll_end_outcome (c : lv_obj_t) (w : PullRefresh.pworld)
    (d : PullRefresh.lv_pull_refresh_data_t) (scroll_y tick : Z) :
  PullRefresh.data_of c w = Some d ->
  PullRefresh.enabled d = true ->
  exists w' d',
    PullRefresh.scroll_event_cb PullRefresh.LV_EVENT_SCROLL_END (Some c)
      scroll_y tick w = Ret w' /\
    PullRefresh.data_of c w' = Some d' /\
    (PullRefresh.state d' = PullRefresh.PULL_STATE_REFRESHING \/
     PullRefresh.state d' = PullRefresh.PULL_STATE_IDLE) /\
    (PullRefresh.state d' = PullRefresh.PULL_STATE_REFRESHING <->
     PullRefresh.triggers d tick = true \/
     PullRefresh.state d = PullRefresh.PULL_STATE_REFRESHING) /\
    (PullRefresh.triggers d tick = true ->
     PullRefresh.last_refresh_time d' = tick /\
     PullRefresh.refresh_triggered d' = true) /\
    (PullRefresh.triggers d tick = false ->
     PullRefresh.last_refresh_time d' = PullRefresh.last_refresh_time d /\
     PullRefresh.refresh_triggered d' = PullRefresh.refresh_triggered d) /\
    PullRefresh.current_pull_distance d' = PullRefresh.current_pull_distance d /\
    PullRefresh.scroll_event_cb_calling [] PullRefresh.LV_EVENT_SCROLL_END c
      scroll_y tick w = Ret w' /\
    (PullRefresh.triggers d tick = false ->
     forall ops,
       PullRefresh.scroll_event_cb_calling ops PullRefresh.LV_EVENT_SCROLL_END
         c scroll_y tick w = Ret w') /\
    (PullRefresh.triggers d tick = true ->
     PullRefresh.refresh_cb (PullRefresh.config d) <> None ->
     exists w2 d2,
       PullRefresh.scroll_event_cb_calling [PullRefresh.Complete]
         PullRefresh.LV_EVENT_SCROLL_END c scroll_y tick w = Ret w2 /\
       PullRefresh.data_of c w2 = Some d2 /\
       PullRefresh.state d2 = PullRefresh.PULL_STATE_IDLE /\
       PullRefresh.refresh_triggered d2 = false /\
       PullRefresh.current_pull_distance d2 = 0 /\
       PullRefresh.last_refresh_time d2 = tick).
Proof.
  intros Hd Hen.
  assert (Hnone : forall ops,
             exists w1,
               PullRefresh.scroll_event_cb PullRefresh.LV_EVENT_SCROLL_END
                 (Some c) scroll_y tick w = Ret w1 /\
               PullRefresh.data_of c w1
               = Some (PullRefresh.data_after
                         (PullRefresh.Event PullRefresh.LV_EVENT_SCROLL_END
                            scroll_y tick) d) /\
               (ops = [] \/ PullRefresh.triggers d tick = false ->
                PullRefresh.scroll_event_cb_calling ops
                  PullRefresh.LV_EVENT_SCROLL_END c scroll_y tick w = Ret w1)).
  { intros ops.
    destruct (scroll_event_cb_calling_spec ops PullRefresh.LV_EVENT_SCROLL_END
                c scroll_y tick w d Hd) as (w1 & E & Hd1 & _ & Hq & Hcall).
    exists w1. split; [exact E|]. split; [exact Hd1|].
    rewrite log_after_refresh_calls, Hen in Hq, Hcall. simpl in Hq, Hcall.
    intros [-> | Htr].
    - destruct (PullRefresh.triggers d tick);
        [destruct (PullRefresh.refresh_cb (PullRefresh.config d)) as [cb|]|];
        [by rewrite Hcall|by apply Hq|by apply Hq].
    - rewrite Htr in Hq. by apply Hq. }
  destruct (Hnone []) as (w' & E & Hd' & Hempty).
  exists w', (PullRefresh.data_after
                (PullRefresh.Event PullRefresh.LV_EVENT_SCROLL_END scroll_y tick)
                d).
  split; [exact E|]. split; [exact Hd'|].
  assert (Hrest :
            (PullRefresh.triggers d tick = false ->
             forall ops,
               PullRefresh.scroll_event_cb_calling ops
                 PullRefresh.LV_EVENT_SCROLL_END c scroll_y tick w = Ret w') /\
            (PullRefresh.triggers d tick = true ->
             PullRefresh.refresh_cb (PullRefresh.config d) <> None ->
             exists w2 d2,
               PullRefresh.scroll_event_cb_calling [PullRefresh.Complete]
                 PullRefresh.LV_EVENT_SCROLL_END c scroll_y tick w = Ret w2 /\
               PullRefresh.data_of c w2 = Some d2 /\
               PullRefresh.state d2 = PullRefresh.PULL_STATE_IDLE /\
               PullRefresh.refresh_triggered d2 = false /\
               PullRefresh.current_pull_distance d2 = 0 /\
               PullRefresh.last_refresh_time d2 = tick)).
  { split.
    - intros Htr ops. destruct (Hnone ops) as (w1 & E1 & _ & H1).
      rewrite E in E1. injection E1 as <-. apply H1. by right.
    - intros Htr Hcb.
      destruct (scroll_end_completing c w d scroll_y tick Hd Hen Htr Hcb)
        as (w2 & E2 & Hd2 & _).
      eexists w2, _. split; [exact E2|]. split; [exact Hd2|]. done. }
  destruct Hrest as [Hr1 Hr2].
  simpl. rewrite Hen.
  destruct (PullRefresh.triggers d tick) eqn:Et; simpl.
  - split; [by left|]. split; [split; [by left|done]|].
    split; [done|]. split; [done|]. split; [done|].
    split; [apply Hempty; by left|]. split; [done|exact Hr2].
  - case_decide as Hs; simpl.
    + split; [by left|]. split; [split; [by right|done]|].
      split; [done|]. split; [done|]. split; [done|].
      split; [apply Hempty; by left|]. split; [exact Hr1|done].
    + split; [by right|]. split; [split; [done|by intros [?|?]]|].
      split; [done|]. split; [done|]. split; [done|].
      split; [apply Hempty; by left|]. split; [exact Hr1|done].
Qed.

(** X11: a disabled container ignores its events, and disabling resets.
    While [enabled] is false every event leaves the world as it is.
    [lv_pull_refresh_set_enabled] with [false] leaves the container
    disabled and IDLE with the flag agreeing, so that it ignores every
    event from then on; with [true] it sets the flag [enabled] and nothing
    else. *)
Theorem disabled_container_ignores_events (c : lv_obj_t)
    (w : PullRefresh.pworld) (d : PullRefresh.lv_pull_refresh_data_t) :
  PullRefresh.data_of c w = Some d ->
  (PullRefresh.enabled d = false ->
   forall code scroll_y tick,
     PullRefresh.scroll_event_cb code (Some c) scroll_y tick w = Ret w) /\
  (exists w' d',
      PullRefresh.lv_pull_refresh_set_enabled (Some c) false w = Ret (tt, w') /\
      PullRefresh.data_of c w' = Some d' /\
      PullRefresh.enabled d' = false /\
      PullRefresh.state d' = PullRefresh.PULL_STATE_IDLE /\
      forall code scroll_y tick,
        PullRefresh.scroll_event_cb code (Some c) scroll_y tick w' = Ret w') /\
  (exists w',
      PullRefresh.lv_pull_refresh_set_enabled (Some c) true w = Ret (tt, w') /\
      PullRefresh.data_of c w' = Some (PullRefresh.set_enabled true d) /\
      lvgl_log w' = lvgl_log w).
Proof.
  intros Hd.
  assert (Hignore : forall w0 d0,
             PullRefresh.data_of c w0 = Some d0 ->
             PullRefresh.enabled d0 = false ->
             forall code scroll_y tick,
               PullRefresh.scroll_event_cb code (Some c) scroll_y tick w0
               = Ret w0).
  { intros w0 d0 Hd0 Hen code y t. unfold PullRefresh.scroll_event_cb.
    rewrite (data_of_live _ _ _ Hd0). by rewrite Hen. }
  split; [by apply Hignore|]. split.
  - destruct (run_action_effect (PullRefresh.SetEnabled false) c w d Hd)
      as (w' & E & Hd' & _ & _).
    exists w', (PullRefresh.data_after (PullRefresh.SetEnabled false) d).
    assert (Hen : PullRefresh.enabled
                    (PullRefresh.data_after (PullRefresh.SetEnabled false) d)
                  = false).
    { simpl. by destruct (negb _). }
    split.
    { simpl in E.
      destruct (PullRefresh.lv_pull_refresh_set_enabled (Some c) false w)
        as [[[] w1]|]; simpl in E; [|done]. congruence. }
    split; [exact Hd'|]. split; [exact Hen|]. split.
    + simpl. destruct (bool_decide _) eqn:Eb; simpl; [|done].
      by apply bool_decide_eq_true in Eb.
    + by apply (Hignore w' _ Hd').
  - destruct (run_action_effect (PullRefresh.SetEnabled true) c w d Hd)
      as (w' & E & Hd' & _ & Hlog).
    exists w'. split.
    { simpl in E.
      destruct (PullRefresh.lv_pull_refresh_set_enabled (Some c) true w)
        as [[[] w1]|]; simpl in E; [|done]. congruence. }
    split; [exact Hd'|]. simpl in Hlog. by rewrite app_nil_r in Hlog.
Qed.

Section PullRefreshIndicator.
Import PullRefresh.

Lemma shown_visible_app (log1 log2 : list lvgl_call) (obj : lv_obj_t) :
  shown_visible (log1 ++ log2) obj
  = foldl (fun acc c =>
             match c with
             | set_indicator_visible o b => if decide (o = obj) then Some b else acc
             | _ => acc
             end) (shown_visible log1 obj) log2.
Proof. unfold shown_visible. apply foldl_app. Qed.

(** Calls that neither write a label nor show or hide an object leave what
    is shown as it is. *)
Lemma shown_quiet (log calls : list lvgl_call) (obj : lv_obj_t) :
  Forall (fun c => match c with
                   | lv_label_set_text _ _ | set_indicator_visible _ _ => False
                   | _ => True
                   end) calls ->
  shown_visible (log ++ calls) obj = shown_visible log obj /\
  shown_text (log ++ calls) obj = shown_text log obj.
Proof.
  intros Hq. revert log.
  induction Hq as [|x calls Hx _ IH]; intros log.
  { by rewrite app_nil_r. }
  replace (log ++ x :: calls) with ((log ++ [x]) ++ calls)
    by (by rewrite <- app_assoc).
  destruct (IH (log ++ [x])) as [-> ->].
  rewrite shown_visible_app, shown_text_app. by destruct x.
Qed.

(** What the indicator shows once [update_indicator_display] has run. *)
Lemma indicator_calls_shown (d : lv_pull_refresh_data_t)
    (log : list lvgl_call) (l ic : lv_obj_t) :
  show_indicator (config d) = true ->
  indicator_label d = Some l ->
  indicator_icon d = Some ic ->
  l <> ic ->
  shown_visible (log ++ indicator_calls d) ic = Some (snd (indicator_for d)) /\
  shown_visible (log ++ indicator_calls d) l
  = Some match fst (indicator_for d) with
         | Some _ => snd (indicator_for d)
         | None => false
         end /\
  (snd (indicator_for d) = true ->
   shown_text (log ++ indicator_calls d) ic
   = Some (Some match state d with
                | PULL_STATE_REFRESHING => LV_SYMBOL_REFRESH
                | _ => LV_SYMBOL_DOWN
                end) /\
   forall t, fst (indicator_for d) = Some t ->
             shown_text (log ++ indicator_calls d) l = Some (Some t)).
Proof.
  intros Hshow Hl Hic Hne.
  assert (Hne' : ic <> l) by congruence.
  rewrite !shown_visible_app, !shown_text_app.
  unfold indicator_calls. rewrite Hshow, Hl, Hic. simpl.
  destruct (indicator_for d) as [text show] eqn:Ei. simpl.
  destruct show, text as [t|]; simpl;
    (split; [repeat case_decide; congruence|]);
    (split; [repeat case_decide; congruence|]);
    intros Hs; try done;
    (split; [|intros t0 Ht0; repeat case_decide; congruence]);
    unfold indicator_for in Ei;
    destruct (state d); repeat case_decide; congruence.
Qed.

End PullRefreshIndicator.

(** X12: the indicator follows the state.  On a container that shows its
    indicator, whatever the action: when the state is kept, what the label
    and the icon show is kept; when the state changes, the icon is shown
    exactly when the new state is not IDLE, with the refresh glyph for
    REFRESHING and the down arrow otherwise, and the label is shown, with
    the text configured for the new state, exactly when the new state is
    not IDLE and that text is not NULL. *)
Theorem indicator_follows_state (c : lv_obj_t) (w : PullRefresh.pworld)
    (d : PullRefresh.lv_pull_refresh_data_t) (a : PullRefresh.action)
    (l ic : lv_obj_t) :
  PullRefresh.data_of c w = Some d ->
  PullRefresh.show_indicator (PullRefresh.config d) = true ->
  PullRefresh.indicator_label d = Some l ->
  PullRefresh.indicator_icon d = Some ic ->
  l <> ic ->
  exists w' d',
    PullRefresh.run_action a c w = Ret w' /\
    PullRefresh.data_of c w' = Some d' /\
    (PullRefresh.state d' = PullRefresh.state d ->
     forall obj,
       shown_visible (lvgl_log w') obj = shown_visible (lvgl_log w) obj /\
       shown_text (lvgl_log w') obj = shown_text (lvgl_log w) obj) /\
    (PullRefresh.state d' <> PullRefresh.state d ->
     let text :=
       match PullRefresh.state d' with
       | PullRefresh.PULL_STATE_IDLE => None
       | PullRefresh.PULL_STATE_PULLING =>
           PullRefresh.pull_text (PullRefresh.config d)
       | PullRefresh.PULL_STATE_READY =>
           PullRefresh.release_text (PullRefresh.config d)
       | PullRefresh.PULL_STATE_REFRESHING =>
           PullRefresh.refreshing_text (PullRefresh.config d)
       end in
     match PullRefresh.state d' with
     | PullRefresh.PULL_STATE_IDLE =>
         shown_visible (lvgl_log w') ic = Some false /\
         shown_visible (lvgl_log w') l = Some false
     | s =>
         shown_visible (lvgl_log w') ic = Some true /\
         shown_text (lvgl_log w') ic
         = Some (Some match s with
                      | PullRefresh.PULL_STATE_REFRESHING =>
                          PullRefresh.LV_SYMBOL_REFRESH
                      | _ => PullRefresh.LV_SYMBOL_DOWN
                      end) /\
         match text with
         | Some t =>
             shown_visible (lvgl_log w') l = Some true /\
             shown_text (lvgl_log w') l = Some (Some t)
         | None => shown_visible (lvgl_log w') l = Some false
         end
     end).
Proof.
  intros Hd Hshow Hl Hic Hne.
  destruct (run_action_effect a c w d Hd) as (w' & E & Hd' & _ & Hlog).
  exists w', (PullRefresh.data_after a d). split; [done|]. split; [done|].
  rewrite Hlog.
  destruct (log_after_shape a c d)
    as [[-> Hs] | (pre & post & d1 & s & -> & -> & Hs1 & Hc1 & Hl1 & Hic1
                   & Hpre & Hpost)].
  { split; [|done]. intros _ obj. by rewrite app_nil_r. }
  assert (Hq1 : Forall (fun c => match c with
                   | lv_label_set_text _ _ | set_indicator_visible _ _ => False
                   | _ => True
                   end) pre)
    by (destruct Hpre as [-> | ->]; repeat constructor).
  assert (Hq2 : Forall (fun c => match c with
                   | lv_label_set_text _ _ | set_indicator_visible _ _ => False
                   | _ => True
                   end) post)
    by (destruct Hpost as [-> | [-> | (cb & ->)]]; repeat constructor).
  simpl. unfold PullRefresh.state_change_calls.
  destruct (PullRefresh.lv_pull_state_eq_dec (PullRefresh.state d1) s)
    as [Hs|Hs].
  - rewrite decide_True by done.
    split; [|congruence]. intros _ obj. simpl. rewrite app_assoc.
    destruct (shown_quiet (lvgl_log w ++ pre) post obj Hq2) as [-> ->].
    apply (shown_quiet _ _ _ Hq1).
  - rewrite decide_False by done.
    split; [congruence|]. intros _.
    set (cbl := match PullRefresh.state_cb (PullRefresh.config d1) with
                | Some cb => _
                | None => []
                end).
    assert (Hq3 : Forall (fun c => match c with
                   | lv_label_set_text _ _ | set_indicator_visible _ _ => False
                   | _ => True
                   end) (cbl ++ post)).
    { apply Forall_app. split; [|done]. unfold cbl.
      destruct (PullRefresh.state_cb _); repeat constructor. }
    replace (lvgl_log w ++ pre
               ++ (PullRefresh.indicator_calls (PullRefresh.set_state s d1)
                     ++ cbl) ++ post)
      with (((lvgl_log w ++ pre)
               ++ PullRefresh.indicator_calls (PullRefresh.set_state s d1))
              ++ (cbl ++ post))
      by (by rewrite <- !app_assoc).
    assert (Hv : forall obj,
               shown_visible
                 (((lvgl_log w ++ pre)
                     ++ PullRefresh.indicator_calls
                          (PullRefresh.set_state s d1)) ++ (cbl ++ post)) obj
               = shown_visible
                   ((lvgl_log w ++ pre)
                      ++ PullRefresh.indicator_calls
                           (PullRefresh.set_state s d1)) obj)
      by (intros obj; apply (shown_quiet _ _ _ Hq3)).
    assert (Ht : forall obj,
               shown_text
                 (((lvgl_log w ++ pre)
                     ++ PullRefresh.indicator_calls
                          (PullRefresh.set_state s d1)) ++ (cbl ++ post)) obj
               = shown_text
                   ((lvgl_log w ++ pre)
                      ++ PullRefresh.indicator_calls
                           (PullRefresh.set_state s d1)) obj)
      by (intros obj; apply (shown_quiet _ _ _ Hq3)).
    rewrite !Hv, !Ht.
    destruct (indicator_calls_shown (PullRefresh.set_state s d1)
                (lvgl_log w ++ pre) l ic)
      as (Hvi & Hvl & Htxt); simpl; try congruence.
    rewrite Hvi, Hvl. unfold PullRefresh.indicator_for in *. simpl in *.
    rewrite Hc1 in *.
    destruct s; simpl in *.
    + done.
    + destruct (Htxt eq_refl) as [-> Ht']. do 2 (split; [done|]).
      destruct (PullRefresh.pull_text (PullRefresh.config d)) as [t|];
        [|done]. split; [done|]. by apply Ht'.
    + destruct (Htxt eq_refl) as [-> Ht']. do 2 (split; [done|]).
      destruct (PullRefresh.release_text (PullRefresh.config d)) as [t|];
        [|done]. split; [done|]. by apply Ht'.
    + destruct (Htxt eq_refl) as [-> Ht']. do 2 (split; [done|]).
      destruct (PullRefresh.refreshing_text (PullRefresh.config d)) as [t|];
        [|done]. split; [done|]. by apply Ht'.
Qed.

(** ** lv_expandable_card.c: the text functions *)

Section CardStrings.
Import Card.

Lemma c_str_idem (s : string) : c_str (c_str s) = c_str s.
Proof.
  induction s as [|c s IH]; [done|]. simpl.
  destruct (is_nul c) eqn:E; [done|]. simpl. by rewrite E, IH.
Qed.

Lemma length_app (a b : string) :
  String.length (a +:+ b) = (String.length a + String.length b)%nat.
Proof. induction a as [|c a IH]; [done|]. simpl. by rewrite <- IH. Qed.

Lemma lead_bytes_app (a b : string) :
  lead_bytes (a +:+ b) = (lead_bytes a + lead_bytes b)%nat.
Proof.
  induction a as [|c a IH]; [done|].
  change (lead_bytes (String c (a +:+ b))
          = (lead_bytes (String c a) + lead_bytes b)%nat).
  simpl. rewrite IH. lia.
Qed.

Lemma lead_bytes_le (s : string) : (lead_bytes s <= String.length s)%nat.
Proof.
  induction s as [|c s IH]; [done|]. simpl.
  destruct (is_continuation c); lia.
Qed.

(** A string without NUL, cut anywhere, gives two strings without NUL. *)
Lemma c_str_app_inv (a b : string) :
  c_str (a +:+ b) = a +:+ b -> c_str a = a /\ c_str b = b.
Proof.
  induction a as [|c a IH]; [done|].
  change (c_str (String c (a +:+ b)) = String c (a +:+ b) ->
          c_str (String c a) = String c a /\ c_str b = b).
  simpl. destruct (is_nul c); [done|].
  intros [= H]. destruct (IH H) as [-> ->]. done.
Qed.

Lemma c_str_app (a b : string) :
  c_str a = a -> c_str b = b -> c_str (a +:+ b) = a +:+ b.
Proof.
  induction a as [|c a IH]; [done|].
  change (c_str (String c a) = String c a -> c_str b = b ->
          c_str (String c (a +:+ b)) = String c (a +:+ b)).
  simpl. destruct (is_nul c); [done|].
  intros [= Ha] Hb. by rewrite IH.
Qed.

Lemma utf8_char_count_loop_spec (p : string) :
  forall cc : Z,
    0 <= cc ->
    cc + Z.of_nat (String.length (c_str p)) <= INT_MAX ->
    utf8_char_count_loop p cc = cc + Z.of_nat (lead_bytes (c_str p)).
Proof.
  induction p as [|c p IH]; intros cc Hcc Hlen; simpl; [lia|].
  simpl in Hlen. destruct (is_nul c); simpl in *; [lia|].
  destruct (is_continuation c).
  - rewrite IH by lia. lia.
  - rewrite wrap_int_id by (unfold in_int, INT_MIN, INT_MAX in *; lia).
    rewrite IH by lia. lia.
Qed.

Lemma utf8_char_count_lead_bytes (s : string) :
  strlen s <= INT_MAX ->
  utf8_char_count (Some s) = Z.of_nat (lead_bytes (c_str s)).
Proof.
  intros H. unfold utf8_char_count, strlen in *.
  by rewrite utf8_char_count_loop_spec by lia.
Qed.

Lemma utf8_char_count_loop_in_int (p : string) :
  forall cc : Z, in_int cc -> in_int (utf8_char_count_loop p cc).
Proof.
  induction p as [|c p IH]; intros cc Hcc; simpl; [done|].
  destruct (is_nul c); [done|]. apply IH.
  destruct (is_continuation c); [done|]. apply wrap_int_range.
Qed.

Lemma utf8_char_to_byte_pos_loop_c_str (p : string) :
  forall k cc bp : Z,
    utf8_char_to_byte_pos_loop p k cc bp
    = utf8_char_to_byte_pos_loop (c_str p) k cc bp.
Proof.
  induction p as [|c p IH]; intros k cc bp; [done|]. simpl.
  destruct (is_nul c) eqn:E; simpl; [done|]. rewrite E. simpl.
  destruct (negb (cc <? k)); [done|]. apply IH.
Qed.

(** [utf8_take] cuts in front of a byte that starts a character. *)
Lemma utf8_take_split (n : nat) (s : string) :
  exists rest,
    s = utf8_take n s +:+ rest /\
    lead_bytes (utf8_take n s) = Nat.min n (lead_bytes s) /\
    match rest with
    | String c _ => is_continuation c = false
    | EmptyString => True
    end.
Proof.
  revert n. induction s as [|c s IH]; intros n.
  { exists EmptyString. simpl. by rewrite Nat.min_0_r. }
  simpl. destruct (is_continuation c) eqn:E.
  - destruct (IH n) as (rest & Hs & Hl & Hr). exists rest.
    split; [|split; [|done]].
    + change (String c s = String c (utf8_take n s +:+ rest)). by rewrite <- Hs.
    + simpl. rewrite E. simpl. done.
  - destruct n as [|n].
    + exists (String c s). by rewrite E.
    + destruct (IH n) as (rest & Hs & Hl & Hr). exists rest.
      split; [|split; [|done]].
      * change (String c s = String c (utf8_take n s +:+ rest)).
        by rewrite <- Hs.
      * simpl. rewrite E, Hl. lia.
Qed.

Lemma utf8_char_to_byte_pos_take (t : string) (k : Z) :
  strlen t <= INT_MAX ->
  1 <= k <= INT_MAX ->
  utf8_char_to_byte_pos (Some t) k
  = Z.of_nat (String.length (utf8_take (Z.to_nat (k - 1)) (c_str t))).
Proof.
  intros Hlen Hk. unfold utf8_char_to_byte_pos, strlen in *.
  destruct (Z.leb_spec k 0); [lia|].
  rewrite utf8_char_to_byte_pos_loop_c_str.
  replace k with (0 + 1 + Z.of_nat (Z.to_nat (k - 1))) at 1 by lia.
  rewrite utf8_char_to_byte_pos_loop_spec by (unfold INT_MAX in *; lia).
  by rewrite c_str_idem.
Qed.

End CardStrings.

(** X13: [utf8_char_count] counts the bytes before the terminator that are
    not continuation bytes: for a text of at most [INT_MAX] bytes the
    result is that number, so it lies between 0 and [strlen]; a text
    without continuation bytes has as many characters as bytes; [NULL]
    counts 0. *)
Theorem utf8_char_count_spec (s : string) :
  Card.strlen s <= INT_MAX ->
  Card.utf8_char_count (Some s) = Z.of_nat (Card.lead_bytes (Card.c_str s)) /\
  0 <= Card.utf8_char_count (Some s) <= Card.strlen s /\
  ((forall c, In c (list_ascii_of_string (Card.c_str s)) ->
              Card.is_continuation c = false) ->
   Card.utf8_char_count (Some s) = Card.strlen s) /\
  Card.utf8_char_count None = 0.
Proof.
  intros Hlen. rewrite (utf8_char_count_lead_bytes s Hlen).
  split; [done|]. split.
  { pose proof (lead_bytes_le (Card.c_str s)). unfold Card.strlen. lia. }
  split; [|done].
  unfold Card.strlen. clear Hlen.
  induction (Card.c_str s) as [|c r IH]; [done|].
  intros Hall. simpl.
  rewrite (Hall c) by (by left). simpl.
  rewrite Nat2Z.inj_succ, IH; [lia|].
  intros c' Hc'. apply Hall. by right.
Qed.

(** X14: [utf8_char_to_byte_pos] counts characters from 1.  For a
    position [char_pos] from 1 to [INT_MAX] in a text of at most [INT_MAX]
    bytes the result is the length of a prefix of the text that holds
    [char_pos - 1] characters (all of them when the text has fewer) and
    ends in front of a byte that starts a character, or at the end; a
    position of 0 or less, or a [NULL] text, gives 0. *)
Theorem utf8_char_to_byte_pos_spec (t : string) (char_pos : Z) :
  Card.strlen t <= INT_MAX ->
  1 <= char_pos <= INT_MAX ->
  (exists pre rest,
      Card.c_str t = pre +:+ rest /\
      Card.utf8_char_to_byte_pos (Some t) char_pos
      = Z.of_nat (String.length pre) /\
      Card.lead_bytes pre
      = Nat.min (Z.to_nat (char_pos - 1)) (Card.lead_bytes (Card.c_str t)) /\
      match rest with
      | String c _ => Card.is_continuation c = false
      | EmptyString => True
      end) /\
  (forall k, k <= 0 -> Card.utf8_char_to_byte_pos (Some t) k = 0) /\
  (forall k, Card.utf8_char_to_byte_pos None k = 0).
Proof.
  intros Hlen Hk. split; [|split; [|done]].
  - destruct (utf8_take_split (Z.to_nat (char_pos - 1)) (Card.c_str t))
      as (rest & Hs & Hl & Hr).
    exists (Card.utf8_take (Z.to_nat (char_pos - 1)) (Card.c_str t)), rest.
    split; [done|]. split; [|done].
    by apply utf8_char_to_byte_pos_take.
  - intros k Hk0. unfold Card.utf8_char_to_byte_pos.
    by destruct (Z.leb_spec k 0); [|lia].
Qed.

(** X15: a long text is cut to one character less than the limit.  For a
    content of more than [max_chars] characters and a suffix of fewer than
    [max_chars], [create_truncated_text] returns a prefix of the content
    followed by the suffix; the prefix holds
    [max_chars - suffix characters - 1] characters and ends in front of a
    byte that starts a character, and the result has [max_chars - 1]
    characters. *)
Theorem create_truncated_text_long_spec (ft sfx : string) (max_chars : Z) :
  Z.of_nat (String.length ft) + Z.of_nat (String.length sfx) <= INT_MAX ->
  Card.utf8_char_count (Some sfx) < max_chars ->
  max_chars < Card.utf8_char_count (Some ft) ->
  exists pre c rest,
    Card.c_str ft = pre +:+ String c rest /\
    Card.is_continuation c = false /\
    Card.create_truncated_text true (Some ft) max_chars (Some sfx)
    = Some (pre +:+ Card.c_str sfx) /\
    Card.utf8_char_count (Some pre)
    = max_chars - Card.utf8_char_count (Some sfx) - 1 /\
    Card.utf8_char_count (Some (pre +:+ Card.c_str sfx)) = max_chars - 1.
Proof.
  intros Hlen Hsfx Hlong.
  assert (Hcs : forall s, (String.length (Card.c_str s) <= String.length s)%nat).
  { induction s as [|c s IH]; [done|]. simpl.
    destruct (Card.is_nul c); simpl; lia. }
  pose proof (Hcs ft) as Hcft. pose proof (Hcs sfx) as Hcsfx.
  assert (Hft : Card.strlen ft <= INT_MAX) by (unfold Card.strlen; lia).
  assert (Hsx : Card.strlen sfx <= INT_MAX) by (unfold Card.strlen; lia).
  rewrite (utf8_char_count_lead_bytes ft Hft) in Hlong.
  rewrite (utf8_char_count_lead_bytes sfx Hsx) in Hsfx |- *.
  pose proof (lead_bytes_le (Card.c_str ft)) as Hle.
  set (n := Z.to_nat (max_chars - Z.of_nat (Card.lead_bytes (Card.c_str sfx))
                      - 1)).
  destruct (utf8_take_split n (Card.c_str ft)) as (rest & Hs & Hl & Hr).
  assert (Hn : Card.lead_bytes (Card.utf8_take n (Card.c_str ft)) = n)
    by lia.
  assert (Hrest : exists c r, rest = String c r).
  { destruct rest as [|c r]; [|by exists c, r].
    rewrite append_empty_r in Hs. rewrite <- Hs in Hn. lia. }
  destruct Hrest as (c & r & ->).
  exists (Card.utf8_take n (Card.c_str ft)), c, r.
  split; [done|]. split; [done|].
  assert (Hpre : Card.c_str (Card.utf8_take n (Card.c_str ft))
                 = Card.utf8_take n (Card.c_str ft)).
  { pose proof (c_str_idem ft) as Hi. rewrite Hs in Hi at 2.
    rewrite Hs in Hi at 1. by apply c_str_app_inv in Hi as [-> _]. }
  assert (Hlp : (String.length (Card.utf8_take n (Card.c_str ft))
                 <= String.length (Card.c_str ft))%nat).
  { rewrite Hs at 2. rewrite length_app. lia. }
  split; [|split].
  - rewrite create_truncated_text_long.
    + by rewrite (utf8_char_count_lead_bytes sfx Hsx).
    + lia.
    + by rewrite (utf8_char_count_lead_bytes ft Hft).
    + rewrite (utf8_char_count_lead_bytes sfx Hsx).
      unfold INT_MAX in *. lia.
  - rewrite utf8_char_count_lead_bytes
      by (unfold Card.strlen; rewrite Hpre; lia).
    rewrite Hpre, Hn. lia.
  - rewrite utf8_char_count_lead_bytes.
    + rewrite c_str_app by (done || apply c_str_idem).
      rewrite lead_bytes_app, Hn. lia.
    + unfold Card.strlen.
      rewrite c_str_app by (done || apply c_str_idem).
      rewrite length_app. lia.
Qed.

(** X16: the other cases of [create_truncated_text].  A [NULL] text gives
    [NULL]; so does a failed allocation; a content of at most [max_chars]
    characters is copied whole, whatever the suffix; a [NULL] suffix acts
    as the empty one; and when the suffix has [max_chars] characters or
    more, a longer content is replaced by the suffix alone, which may
    itself be longer than the limit. *)
Theorem create_truncated_text_cases :
  (forall m max_chars sfx,
      Card.create_truncated_text m None max_chars sfx = None) /\
  (forall ft max_chars sfx,
      Card.create_truncated_text false ft max_chars sfx = None) /\
  (forall ft max_chars sfx,
      Card.utf8_char_count (Some ft) <= max_chars ->
      Card.create_truncated_text true (Some ft) max_chars sfx
      = Some (Card.c_str ft)) /\
  (forall m ft max_chars,
      Card.create_truncated_text m ft max_chars None
      = Card.create_truncated_text m ft max_chars (Some EmptyString)) /\
  (forall ft max_chars sfx,
      0 <= max_chars ->
      max_chars < Card.utf8_char_count (Some ft) ->
      max_chars <= Card.utf8_char_count (Some sfx) ->
      Card.create_truncated_text true (Some ft) max_chars (Some sfx)
      = Some (Card.c_str sfx)).
Proof.
  split; [done|]. split.
  { intros [ft|] L sfx; [|done]. unfold Card.create_truncated_text.
    by destruct (_ <=? _). }
  split; [intros; by apply create_truncated_text_short|]. split.
  { intros m [ft|] L; [|done]. unfold Card.create_truncated_text.
    destruct (_ <=? _); [done|]. by destruct m. }
  intros ft L sfx HL Hlong Hsfx. unfold Card.create_truncated_text.
  destruct (Z.leb_spec (Card.utf8_char_count (Some ft)) L); [lia|].
  pose proof (utf8_char_count_loop_in_int sfx 0) as Hin.
  change (Card.utf8_char_count_loop sfx 0)
    with (Card.utf8_char_count (Some sfx)) in Hin.
  assert (Hr : in_int (Card.utf8_char_count (Some sfx)))
    by (apply Hin; unfold in_int, INT_MIN, INT_MAX; lia).
  rewrite wrap_int_id
    by (unfold in_int, INT_MIN, INT_MAX in *; lia).
  assert (Hpos : Card.utf8_char_to_byte_pos (Some ft)
                   (if L - Card.utf8_char_count (Some sfx) <? 0 then 0
                    else L - Card.utf8_char_count (Some sfx)) = 0).
  { unfold Card.utf8_char_to_byte_pos.
    destruct (Z.ltb_spec (L - Card.utf8_char_count (Some sfx)) 0); [done|].
    by destruct (Z.leb_spec (L - Card.utf8_char_count (Some sfx)) 0);
      [|lia]. }
  rewrite Hpos. simpl negb. cbv iota.
  change (String.substring 0 (Z.to_nat 0) (Card.c_str ft)) with
    (String.substring 0 0 (Card.c_str ft)).
  assert (Hsub : String.substring 0 0 (Card.c_str ft) = EmptyString)
    by (by destruct (Card.c_str ft)).
  rewrite Hsub.
  destruct (Z.ltb_spec 0 (Card.strlen sfx)) as [_|Hz]; [done|].
  unfold Card.strlen in Hz.
  destruct (Card.c_str sfx); [done|simpl in Hz; lia].
Qed.

(** ** lv_expandable_card.c: the widget *)

Section CardDisplay.
Import Card.

Lemma card_callbacks_app (l1 l2 : list lvgl_call) :
  card_callbacks (l1 ++ l2) = card_callbacks l1 ++ card_callbacks l2.
Proof. apply filter_app. Qed.

Lemma card_callbacks_log_call (c : lvgl_call) (w : cworld) :
  card_callbacks (lvgl_log (log_call c w))
  = card_callbacks (lvgl_log w) ++ card_callbacks [c].
Proof. unfold log_call. simpl. apply card_callbacks_app. Qed.

(** What [update_card_display] does to the block and to the world: only
    the cache [truncated_text] of the block can change, and only LVGL is
    called. *)
Lemma update_card_display_effect (m : bool) (d : lv_card_widget_data_t)
    (w : cworld) :
  expanded (update_card_display m d w).1 = expanded d /\
  config (update_card_display m d w).1 = config d /\
  card_data (update_card_display m d w).1 = card_data d /\
  content_label (update_card_display m d w).1 = content_label d /\
  expand_label (update_card_display m d w).1 = expand_label d /\
  user_data (update_card_display m d w).2 = user_data w /\
  card_callbacks (lvgl_log (update_card_display m d w).2)
  = card_callbacks (lvgl_log w) /\
  truncated_text (update_card_display m d w).1
  = if expanded d then truncated_text d
    else match card_data d, content_label d, truncated_text d with
         | Some cd, Some _, None =>
             create_truncated_text m (content cd)
               (truncate_length (config d)) (truncate_suffix (config d))
         | _, _, _ => truncated_text d
         end.
Proof.
  unfold update_card_display.
  destruct (card_data d) as [cd|] eqn:Ecd;
    [|destruct (expanded d) eqn:Ee; simpl; by rewrite ?Ecd, ?Ee].
  destruct (content_label d) as [lbl|] eqn:Elbl, (expanded d) eqn:Ee,
        (truncated_text d) as [t|] eqn:Et, (expand_label d) as [el|] eqn:El;
    simpl; rewrite ?Ee, ?El; simpl;
    try (destruct (content_container d)); simpl;
    unfold log_call; simpl;
    rewrite ?card_callbacks_app; simpl; rewrite ?app_nil_r;
    rewrite ?Ecd, ?Elbl, ?Ee, ?Et, ?El; done.
Qed.

(** What the two labels show once [update_card_display] has run. *)
Lemma update_card_display_shown (m : bool) (d : lv_card_widget_data_t)
    (w : cworld) (cd : lv_card_data_t) (lbl el : lv_obj_t) :
  card_data d = Some cd ->
  content_label d = Some lbl ->
  expand_label d = Some el ->
  lbl <> el ->
  shown_text (lvgl_log (update_card_display m d w).2) el
  = Some (if expanded d then collapse_text (config d)
          else expand_text (config d)) /\
  shown_text (lvgl_log (update_card_display m d w).2) lbl
  = Some (if expanded d then content cd
          else match truncated_text (update_card_display m d w).1 with
               | Some t => Some t
               | None => content cd
               end).
Proof.
  intros Hcd Hlbl Hel Hne. unfold update_card_display.
  rewrite Hcd, Hlbl.
  destruct (expanded d) eqn:Ee.
  - rewrite Hel, Ee. unfold log_call. simpl.
    rewrite ?shown_text_app. simpl.
    split; repeat case_decide; congruence.
  - destruct (truncated_text d) as [t|] eqn:Et; simpl;
      rewrite ?Et, ?Hel, ?Ee; simpl;
      destruct (content_container d); unfold log_call; simpl;
      rewrite ?shown_text_app; simpl; rewrite ?shown_text_app; simpl;
      rewrite ?Et; split; repeat case_decide; congruence.
Qed.

(** An action displays the card with the flag it asks for; the click
    handler then runs a callback of the configuration and, on collapsing,
    scrolls the card into view. *)
Lemma run_card_action_effect (m : bool) (a : card_action) (c : lv_obj_t)
    (w : cworld) (d : lv_card_widget_data_t) :
  card_of c w = Some d ->
  exists w' extra,
    run_card_action m a c w = Ret w' /\
    card_of c w'
    = Some (update_card_display m (set_expanded (expanded_after a d) d) w).1 /\
    (forall o, o <> c -> user_data w' !! o = user_data w !! o) /\
    lvgl_log w'
    = lvgl_log (update_card_display m (set_expanded (expanded_after a d) d) w).2
      ++ extra /\
    Forall (fun c => match c with
                     | lv_label_set_text _ _ | set_indicator_visible _ _ => False
                     | _ => True
                     end) extra /\
    card_callbacks extra
    = match a with
      | Clicked =>
          if expanded d then
            match on_collapse (config d) with
            | Some cb => [call_on_collapse cb]
            | None => []
            end
          else
            match on_expand (config d) with
            | Some cb => [call_on_expand cb]
            | None => []
            end
      | _ => []
      end.
Proof.
  intros Hd.
  destruct a as [|b|]; simpl;
    unfold lv_expandable_card_toggle, lv_expandable_card_set_expanded,
      expand_button_event_cb;
    rewrite (card_of_live _ _ _ Hd).
  - destruct (update_card_display_effect m
                (set_expanded (negb (expanded d)) d) w)
      as (_ & _ & _ & _ & _ & Hu & _ & _).
    destruct (update_card_display _ _ _) as [d1 w1]; simpl in *.
    exists (set_block c (Live d1) w1), [].
    split; [done|]. split; [apply card_of_set_block|].
    split; [|by rewrite app_nil_r].
    intros o Ho. unfold set_block; simpl. rewrite Hu.
    by apply lookup_insert_ne.
  - destruct (update_card_display_effect m (set_expanded b d) w)
      as (_ & _ & _ & _ & _ & Hu & _ & _).
    destruct (update_card_display _ _ _) as [d1 w1]; simpl in *.
    exists (set_block c (Live d1) w1), [].
    split; [done|]. split; [apply card_of_set_block|].
    split; [|by rewrite app_nil_r].
    intros o Ho. unfold set_block; simpl. rewrite Hu.
    by apply lookup_insert_ne.
  - destruct (update_card_display_effect m
                (set_expanded (negb (expanded d)) d) w)
      as (He & Hc & _ & _ & _ & Hu & _ & _).
    destruct (update_card_display _ _ _) as [d1 w1]; simpl in *.
    rewrite He, Hc.
    eexists _,
      ((if negb (expanded d) then
          match on_expand (config d) with
          | Some cb => [call_on_expand cb]
          | None => []
          end
        else
          match on_collapse (config d) with
          | Some cb => [call_on_collapse cb]
          | None => []
          end)
       ++ if negb (expanded d) then [] else [lv_obj_scroll_to_view c]).
    split; [reflexivity|].
    destruct (expanded d), (on_expand (config d)), (on_collapse (config d));
      simpl;
      (split; [apply card_of_set_block|]);
      (split; [intros o Ho; unfold set_block, log_call; simpl;
               rewrite lookup_insert_ne by done; by rewrite Hu|]);
      (split; [unfold set_block, log_call; simpl;
               by rewrite <- ?app_assoc, ?app_nil_r|]);
      (split; [repeat constructor|done]).
Qed.

End CardDisplay.

(** X17: the card shows what its flag says.  After a toggle, a click or
    [lv_expandable_card_set_expanded] on a card with its content label
    and button label, the flag is the one asked for, the button label
    shows [collapse_text] when the card is expanded and [expand_text] when
    it is collapsed, and the content label shows the full content when
    expanded and, when collapsed, the cached truncated text, or the full
    content when there is none. *)
Theorem card_display_follows_flag (m : bool) (a : Card.card_action)
    (c : lv_obj_t) (w : Card.cworld) (d : Card.lv_card_widget_data_t)
    (cd : Card.lv_card_data_t) (lbl el : lv_obj_t) :
  Card.card_of c w = Some d ->
  Card.card_data d = Some cd ->
  Card.content_label d = Some lbl ->
  Card.expand_label d = Some el ->
  lbl <> el ->
  exists w' d',
    Card.run_card_action m a c w = Ret w' /\
    Card.card_of c w' = Some d' /\
    Card.expanded d' = Card.expanded_after a d /\
    shown_text (lvgl_log w') el
    = Some (if Card.expanded d' then Card.collapse_text (Card.config d)
            else Card.expand_text (Card.config d)) /\
    shown_text (lvgl_log w') lbl
    = Some (if Card.expanded d' then Card.content cd
            else match Card.truncated_text d' with
                 | Some t => Some t
                 | None => Card.content cd
                 end).
Proof.
  intros Hd Hcd Hlbl Hel Hne.
  destruct (run_card_action_effect m a c w d Hd)
    as (w' & extra & E & Hd' & _ & Hlog & Hq & _).
  destruct (update_card_display_effect m
              (Card.set_expanded (Card.expanded_after a d) d) w)
    as (He & _).
  destruct (update_card_display_shown m
              (Card.set_expanded (Card.expanded_after a d) d) w cd lbl el
              Hcd Hlbl Hel Hne) as (Hs1 & Hs2).
  set (r := Card.update_card_display m
              (Card.set_expanded (Card.expanded_after a d) d) w) in *.
  exists w', r.1. split; [exact E|]. split; [exact Hd'|].
  split; [exact He|]. rewrite Hlog, He.
  destruct (shown_quiet (lvgl_log r.2) extra el Hq) as [_ ->].
  destruct (shown_quiet (lvgl_log r.2) extra lbl Hq) as [_ ->].
  split; [exact Hs1|exact Hs2].
Qed.

(** X18: the truncated text is computed once.  Whatever the action on a
    card with live data, the configuration and the card data are kept and
    no other widget's data is touched; a cached [truncated_text] is kept;
    an empty cache stays empty when the card ends expanded, and is filled
    with the result of [create_truncated_text] on the content, the
    configured length and suffix when the card ends collapsed (it stays
    empty when that allocation fails). *)
Theorem card_truncated_text_cached (m : bool) (a : Card.card_action)
    (c : lv_obj_t) (w : Card.cworld) (d : Card.lv_card_widget_data_t) :
  Card.card_of c w = Some d ->
  exists w' d',
    Card.run_card_action m a c w = Ret w' /\
    Card.card_of c w' = Some d' /\
    Card.config d' = Card.config d /\
    Card.card_data d' = Card.card_data d /\
    (forall o, o <> c -> user_data w' !! o = user_data w !! o) /\
    (forall t, Card.truncated_text d = Some t ->
               Card.truncated_text d' = Some t) /\
    (Card.expanded_after a d = true ->
     Card.truncated_text d' = Card.truncated_text d) /\
    (forall cd lbl,
        Card.expanded_after a d = false ->
        Card.truncated_text d = None ->
        Card.card_data d = Some cd ->
        Card.content_label d = Some lbl ->
        Card.truncated_text d'
        = Card.create_truncated_text m (Card.content cd)
            (Card.truncate_length (Card.config d))
            (Card.truncate_suffix (Card.config d))).
Proof.
  intros Hd.
  destruct (run_card_action_effect m a c w d Hd)
    as (w' & extra & E & Hd' & Hfr & _).
  destruct (update_card_display_effect m
              (Card.set_expanded (Card.expanded_after a d) d) w)
    as (_ & Hc & Hcd & _ & _ & _ & _ & Ht).
  eexists w', _. split; [exact E|]. split; [exact Hd'|].
  split; [exact Hc|]. split; [exact Hcd|]. split; [exact Hfr|].
  rewrite Ht. simpl.
  split; [|split].
  - intros t Et. rewrite Et.
    by destruct (Card.expanded_after a d), (Card.card_data d),
         (Card.content_label d).
  - by intros ->.
  - intros cd lbl -> Et Ecd Elbl. by rewrite Et, Ecd, Elbl.
Qed.

(** X19: the callbacks of the configuration are run by the click handler
    only.  A click on the button runs [on_expand] when the card becomes
    expanded and [on_collapse] when it becomes collapsed, once, if the
    configuration has that callback; [lv_expandable_card_toggle] and
    [lv_expandable_card_set_expanded] run neither. *)
Theorem card_callbacks_on_click_only (m : bool) (a : Card.card_action)
    (c : lv_obj_t) (w : Card.cworld) (d : Card.lv_card_widget_data_t) :
  Card.card_of c w = Some d ->
  exists w',
    Card.run_card_action m a c w = Ret w' /\
    Card.card_callbacks (lvgl_log w')
    = Card.card_callbacks (lvgl_log w)
      ++ match a with
         | Card.Clicked =>
             if Card.expanded d then
               match Card.on_collapse (Card.config d) with
               | Some cb => [call_on_collapse cb]
               | None => []
               end
             else
               match Card.on_expand (Card.config d) with
               | Some cb => [call_on_expand cb]
               | None => []
               end
         | _ => []
         end.
Proof.
  intros Hd.
  destruct (run_card_action_effect m a c w d Hd)
    as (w' & extra & E & _ & _ & Hlog & _ & Hcb).
  destruct (update_card_display_effect m
              (Card.set_expanded (Card.expanded_after a d) d) w)
    as (_ & _ & _ & _ & _ & _ & Hk & _).
  exists w'. split; [exact E|].
  by rewrite Hlog, card_callbacks_app, Hk, Hcb.
Qed.

(** X20: [lv_expandable_card_create] returns [NULL], leaving the world as
    it is, exactly when the parent is [NULL], the card data is [NULL] or
    lacks its title or its content, or the allocation of the data or of
    the container fails.  Otherwise the new card is collapsed, holds the
    card data, has [expand_text] and [collapse_text] set, to "Show More"
    and "Show Less" where the configuration has none, and its button
    label shows [expand_text]. *)
Theorem lv_expandable_card_create_spec (env : Card.create_env)
    (parent : option lv_obj_t) (cd : option Card.lv_card_data_t)
    (cfg : option Card.lv_card_config_t) (w : Card.cworld) :
  ((Card.lv_expandable_card_create env parent cd cfg w).1 = None <->
   parent = None \/ Card.validate_card_data cd = false \/
   Card.malloc_data env = false \/ Card.new_container env = None) /\
  ((Card.lv_expandable_card_create env parent cd cfg w).1 = None ->
   (Card.lv_expandable_card_create env parent cd cfg w).2 = w) /\
  (Card.validate_card_data cd = true <->
   exists t s, cd = Some {| Card.title := Some t; Card.content := Some s |}) /\
  (forall c,
      (Card.lv_expandable_card_create env parent cd cfg w).1 = Some c ->
      exists d,
        Card.new_container env = Some c /\
        Card.card_of c (Card.lv_expandable_card_create env parent cd cfg w).2
        = Some d /\
        Card.expanded d = false /\
        Card.card_data d = cd /\
        Card.expand_text (Card.config d)
        = Some (default "Show More"
                  (Card.expand_text
                     (default Card.lv_expandable_card_get_default_config cfg))) /\
        Card.collapse_text (Card.config d)
        = Some (default "Show Less"
                  (Card.collapse_text
                     (default Card.lv_expandable_card_get_default_config cfg))) /\
        shown_text
          (lvgl_log (Card.lv_expandable_card_create env parent cd cfg w).2)
          (Card.new_expand_label env)
        = Some (Card.expand_text (Card.config d))).
Proof.
  assert (Hval : Card.validate_card_data cd = true <->
                 exists t s, cd = Some {| Card.title := Some t;
                                          Card.content := Some s |}).
  { unfold Card.validate_card_data. split.
    - destruct cd as [[[t|] [s|]]|]; try done. intros _. by exists t, s.
    - by intros (t & s & ->). }
  enough (Hmain :
      ((Card.lv_expandable_card_create env parent cd cfg w).1 = None <->
       parent = None \/ Card.validate_card_data cd = false \/
       Card.malloc_data env = false \/ Card.new_container env = None) /\
      ((Card.lv_expandable_card_create env parent cd cfg w).1 = None ->
       (Card.lv_expandable_card_create env parent cd cfg w).2 = w) /\
      (forall c,
          (Card.lv_expandable_card_create env parent cd cfg w).1 = Some c ->
          exists d,
            Card.new_container env = Some c /\
            Card.card_of c
              (Card.lv_expandable_card_create env parent cd cfg w).2
            = Some d /\
            Card.expanded d = false /\
            Card.card_data d = cd /\
            Card.expand_text (Card.config d)
            = Some (default "Show More"
                      (Card.expand_text
                         (default Card.lv_expandable_card_get_default_config
                            cfg))) /\
            Card.collapse_text (Card.config d)
            = Some (default "Show Less"
                      (Card.collapse_text
                         (default Card.lv_expandable_card_get_default_config
                            cfg))) /\
            shown_text
              (lvgl_log (Card.lv_expandable_card_create env parent cd cfg w).2)
              (Card.new_expand_label env)
            = Some (Card.expand_text (Card.config d))))
    by (destruct Hmain as (H1 & H2 & H3); done).
  unfold Card.lv_expandable_card_create.
  destruct parent as [p|];
    [|split; [split; [intros _; auto|done]|split; done]].
  destruct (Card.validate_card_data cd) eqn:Ev; simpl;
    [|split; [split; [intros _; auto|done]|split; done]].
  destruct (Card.malloc_data env) eqn:Em; simpl;
    [|split; [split; [intros _; auto|done]|split; done]].
  destruct (Card.new_container env) as [cc|] eqn:Ec; simpl;
    [|split; [split; [intros _; auto 6|done]|split; done]].
  set (data := {| Card.card_data := cd; Card.expanded := false |}).
  set (w1 := log_call _ w).
  destruct (update_card_display_effect (Card.malloc_text env) data w1)
    as (He & Hc & Hcd & _ & Hel & _ & _ & _).
  destruct (proj1 Hval eq_refl) as (t & s & Hcd0).
  destruct (Card.update_card_display (Card.malloc_text env) data w1)
    as [d1 w2] eqn:Eu; simpl in *.
  split.
  { split; [done|]. intros [?|[?|[?|?]]]; done. }
  split; [done|].
  intros c [= <-]. exists d1.
  split; [done|]. split; [apply card_of_set_block|].
  split; [done|]. split; [done|]. rewrite Hc. simpl.
  split; [done|]. split; [done|].
  unfold Card.update_card_display in Eu. simpl in Eu.
  rewrite Hcd0 in Eu. simpl in Eu. injection Eu as <- <-.
  unfold log_call. simpl. rewrite shown_text_app. simpl.
  by rewrite decide_True.
Qed.

(** ** widget_common.c *)

(** X21: [widget_get_theme_font] never returns [NULL]; a size that is none
    of the three enumerators is treated as NORMAL; and with the default
    style, whose fonts are all [NULL], every size gets the LVGL default
    font. *)
Theorem widget_get_theme_font_total :
  (forall style font_override size,
      exists f, widget_get_theme_font style font_override size = Some f) /\
  (forall st size,
      size <> WIDGET_FONT_SIZE_SMALL -> size <> WIDGET_FONT_SIZE_LARGE ->
      widget_get_theme_font (Some st) None size
      = widget_get_theme_font (Some st) None WIDGET_FONT_SIZE_NORMAL) /\
  (forall size,
      widget_get_theme_font (Some widget_get_default_style) None size
      = Some LV_FONT_DEFAULT).
Proof.
  split; [|split].
  - intros [st|] [f|] size; unfold widget_get_theme_font; eauto.
    repeat case_match; unfold or_default_font; repeat case_match; eauto.
  - intros st size Hs Hl. unfold widget_get_theme_font.
    destruct (Z.eqb_spec size WIDGET_FONT_SIZE_SMALL); [done|].
    destruct (Z.eqb_spec size WIDGET_FONT_SIZE_NORMAL);
      [by subst|].
    by destruct (Z.eqb_spec size WIDGET_FONT_SIZE_LARGE).
  - intros size. unfold widget_get_theme_font.
    repeat case_match; done.
Qed.

(** ** theme_manager.cpp and ui_helpers.cpp *)

Section ThemeFacts.
Import Theme.

Lemma theme_manager_apply_theme_display (s : ui_state) (disp : lv_display_t) :
  g_display s = Some disp ->
  g_is_dark_mode (theme_manager_apply_theme s) = g_is_dark_mode s /\
  g_display (theme_manager_apply_theme s) = Some disp /\
  display_theme (theme_manager_apply_theme s)
  = Some (theme_of_mode (g_is_dark_mode s)) /\
  theme_inits (theme_manager_apply_theme s)
  = theme_inits s ++ [theme_of_mode (g_is_dark_mode s)] /\
  title_style (theme_manager_apply_theme s)
  = match title_style s with
    | Some st =>
        Some {| text_color :=
                  Some (lv_theme_get_color_primary
                          (Some (theme_of_mode (g_is_dark_mode s))));
                bg_color := bg_color st |}
    | None => None
    end /\
  button_style (theme_manager_apply_theme s)
  = match button_style s with
    | Some st =>
        Some {| text_color :=
                  Some (if g_is_dark_mode s then lv_color_black
                        else lv_color_white);
                bg_color :=
                  Some (lv_theme_get_color_primary
                          (Some (theme_of_mode (g_is_dark_mode s)))) |}
    | None => None
    end /\
  switch_style (theme_manager_apply_theme s)
  = match switch_style s with
    | Some st =>
        Some {| text_color := text_color st;
                bg_color :=
                  Some (lv_theme_get_color_primary
                          (Some (theme_of_mode (g_is_dark_mode s)))) |}
    | None => None
    end.
Proof.
  intros Hd. unfold theme_manager_apply_theme. rewrite Hd.
  unfold ui_update_switch_style, ui_update_button_style,
    ui_update_title_style, lv_disp_set_theme; simpl.
  destruct (title_style s), (button_style s), (switch_style s); simpl;
    by rewrite ?Hd.
Qed.

Lemma theme_manager_apply_theme_no_display (s : ui_state) :
  g_display s = None -> theme_manager_apply_theme s = s.
Proof. intros Hd. unfold theme_manager_apply_theme. by rewrite Hd. Qed.

Lemma set_mode_same (s : ui_state) : set_mode (g_display s) (g_is_dark_mode s) s = s.
Proof. by destruct s. Qed.

(** The styles agree with the mode and with the theme of the display. *)
Lemma styles_follow_mode_step (disp : lv_display_t) (a : ui_action)
    (s : ui_state) :
  (g_display s = Some disp /\
   display_theme s = Some (theme_of_mode (g_is_dark_mode s)) /\
   title_style s
   = Some {| text_color := Some (lv_theme_get_color_primary (display_theme s));
             bg_color := None |} /\
   button_style s
   = Some {| text_color := Some (if g_is_dark_mode s then lv_color_black
                                 else lv_color_white);
             bg_color := Some (lv_theme_get_color_primary (display_theme s)) |} /\
   switch_style s
   = Some {| text_color := None;
             bg_color := Some (lv_theme_get_color_primary (display_theme s)) |}) ->
  g_display (run_ui_action a s) = Some disp /\
  display_theme (run_ui_action a s)
  = Some (theme_of_mode (g_is_dark_mode (run_ui_action a s))) /\
  title_style (run_ui_action a s)
  = Some {| text_color :=
              Some (lv_theme_get_color_primary
                      (display_theme (run_ui_action a s)));
            bg_color := None |} /\
  button_style (run_ui_action a s)
  = Some {| text_color :=
              Some (if g_is_dark_mode (run_ui_action a s) then lv_color_black
                    else lv_color_white);
            bg_color :=
              Some (lv_theme_get_color_primary
                      (display_theme (run_ui_action a s))) |} /\
  switch_style (run_ui_action a s)
  = Some {| text_color := None;
            bg_color :=
              Some (lv_theme_get_color_primary
                      (display_theme (run_ui_action a s))) |}.
Proof.
  intros (Hd & Hth & Ht & Hb & Hs).
  assert (Happly : forall b,
             let s' := theme_manager_apply_theme (set_mode (g_display s) b s) in
             g_display s' = Some disp /\
             display_theme s' = Some (theme_of_mode (g_is_dark_mode s')) /\
             title_style s'
             = Some {| text_color :=
                         Some (lv_theme_get_color_primary (display_theme s'));
                       bg_color := None |} /\
             button_style s'
             = Some {| text_color :=
                         Some (if g_is_dark_mode s' then lv_color_black
                               else lv_color_white);
                       bg_color :=
                         Some (lv_theme_get_color_primary (display_theme s')) |} /\
             switch_style s'
             = Some {| text_color := None;
                       bg_color :=
                         Some (lv_theme_get_color_primary (display_theme s')) |}).
  { intros b s'.
    destruct (theme_manager_apply_theme_display
                (set_mode (g_display s) b s) disp Hd)
      as (H1 & H2 & H3 & _ & H5 & H6 & H7).
    fold s' in H1, H2, H3, H5, H6, H7. simpl in *.
    rewrite H1, H2, H3, H5, H6, H7, Ht, Hb, Hs. done. }
  destruct a as [b| | |]; simpl.
  - unfold theme_manager_set_dark_mode.
    destruct (Bool.eqb _ _); [done|]. apply Happly.
  - unfold theme_manager_toggle_mode, theme_manager_set_dark_mode.
    destruct (Bool.eqb _ _); [done|]. apply Happly.
  - pose proof (Happly (g_is_dark_mode s)) as H.
    by rewrite set_mode_same in H.
  - unfold ui_create_title_label. simpl. by rewrite Ht, Hb, Hs.
Qed.

End ThemeFacts.

(** X22: once the application has started (the theme manager
    initialised, then the first title label created), whatever it then
    does to the theme, in any order: the theme of the display is the one
    of the current mode; the three styles exist; the text of the title
    style and the backgrounds of the button and switch styles carry the
    primary colour of that theme; and the text of the button style is
    black in dark mode and white in light mode. *)
Theorem theme_styles_follow_mode (disp : Theme.lv_display_t)
    (acts : list Theme.ui_action) :
  let s := Theme.run_ui_actions acts (Theme.started disp) in
  let primary := Theme.lv_theme_get_color_primary (Theme.display_theme s) in
  Theme.display_theme s
  = Some (Theme.theme_of_mode (Theme.theme_manager_is_dark_mode s)) /\
  Theme.dark (Theme.theme_of_mode (Theme.theme_manager_is_dark_mode s))
  = Theme.theme_manager_is_dark_mode s /\
  Theme.ui_get_title_style s
  = Some {| Theme.text_color := Some primary; Theme.bg_color := None |} /\
  Theme.ui_get_button_style s
  = Some {| Theme.text_color :=
              Some (if Theme.theme_manager_is_dark_mode s
                    then Theme.lv_color_black else Theme.lv_color_white);
            Theme.bg_color := Some primary |} /\
  Theme.ui_get_switch_style s
  = Some {| Theme.text_color := None; Theme.bg_color := Some primary |}.
Proof.
  intros s primary. subst s primary.
  unfold Theme.theme_manager_is_dark_mode, Theme.ui_get_title_style,
    Theme.ui_get_button_style, Theme.ui_get_switch_style.
  enough (H : forall s0,
             (Theme.g_display s0 = Some disp /\
              Theme.display_theme s0
              = Some (Theme.theme_of_mode (Theme.g_is_dark_mode s0)) /\
              Theme.title_style s0
              = Some {| Theme.text_color :=
                          Some (Theme.lv_theme_get_color_primary
                                  (Theme.display_theme s0));
                        Theme.bg_color := None |} /\
              Theme.button_style s0
              = Some {| Theme.text_color :=
                          Some (if Theme.g_is_dark_mode s0
                                then Theme.lv_color_black
                                else Theme.lv_color_white);
                        Theme.bg_color :=
                          Some (Theme.lv_theme_get_color_primary
                                  (Theme.display_theme s0)) |} /\
              Theme.switch_style s0
              = Some {| Theme.text_color := None;
                        Theme.bg_color :=
                          Some (Theme.lv_theme_get_color_primary
                                  (Theme.display_theme s0)) |}) ->
             let s := Theme.run_ui_actions acts s0 in
             Theme.g_display s = Some disp /\
             Theme.display_theme s
             = Some (Theme.theme_of_mode (Theme.g_is_dark_mode s)) /\
             Theme.title_style s
             = Some {| Theme.text_color :=
                         Some (Theme.lv_theme_get_color_primary
                                 (Theme.display_theme s));
                       Theme.bg_color := None |} /\
             Theme.button_style s
             = Some {| Theme.text_color :=
                         Some (if Theme.g_is_dark_mode s
                               then Theme.lv_color_black
                               else Theme.lv_color_white);
                       Theme.bg_color :=
                         Some (Theme.lv_theme_get_color_primary
                                 (Theme.display_theme s)) |} /\
             Theme.switch_style s
             = Some {| Theme.text_color := None;
                       Theme.bg_color :=
                         Some (Theme.lv_theme_get_color_primary
                                 (Theme.display_theme s)) |}).
  { destruct (H (Theme.started disp)) as (_ & H2 & H3 & H4 & H5);
      [by vm_compute|].
    split; [exact H2|]. split; [by destruct (Theme.g_is_dark_mode _)|].
    done. }
  induction acts as [|a acts IH]; intros s0 Hinv; [exact Hinv|].
  simpl. apply IH. by apply styles_follow_mode_step.
Qed.

(** X23: the mode and when a theme is applied.
    [theme_manager_set_dark_mode] leaves the mode asked for; with the
    current mode it changes nothing; with the other mode and a display it
    builds one theme, the dark one exactly for dark mode, and sets it on
    the display; without a display it only records the mode.
    [theme_manager_toggle_mode] negates the mode, and
    [theme_manager_init] always leaves light mode. *)
Theorem theme_applied_on_change (s : Theme.ui_state) (dark_mode : bool) :
  Theme.theme_manager_is_dark_mode
    (Theme.theme_manager_set_dark_mode dark_mode s) = dark_mode /\
  (Theme.theme_manager_is_dark_mode s = dark_mode ->
   Theme.theme_manager_set_dark_mode dark_mode s = s) /\
  (Theme.theme_manager_is_dark_mode s <> dark_mode ->
   Theme.g_display s <> None ->
   Theme.theme_inits (Theme.theme_manager_set_dark_mode dark_mode s)
   = Theme.theme_inits s ++ [Theme.theme_of_mode dark_mode] /\
   Theme.display_theme (Theme.theme_manager_set_dark_mode dark_mode s)
   = Some (Theme.theme_of_mode dark_mode) /\
   Theme.dark (Theme.theme_of_mode dark_mode) = dark_mode) /\
  (Theme.g_display s = None ->
   Theme.theme_manager_set_dark_mode dark_mode s
   = Theme.set_mode None dark_mode s) /\
  Theme.theme_manager_is_dark_mode (Theme.theme_manager_toggle_mode s)
  = negb (Theme.theme_manager_is_dark_mode s) /\
  (forall disp,
      Theme.theme_manager_is_dark_mode (Theme.theme_manager_init disp s)
      = false).
Proof.
  unfold Theme.theme_manager_is_dark_mode.
  assert (Hmode : forall s0, Theme.g_is_dark_mode
                               (Theme.theme_manager_apply_theme s0)
                             = Theme.g_is_dark_mode s0).
  { intros s0. destruct (Theme.g_display s0) as [d|] eqn:Ed.
    - by destruct (theme_manager_apply_theme_display s0 d Ed) as [-> _].
    - by rewrite theme_manager_apply_theme_no_display. }
  assert (Hset : forall b, Theme.g_is_dark_mode
                             (Theme.theme_manager_set_dark_mode b s) = b).
  { intros b. unfold Theme.theme_manager_set_dark_mode.
    destruct (Bool.eqb _ _) eqn:E.
    - by apply Bool.eqb_prop in E.
    - by rewrite Hmode. }
  split; [apply Hset|]. split; [|split; [|split; [|split]]].
  - intros <-. unfold Theme.theme_manager_set_dark_mode.
    by rewrite Bool.eqb_reflx.
  - intros Hne Hd. unfold Theme.theme_manager_set_dark_mode.
    destruct (Bool.eqb _ _) eqn:E; [by apply Bool.eqb_prop in E|].
    destruct (Theme.g_display s) as [d|] eqn:Ed; [|done].
    destruct (theme_manager_apply_theme_display
                (Theme.set_mode (Some d) dark_mode s) d eq_refl)
      as (_ & _ & H3 & H4 & _).
    split; [exact H4|]. split; [exact H3|]. by destruct dark_mode.
  - intros Hd. unfold Theme.theme_manager_set_dark_mode. rewrite Hd.
    destruct (Bool.eqb _ _) eqn:E.
    + apply Bool.eqb_prop in E. subst dark_mode.
      by rewrite <- Hd, set_mode_same.
    + by rewrite theme_manager_apply_theme_no_display.
  - apply Hset.
  - intros disp. unfold Theme.theme_manager_init. by rewrite Hmode.
Qed.

(** X24: the styles are initialised once, by the first title label.
    Before it [ui_get_title_style], [ui_get_button_style] and
    [ui_get_switch_style] return [NULL], and applying a theme does not
    change that, for none of the three; [ui_create_title_label]
    initialises each style that is not yet initialised and leaves each of
    the others as it is; a title style it initialises has the primary
    colour for its text, a switch style the primary colour for its
    background, and a button style the primary colour for its background
    and white text whatever the mode, so that a first title label created
    in dark mode leaves white button text in dark mode. *)
Theorem ui_styles_initialised_once (s : Theme.ui_state) :
  (Theme.ui_get_title_style Theme.boot = None /\
   Theme.ui_get_button_style Theme.boot = None /\
   Theme.ui_get_switch_style Theme.boot = None) /\
  ((Theme.ui_get_title_style s = None ->
    Theme.ui_get_title_style (Theme.theme_manager_apply_theme s) = None) /\
   (Theme.ui_get_button_style s = None ->
    Theme.ui_get_button_style (Theme.theme_manager_apply_theme s) = None) /\
   (Theme.ui_get_switch_style s = None ->
    Theme.ui_get_switch_style (Theme.theme_manager_apply_theme s) = None)) /\
  (exists t b sw,
      Theme.ui_get_title_style (Theme.ui_create_title_label s) = Some t /\
      Theme.ui_get_button_style (Theme.ui_create_title_label s) = Some b /\
      Theme.ui_get_switch_style (Theme.ui_create_title_label s) = Some sw) /\
  ((forall st,
       Theme.ui_get_title_style s = Some st ->
       Theme.ui_get_title_style (Theme.ui_create_title_label s) = Some st) /\
   (forall st,
       Theme.ui_get_button_style s = Some st ->
       Theme.ui_get_button_style (Theme.ui_create_title_label s) = Some st) /\
   (forall st,
       Theme.ui_get_switch_style s = Some st ->
       Theme.ui_get_switch_style (Theme.ui_create_title_label s) = Some st)) /\
  ((Theme.ui_get_title_style s = None ->
    Theme.ui_get_title_style (Theme.ui_create_title_label s)
    = Some {| Theme.text_color :=
                Some (Theme.lv_theme_get_color_primary
                        (Theme.display_theme s));
              Theme.bg_color := None |}) /\
   (Theme.ui_get_button_style s = None ->
    Theme.ui_get_button_style (Theme.ui_create_title_label s)
    = Some {| Theme.text_color := Some Theme.lv_color_white;
              Theme.bg_color :=
                Some (Theme.lv_theme_get_color_primary
                        (Theme.display_theme s)) |}) /\
   (Theme.ui_get_switch_style s = None ->
    Theme.ui_get_switch_style (Theme.ui_create_title_label s)
    = Some {| Theme.text_color := None;
              Theme.bg_color :=
                Some (Theme.lv_theme_get_color_primary
                        (Theme.display_theme s)) |})) /\
  (Theme.g_is_dark_mode (Theme.ui_create_title_label s)
   = Theme.g_is_dark_mode s /\
   Theme.display_theme (Theme.ui_create_title_label s)
   = Theme.display_theme s /\
   Theme.theme_inits (Theme.ui_create_title_label s) = Theme.theme_inits s) /\
  (forall disp,
      let late :=
        Theme.ui_create_title_label
          (Theme.theme_manager_toggle_mode
             (Theme.theme_manager_init (Some disp) Theme.boot)) in
      Theme.theme_manager_is_dark_mode late = true /\
      Theme.ui_get_button_style late
      = Some {| Theme.text_color := Some Theme.lv_color_white;
                Theme.bg_color :=
                  Some (Theme.lv_theme_get_color_primary
                          (Some (Theme.theme_of_mode true))) |}).
Proof.
  unfold Theme.ui_get_title_style, Theme.ui_get_button_style,
    Theme.ui_get_switch_style.
  split; [done|].
  split; [|split; [|split; [|split; [|split; [done|done]]]]].
  - destruct (Theme.g_display s) as [d|] eqn:Ed.
    + destruct (theme_manager_apply_theme_display s d Ed)
        as (_ & _ & _ & _ & -> & -> & ->).
      split; [|split]; by intros ->.
    + by rewrite theme_manager_apply_theme_no_display.
  - unfold Theme.ui_create_title_label. simpl.
    destruct (Theme.title_style s), (Theme.button_style s),
      (Theme.switch_style s); by eexists _, _, _.
  - unfold Theme.ui_create_title_label. simpl.
    split; [|split]; by intros st ->.
  - unfold Theme.ui_create_title_label. simpl.
    split; [|split]; by intros ->.
Qed.

(** ** settings_modal.cpp *)

Section SettingsFacts.
Import Settings.

Lemma pwm_value_in_range (v : Z) :
  0 <= v <= 100 -> pwm_value v = v * 255 / 100 /\ 0 <= pwm_value v <= 255.
Proof.
  intros Hv. unfold pwm_value, wrap_u8.
  rewrite wrap_int_id by (unfold in_int, INT_MIN, INT_MAX; lia).
  rewrite Z.quot_div_nonneg by lia.
  assert (0 <= v * 255 / 100 <= 255).
  { split; [apply Z.div_pos; lia|].
    apply Z.div_le_upper_bound; lia. }
  rewrite Z.mod_small by lia. lia.
Qed.

End SettingsFacts.

(** X25: the brightness maps into the 8 bits of the PWM duty.  For a
    slider value from 0 to 100, [pwm_value] is [value * 255 / 100], from 0
    at 0 to 255 at 100, growing with the value, and nothing is lost in the
    conversion to [uint8_t]; a value from 101 to 200 would wrap around to
    a duty 256 lower. *)
Theorem pwm_value_spec (v : Z) :
  0 <= v <= 100 ->
  Settings.pwm_value v = v * 255 / 100 /\
  0 <= Settings.pwm_value v <= 255 /\
  Settings.pwm_value 0 = 0 /\
  Settings.pwm_value 100 = 255 /\
  (forall v', v <= v' <= 100 -> Settings.pwm_value v <= Settings.pwm_value v') /\
  (forall v', 101 <= v' <= 200 ->
              Settings.pwm_value v' = v' * 255 / 100 - 256).
Proof.
  intros Hv. destruct (pwm_value_in_range v Hv) as [Heq Hr].
  split; [done|]. split; [done|]. split; [done|]. split; [done|]. split.
  - intros v' Hv'. destruct (pwm_value_in_range v') as [-> _]; [lia|].
    rewrite Heq. apply Z.div_le_mono; lia.
  - intros v' Hv'. unfold Settings.pwm_value, Settings.wrap_u8.
    rewrite wrap_int_id by (unfold in_int, INT_MIN, INT_MAX; lia).
    rewrite Z.quot_div_nonneg by lia.
    assert (257 <= v' * 255 / 100 <= 510).
    { split; [apply Z.div_le_lower_bound; lia|].
      apply Z.div_le_upper_bound; lia. }
    replace (v' * 255 / 100) with ((v' * 255 / 100 - 256) + 1 * 256) at 1
      by lia.
    rewrite Z.mod_add by lia. apply Z.mod_small. lia.
Qed.

(** X26: the backlight follows the brightness.  From the start of the
    program, whatever the order in which the settings are opened and the
    slider moved within its range, the stored brightness is between 0 and
    100, every duty written to the PWM channel is between 0 and 255, and
    once something was done the last duty written is
    [brightness * 255 / 100]. *)
Theorem backlight_follows_brightness (acts : list Settings.settings_action) :
  Forall Settings.in_slider_range acts ->
  let s := Settings.run_settings_actions acts Settings.boot in
  0 <= Settings.brightness_level s <= 100 /\
  Forall (fun duty => 0 <= duty <= 255) (Settings.ledc_writes s) /\
  (acts <> [] ->
   last (Settings.ledc_writes s)
   = Some (Settings.brightness_level s * 255 / 100)).
Proof.
  intros Hacts.
  enough (H : forall s0,
             (0 <= Settings.brightness_level s0 <= 100 /\
              Forall (fun duty => 0 <= duty <= 255) (Settings.ledc_writes s0) /\
              (Settings.pwm_initialized s0 = true ->
               last (Settings.ledc_writes s0)
               = Some (Settings.brightness_level s0 * 255 / 100))) ->
             let s := Settings.run_settings_actions acts s0 in
             0 <= Settings.brightness_level s <= 100 /\
             Forall (fun duty => 0 <= duty <= 255) (Settings.ledc_writes s) /\
             (Settings.pwm_initialized s = true ->
              last (Settings.ledc_writes s)
              = Some (Settings.brightness_level s * 255 / 100)) /\
             (acts <> [] ->
              last (Settings.ledc_writes s)
              = Some (Settings.brightness_level s * 255 / 100))).
  { destruct (H Settings.boot) as (H1 & H2 & _ & H4).
    - simpl. split; [lia|]. split; [constructor|done].
    - done. }
  induction Hacts as [|a acts Ha _ IH]; intros s0 (Hb & Hw & Hl).
  { simpl. done. }
  assert (Hstep :
            0 <= Settings.brightness_level (Settings.run_settings_action a s0)
            <= 100 /\
            Forall (fun duty => 0 <= duty <= 255)
              (Settings.ledc_writes (Settings.run_settings_action a s0)) /\
            last (Settings.ledc_writes (Settings.run_settings_action a s0))
            = Some (Settings.brightness_level
                      (Settings.run_settings_action a s0) * 255 / 100)).
  { destruct a as [|v]; simpl in *.
    - split; [done|].
      destruct (pwm_value_in_range (Settings.brightness_level s0) Hb)
        as [Heq Hr].
      destruct (Settings.pwm_initialized s0) eqn:Ei.
      + split; [done|]. by apply Hl.
      + split.
        * apply Forall_app. split; [done|]. by constructor.
        * by rewrite last_snoc, Heq.
    - destruct (pwm_value_in_range v Ha) as [Heq Hr].
      split; [done|]. split.
      + apply Forall_app. split; [done|]. by constructor.
      + by rewrite last_snoc, Heq. }
  destruct Hstep as (Hb' & Hw' & Hl').
  destruct (IH (Settings.run_settings_action a s0)) as (H1 & H2 & H3 & H4).
  { split; [done|]. split; [done|]. by intros _. }
  simpl. split; [done|]. split; [done|]. split; [done|]. intros _.
  destruct acts as [|a' acts']; [exact Hl'|]. by apply H4.
Qed.

(** ** main.cpp *)

Section MainLoopFacts.
Import MainLoop.

(** One run of [loop] keeps the four counters a partition of the
    samples. *)
Lemma loop_buckets_step (k : Z) (current_time render_time : Z)
    (s : loop_state) :
  0 <= k < INT_MAX ->
  (0 <= frames_under_100ms s /\ 0 <= frames_under_450ms s /\
   0 <= frames_under_550ms s /\ 0 <= frames_above_550ms s /\
   frames_under_100ms s + frames_under_450ms s + frames_under_550ms s
   + frames_above_550ms s = render_samples s /\
   render_samples s <= k) ->
  0 <= frames_under_100ms (loop current_time render_time s) /\
  0 <= frames_under_450ms (loop current_time render_time s) /\
  0 <= frames_under_550ms (loop current_time render_time s) /\
  0 <= frames_above_550ms (loop current_time render_time s) /\
  frames_under_100ms (loop current_time render_time s)
  + frames_under_450ms (loop current_time render_time s)
  + frames_under_550ms (loop current_time render_time s)
  + frames_above_550ms (loop current_time render_time s)
  = render_samples (loop current_time render_time s) /\
  render_samples (loop current_time render_time s) <= k + 1.
Proof.
  intros Hk (H1 & H2 & H3 & H4 & Hsum & Hle).
  unfold loop; simpl.
  destruct (_ && _); [lia|].
  rewrite (wrap_int_id (render_samples s + 1))
    by (unfold in_int, INT_MIN, INT_MAX in *; lia).
  destruct (render_time <? 100000);
    [|destruct (render_time <? 450000);
      [|destruct (render_time <? 550000)]];
    rewrite wrap_int_id by (unfold in_int, INT_MIN, INT_MAX in *; lia);
    lia.
Qed.

End MainLoopFacts.

(** X27: the four responsiveness counters partition the samples.  After
    any number of runs of [loop] from the start of the program, up to
    [INT_MAX] of them, each of the four counters is non-negative, they sum
    to [render_samples], and [render_samples] is at most the number of
    runs; each run counts its render time in exactly one of them. *)
Theorem loop_buckets_partition (clock : list (Z * Z)) :
  Z.of_nat (length clock) <= INT_MAX ->
  let s := MainLoop.run_loops clock MainLoop.boot in
  0 <= MainLoop.frames_under_100ms s /\
  0 <= MainLoop.frames_under_450ms s /\
  0 <= MainLoop.frames_under_550ms s /\
  0 <= MainLoop.frames_above_550ms s /\
  MainLoop.frames_under_100ms s + MainLoop.frames_under_450ms s
  + MainLoop.frames_under_550ms s + MainLoop.frames_above_550ms s
  = MainLoop.render_samples s /\
  MainLoop.render_samples s <= Z.of_nat (length clock).
Proof.
  intros Hlen.
  enough (H : forall (k : Z) s0,
             0 <= k -> k + Z.of_nat (length clock) <= INT_MAX ->
             (0 <= MainLoop.frames_under_100ms s0 /\
              0 <= MainLoop.frames_under_450ms s0 /\
              0 <= MainLoop.frames_under_550ms s0 /\
              0 <= MainLoop.frames_above_550ms s0 /\
              MainLoop.frames_under_100ms s0 + MainLoop.frames_under_450ms s0
              + MainLoop.frames_under_550ms s0
              + MainLoop.frames_above_550ms s0
              = MainLoop.render_samples s0 /\
              MainLoop.render_samples s0 <= k) ->
             let s := MainLoop.run_loops clock s0 in
             0 <= MainLoop.frames_under_100ms s /\
             0 <= MainLoop.frames_under_450ms s /\
             0 <= MainLoop.frames_under_550ms s /\
             0 <= MainLoop.frames_above_550ms s /\
             MainLoop.frames_under_100ms s + MainLoop.frames_under_450ms s
             + MainLoop.frames_under_550ms s + MainLoop.frames_above_550ms s
             = MainLoop.render_samples s /\
             MainLoop.render_samples s <= k + Z.of_nat (length clock)).
  { apply (H 0 MainLoop.boot); [lia|lia|]. simpl. lia. }
  clear Hlen. induction clock as [|[ct rt] clock IH]; intros k s0 Hk Hlen Hinv.
  { simpl. rewrite Z.add_0_r. exact Hinv. }
  simpl in Hlen. simpl.
  replace (k + Z.of_nat (S (length clock)))
    with ((k + 1) + Z.of_nat (length clock)) by lia.
  apply IH; [lia|lia|].
  apply loop_buckets_step; [lia|done].
Qed.

(** ** lvgl_setup.cpp *)

Section TouchFacts.
Import Touch.

Lemma presses_snoc (log : list touch_log) (l : touch_log) :
  presses (log ++ [l]) = presses log + (if is_press l then 1 else 0) /\
  releases (log ++ [l]) = releases log + (if is_press l then 0 else 1).
Proof.
  unfold presses, releases. rewrite !filter_app, !List.length_app.
  destruct l; simpl; lia.
Qed.

Lemma run_touch_snoc (samples : list (option (Z * Z))) (touch : option (Z * Z))
    (r : lv_indev_data_t * touch_state) :
  run_touch (samples ++ [touch]) r
  = touch_read_callback touch (run_touch samples r).1 (run_touch samples r).2.
Proof. unfold run_touch. by rewrite foldl_app. Qed.

End TouchFacts.

(** X28: [touch_read_callback] reports and logs the edges of the touch.
    After any sequence of reads from the start of the program: the
    presses logged are as many as the releases, plus one while the panel
    is held; after a read with the panel touched the state reported is
    pressed, at the coordinates read, and [was_pressed] is set; after a
    read with the panel free the state reported is released, at the point
    reported before, and [was_pressed] is clear. *)
Theorem touch_read_callback_edges (samples : list (option (Z * Z)))
    (data : Touch.lv_indev_data_t) :
  let r := Touch.run_touch samples (data, Touch.boot) in
  Touch.presses (Touch.logged r.2)
  = Touch.releases (Touch.logged r.2)
    + (if Touch.was_pressed r.2 then 1 else 0) /\
  (forall x y,
      last samples = Some (Some (x, y)) ->
      r.1 = {| Touch.state := Touch.LV_INDEV_STATE_PR;
               Touch.point_x := x; Touch.point_y := y |} /\
      Touch.was_pressed r.2 = true) /\
  (last samples = Some None ->
   Touch.state r.1 = Touch.LV_INDEV_STATE_REL /\
   Touch.was_pressed r.2 = false /\
   forall before,
     samples = before ++ [None] ->
     Touch.point_x r.1
     = Touch.point_x (Touch.run_touch before (data, Touch.boot)).1 /\
     Touch.point_y r.1
     = Touch.point_y (Touch.run_touch before (data, Touch.boot)).1).
Proof.
  simpl. induction samples as [|touch samples IH] using rev_ind.
  { split; [done|]. split; [done|done]. }
  destruct IH as (Hcount & _).
  rewrite run_touch_snoc, last_snoc.
  destruct (Touch.run_touch samples (data, Touch.boot)) as [d s] eqn:Er.
  simpl in *. split; [|split].
  - destruct touch as [[x y]|]; simpl;
      destruct (Touch.was_pressed s); simpl in *;
      try (destruct (presses_snoc (Touch.logged s) (Touch.touch_pressed x y))
             as [-> ->]);
      try (destruct (presses_snoc (Touch.logged s) Touch.touch_released)
             as [-> ->]);
      simpl; lia.
  - intros x y [= ->]. done.
  - intros [= ->]. simpl. split; [done|]. split; [done|].
    intros before Hb. apply app_inj_tail in Hb as [<- _].
    by rewrite Er.
Qed.

(** ** The further theorems at work on the application's widgets *)

Lemma gallery_images_no_null_src :
  ~ Gallery.has_null_src (Some Examples.gallery_images) 3.
Proof.
  intros (arr & i & im & Harr & Hi & Him & Hsrc).
  injection Harr as <-.
  destruct i as [|[|[|i]]]; simpl in Hi, Him;
    [injection Him as <-; discriminate Hsrc ..|lia].
Defined.

Lemma pulled_data_live :
  PullRefresh.data_of Examples.pull_container Examples.pulled_world
  = Some Examples.pulled_data.
Proof. by vm_compute. Defined.

Lemma gallery_next_prev_inverse_witness :
  exists w1 w2,
    Gallery.lv_image_gallery_next (Some Examples.gallery)
      Examples.gallery_world = Ret (tt, w1) /\
    Gallery.lv_image_gallery_prev (Some Examples.gallery) w1 = Ret (tt, w2) /\
    Gallery.gallery_of Examples.gallery w2 = Some Examples.gallery_data.
Proof.
  exact (proj1 (gallery_next_prev_inverse Examples.gallery_world
                  Examples.gallery Examples.gallery_data gallery_data_live
                  gallery_data_wf gallery_data_in_range)).
Defined.

Lemma gallery_full_cycle_witness :
  exists w',
    Gallery.repeat_step 3 Gallery.lv_image_gallery_next Examples.gallery
      Examples.gallery_world = Ret (tt, w') /\
    Gallery.gallery_of Examples.gallery w' = Some Examples.gallery_data.
Proof.
  exact (proj1 (proj2 (proj2
           (gallery_full_cycle Examples.gallery_world Examples.gallery
              Examples.gallery_data gallery_data_live gallery_data_wf
              gallery_data_in_range)))).
Defined.

Lemma gallery_navigation_frame_witness :
  exists r w' i,
    Gallery.lv_image_gallery_set_index (Some Examples.gallery) 2
      Examples.gallery_world = Ret (r, w') /\
    Gallery.gallery_of Examples.gallery w'
    = Some (Gallery.set_current_index i Examples.gallery_data) /\
    (forall o, o <> Examples.gallery ->
               user_data w' !! o = user_data Examples.gallery_world !! o) /\
    lvgl_log Examples.gallery_world `prefix_of` lvgl_log w'.
Proof.
  exact (proj2 (gallery_navigation_frame Examples.gallery_world
                  Examples.gallery Examples.gallery_data gallery_data_live
                  gallery_data_wf gallery_data_in_range) 2).
Defined.

Lemma gallery_failed_button_dangles_witness :
  exists w',
    Gallery.lv_image_gallery_create Examples.failing_gallery_env
      (Some Examples.tab) (Some Examples.gallery_images) 3 (Some "Gallery")
      None Examples.empty_gallery_world = Ret (None, w') /\
    user_data w' !! Examples.gallery = Some Freed /\
    Gallery.lv_image_gallery_next (Some Examples.gallery) w' = Trap /\
    Gallery.gallery_delete_event_cb Examples.gallery w' = Trap.
Proof.
  destruct (gallery_failed_button_dangles Examples.failing_gallery_env
              Examples.gallery (Some Examples.tab) Examples.gallery_images 3
              (Some "Gallery") None Examples.empty_gallery_world)
    as [(w' & Hc & Hu & Hn & _ & _ & _ & Hdel) _].
  - discriminate.
  - lia.
  - simpl. lia.
  - exact gallery_images_no_null_src.
  - reflexivity.
  - reflexivity.
  - right. reflexivity.
  - exists w'. split; [exact Hc|]. split; [exact Hu|].
    split; [exact Hn|exact Hdel].
Defined.

Lemma refresh_flag_follows_state_witness :
  exists d,
    PullRefresh.data_of Examples.pull_container Examples.refreshing_world
    = Some d /\
    (PullRefresh.refresh_triggered d = true <->
     PullRefresh.state d = PullRefresh.PULL_STATE_REFRESHING) /\
    PullRefresh.lv_pull_refresh_is_refreshing (Some Examples.pull_container)
      Examples.refreshing_world
    = Ret (PullRefresh.refresh_triggered d, Examples.refreshing_world).
Proof.
  exact (refresh_flag_follows_state Examples.pull_container
           Examples.refreshing_world refreshing_world_reachable).
Defined.

Lemma refresh_callback_only_on_release_witness :
  (exists w',
      PullRefresh.run_action
        (PullRefresh.Event PullRefresh.LV_EVENT_SCROLL_END (-40) 2000)
        Examples.pull_container Examples.pulled_world = Ret w' /\
      PullRefresh.refresh_calls (lvgl_log w')
      = PullRefresh.refresh_calls (lvgl_log Examples.pulled_world)
        ++ [call_refresh_cb "pull_refresh_callback" Examples.pull_container]) /\
  (exists w',
      PullRefresh.run_action
        (PullRefresh.Event PullRefresh.LV_EVENT_SCROLL_END (-40) 500)
        Examples.pull_container Examples.pulled_world = Ret w' /\
      PullRefresh.refresh_calls (lvgl_log w')
      = PullRefresh.refresh_calls (lvgl_log Examples.pulled_world) ++ []).
Proof.
  pose proof (refresh_callback_only_on_release Examples.pull_container
                Examples.pulled_world Examples.pulled_data pulled_data_live)
    as [_ H].
  split.
  - exact (H (PullRefresh.Event PullRefresh.LV_EVENT_SCROLL_END (-40) 2000)).
  - exact (H (PullRefresh.Event PullRefresh.LV_EVENT_SCROLL_END (-40) 500)).
Defined.

Lemma state_callback_on_change_witness :
  (exists w' d',
      PullRefresh.run_action
        (PullRefresh.Event PullRefresh.LV_EVENT_SCROLL (-40) 1990)
        Examples.pull_container Examples.pull_world = Ret w' /\
      PullRefresh.data_of Examples.pull_container w' = Some d' /\
      (PullRefresh.state d' = PullRefresh.PULL_STATE_IDLE ->
       PullRefresh.state_calls (lvgl_log w')
       = PullRefresh.state_calls (lvgl_log Examples.pull_world)) /\
      (PullRefresh.state d' <> PullRefresh.PULL_STATE_IDLE ->
       PullRefresh.state_calls (lvgl_log w')
       = PullRefresh.state_calls (lvgl_log Examples.pull_world)
         ++ [call_state_cb "pull_state_callback" Examples.pull_container
               (PullRefresh.current_pull_distance d')
               match PullRefresh.state d' with
               | PullRefresh.PULL_STATE_READY
               | PullRefresh.PULL_STATE_REFRESHING => true
               | _ => false
               end])) /\
  (exists w2 d2,
      PullRefresh.scroll_event_cb_calling [PullRefresh.Complete]
        PullRefresh.LV_EVENT_SCROLL_END Examples.pull_container (-40) 2000
        Examples.pulled_world = Ret w2 /\
      PullRefresh.data_of Examples.pull_container w2 = Some d2 /\
      PullRefresh.state Examples.pulled_data = PullRefresh.PULL_STATE_READY /\
      PullRefresh.state d2 = PullRefresh.PULL_STATE_IDLE /\
      PullRefresh.state_calls (lvgl_log w2)
      = PullRefresh.state_calls (lvgl_log Examples.pulled_world)
        ++ [call_state_cb "pull_state_callback" Examples.pull_container 40
              true;
            call_state_cb "pull_state_callback" Examples.pull_container 0
              false]).
Proof.
  split.
  - exact (proj1 (state_callback_on_change Examples.pull_container
                    Examples.pull_world
                    (Examples.fresh_pull_data Examples.pull_config)
                    pull_data_live)
             (PullRefresh.Event PullRefresh.LV_EVENT_SCROLL (-40) 1990)).
  - refine (proj2 (state_callback_on_change Examples.pull_container
                     Examples.pulled_world Examples.pulled_data
                     pulled_data_live) (-40) 2000 _ _ _).
    + reflexivity.
    + reflexivity.
    + discriminate.
Defined.

Lemma scroll_end_outcome_witness :
  exists w' d',
    PullRefresh.scroll_event_cb PullRefresh.LV_EVENT_SCROLL_END
      (Some Examples.pull_container) (-40) 2000 Examples.pulled_world
    = Ret w' /\
    PullRefresh.data_of Examples.pull_container w' = Some d' /\
    PullRefresh.state d' = PullRefresh.PULL_STATE_REFRESHING /\
    PullRefresh.last_refresh_time d' = 2000 /\
    PullRefresh.current_pull_distance d' = 40 /\
    PullRefresh.scroll_event_cb_calling [] PullRefresh.LV_EVENT_SCROLL_END
      Examples.pull_container (-40) 2000 Examples.pulled_world = Ret w' /\
    exists w2 d2,
      PullRefresh.scroll_event_cb_calling [PullRefresh.Complete]
        PullRefresh.LV_EVENT_SCROLL_END Examples.pull_container (-40) 2000
        Examples.pulled_world = Ret w2 /\
      PullRefresh.data_of Examples.pull_container w2 = Some d2 /\
      PullRefresh.state d2 = PullRefresh.PULL_STATE_IDLE /\
      PullRefresh.refresh_triggered d2 = false /\
      PullRefresh.current_pull_distance d2 = 0 /\
      PullRefresh.last_refresh_time d2 = 2000.
Proof.
  destruct (scroll_end_outcome Examples.pull_container Examples.pulled_world
              Examples.pulled_data (-40) 2000 pulled_data_live eq_refl)
    as (w' & d' & E & Hd & _ & Hs & Ht & _ & Hdist & Hinert & _ & Hcompl).
  exists w', d'. split; [exact E|]. split; [exact Hd|].
  split; [apply Hs; left; reflexivity|].
  split; [apply Ht; reflexivity|]. split; [exact Hdist|].
  split; [exact Hinert|]. apply Hcompl; [reflexivity|discriminate].
Defined.

Lemma disabled_container_ignores_events_witness :
  exists w' d',
    PullRefresh.lv_pull_refresh_set_enabled (Some Examples.pull_container)
      false Examples.pulled_world = Ret (tt, w') /\
    PullRefresh.data_of Examples.pull_container w' = Some d' /\
    PullRefresh.enabled d' = false /\
    PullRefresh.state d' = PullRefresh.PULL_STATE_IDLE /\
    forall code scroll_y tick,
      PullRefresh.scroll_event_cb code (Some Examples.pull_container)
        scroll_y tick w' = Ret w'.
Proof.
  exact (proj1 (proj2 (disabled_container_ignores_events
                         Examples.pull_container Examples.pulled_world
                         Examples.pulled_data pulled_data_live))).
Defined.

Lemma indicator_follows_state_witness :
  exists w' d',
    PullRefresh.run_action
      (PullRefresh.Event PullRefresh.LV_EVENT_SCROLL_END (-40) 2000)
      Examples.pull_container Examples.pulled_world = Ret w' /\
    PullRefresh.data_of Examples.pull_container w' = Some d' /\
    PullRefresh.state d' = PullRefresh.PULL_STATE_REFRESHING /\
    shown_visible (lvgl_log w') 4%positive = Some true /\
    shown_text (lvgl_log w') 4%positive
    = Some (Some PullRefresh.LV_SYMBOL_REFRESH) /\
    shown_visible (lvgl_log w') 3%positive = Some true /\
    shown_text (lvgl_log w') 3%positive = Some (Some "Refreshing...").
Proof.
  destruct (indicator_follows_state Examples.pull_container
              Examples.pulled_world Examples.pulled_data
              (PullRefresh.Event PullRefresh.LV_EVENT_SCROLL_END (-40) 2000)
              3%positive 4%positive pulled_data_live eq_refl eq_refl eq_refl)
    as (w' & d' & E & Hd & _ & Hch); [discriminate|].
  assert (Hw : PullRefresh.run_action
                 (PullRefresh.Event PullRefresh.LV_EVENT_SCROLL_END (-40) 2000)
                 Examples.pull_container Examples.pulled_world
               = Ret Examples.refreshing_world) by (by vm_compute).
  rewrite Hw in E. injection E as <-.
  rewrite refreshing_data_live in Hd. injection Hd as <-.
  exists Examples.refreshing_world, Examples.refreshing_data.
  split; [exact Hw|]. split; [exact refreshing_data_live|].
  split; [reflexivity|].
  assert (Hne : PullRefresh.state Examples.refreshing_data
                <> PullRefresh.state Examples.pulled_data) by discriminate.
  destruct (Hch Hne) as (H1 & H2 & H3 & H4). done.
Defined.

Lemma shalom_olam_strlen : Card.strlen Examples.shalom_olam = 17.
Proof. by vm_compute. Defined.

Lemma utf8_char_count_spec_witness :
  Card.strlen Examples.shalom_olam = 17 /\
  Card.utf8_char_count (Some Examples.shalom_olam)
  = Z.of_nat (Card.lead_bytes (Card.c_str Examples.shalom_olam)) /\
  0 <= Card.utf8_char_count (Some Examples.shalom_olam)
  <= Card.strlen Examples.shalom_olam.
Proof.
  split; [exact shalom_olam_strlen|].
  destruct (utf8_char_count_spec Examples.shalom_olam) as (H1 & H2 & _).
  - rewrite shalom_olam_strlen. unfold INT_MAX. lia.
  - split; [exact H1|exact H2].
Defined.

Lemma utf8_char_to_byte_pos_spec_witness :
  exists pre rest,
    Card.c_str Examples.shalom_olam = pre +:+ rest /\
    Card.utf8_char_to_byte_pos (Some Examples.shalom_olam) 3
    = Z.of_nat (String.length pre) /\
    Card.lead_bytes pre
    = Nat.min (Z.to_nat (3 - 1))
        (Card.lead_bytes (Card.c_str Examples.shalom_olam)) /\
    match rest with
    | String c _ => Card.is_continuation c = false
    | EmptyString => True
    end.
Proof.
  refine (proj1 (utf8_char_to_byte_pos_spec Examples.shalom_olam 3 _ _)).
  - rewrite shalom_olam_strlen. unfold INT_MAX. lia.
  - unfold INT_MAX. lia.
Defined.

Lemma create_truncated_text_long_spec_witness :
  exists pre c rest,
    Card.c_str Examples.shalom_olam = pre +:+ String c rest /\
    Card.is_continuation c = false /\
    Card.create_truncated_text true (Some Examples.shalom_olam) 6 (Some "...")
    = Some (pre +:+ Card.c_str "...") /\
    Card.utf8_char_count (Some pre) = 6 - Card.utf8_char_count (Some "...") - 1 /\
    Card.utf8_char_count (Some (pre +:+ Card.c_str "...")) = 6 - 1.
Proof.
  refine (create_truncated_text_long_spec Examples.shalom_olam "..." 6 _ _ _).
  - vm_compute. discriminate.
  - vm_compute. reflexivity.
  - vm_compute. reflexivity.
Defined.

Lemma card_data_created_fields :
  Card.card_data Examples.card_data_created = Some Examples.english_article /\
  Card.content_label Examples.card_data_created = Some 5%positive /\
  Card.expand_label Examples.card_data_created = Some 7%positive.
Proof. by vm_compute. Defined.

Lemma card_display_follows_flag_witness :
  exists w' d',
    Card.run_card_action true Card.Clicked Examples.card Examples.card_world
    = Ret w' /\
    Card.card_of Examples.card w' = Some d' /\
    Card.expanded d' = true /\
    shown_text (lvgl_log w') 7%positive = Some (Some "Show Less") /\
    shown_text (lvgl_log w') 5%positive
    = Some (Card.content Examples.english_article).
Proof.
  destruct card_data_created_fields as (Hcd & Hlbl & Hel).
  destruct (card_display_follows_flag true Card.Clicked Examples.card
              Examples.card_world Examples.card_data_created
              Examples.english_article 5%positive 7%positive
              card_data_live Hcd Hlbl Hel)
    as (w' & d' & E & Hd & He & Hs1 & Hs2); [discriminate|].
  exists w', d'. split; [exact E|]. split; [exact Hd|].
  assert (He' : Card.expanded d' = true) by (rewrite He; reflexivity).
  split; [exact He'|]. rewrite He' in Hs1, Hs2.
  split; [exact Hs1|exact Hs2].
Defined.

Lemma card_truncated_text_cached_witness :
  exists w' d',
    Card.run_card_action true Card.Toggle Examples.card Examples.card_world
    = Ret w' /\
    Card.card_of Examples.card w' = Some d' /\
    Card.truncated_text d'
    = Some "This English card demonstrates that the expandable card ...".
Proof.
  destruct (card_truncated_text_cached true Card.Toggle Examples.card
              Examples.card_world Examples.card_data_created card_data_live)
    as (w' & d' & E & Hd & _ & _ & _ & Hkeep & _).
  exists w', d'. split; [exact E|]. split; [exact Hd|].
  apply Hkeep. by vm_compute.
Defined.

Lemma callback_card_data_live :
  Card.card_of Examples.card Examples.callback_card_world
  = Some Examples.callback_card_data /\
  Card.card_of Examples.card Examples.expanded_callback_card_world
  = Some Examples.expanded_callback_card_data /\
  Card.expanded Examples.callback_card_data = false /\
  Card.expanded Examples.expanded_callback_card_data = true.
Proof. repeat split; by vm_compute. Defined.

Lemma card_callbacks_on_click_only_witness :
  (exists w',
      Card.run_card_action true Card.Clicked Examples.card
        Examples.callback_card_world = Ret w' /\
      Card.card_callbacks (lvgl_log w')
      = Card.card_callbacks (lvgl_log Examples.callback_card_world)
        ++ [call_on_expand "on_card_expand"]) /\
  (exists w',
      Card.run_card_action true Card.Clicked Examples.card
        Examples.expanded_callback_card_world = Ret w' /\
      Card.card_callbacks (lvgl_log w')
      = Card.card_callbacks (lvgl_log Examples.expanded_callback_card_world)
        ++ [call_on_collapse "on_card_collapse"]) /\
  (exists w',
      Card.run_card_action true Card.Toggle Examples.card
        Examples.callback_card_world = Ret w' /\
      Card.card_callbacks (lvgl_log w')
      = Card.card_callbacks (lvgl_log Examples.callback_card_world) ++ []) /\
  (exists w',
      Card.run_card_action true (Card.SetExpanded false) Examples.card
        Examples.expanded_callback_card_world = Ret w' /\
      Card.card_callbacks (lvgl_log w')
      = Card.card_callbacks (lvgl_log Examples.expanded_callback_card_world)
        ++ []).
Proof.
  destruct callback_card_data_live as (Hc & He & _ & _).
  split; [|split; [|split]].
  - exact (card_callbacks_on_click_only true Card.Clicked Examples.card
             Examples.callback_card_world Examples.callback_card_data Hc).
  - exact (card_callbacks_on_click_only true Card.Clicked Examples.card
             Examples.expanded_callback_card_world
             Examples.expanded_callback_card_data He).
  - exact (card_callbacks_on_click_only true Card.Toggle Examples.card
             Examples.callback_card_world Examples.callback_card_data Hc).
  - exact (card_callbacks_on_click_only true (Card.SetExpanded false)
             Examples.card Examples.expanded_callback_card_world
             Examples.expanded_callback_card_data He).
Defined.

Lemma pwm_value_spec_witness :
  Settings.pwm_value 40 = 40 * 255 / 100 /\
  0 <= Settings.pwm_value 40 <= 255 /\
  Settings.pwm_value 40 <= Settings.pwm_value 41.
Proof.
  destruct (pwm_value_spec 40) as (H1 & H2 & _ & _ & H3 & _); [lia|].
  split; [exact H1|]. split; [exact H2|]. apply H3. lia.
Defined.

Lemma backlight_follows_brightness_witness :
  Settings.brightness_level
    (Settings.run_settings_actions Examples.settings_session Settings.boot)
  = 40 /\
  last (Settings.ledc_writes
          (Settings.run_settings_actions Examples.settings_session
             Settings.boot))
  = Some (40 * 255 / 100).
Proof.
  destruct (backlight_follows_brightness Examples.settings_session)
    as (_ & _ & H).
  - repeat constructor; simpl; lia.
  - split; [reflexivity|]. by apply H.
Defined.

Lemma loop_buckets_partition_witness :
  MainLoop.frames_under_100ms
    (MainLoop.run_loops Examples.four_frames MainLoop.boot)
  + MainLoop.frames_under_450ms
      (MainLoop.run_loops Examples.four_frames MainLoop.boot)
  + MainLoop.frames_under_550ms
      (MainLoop.run_loops Examples.four_frames MainLoop.boot)
  + MainLoop.frames_above_550ms
      (MainLoop.run_loops Examples.four_frames MainLoop.boot)
  = MainLoop.render_samples
      (MainLoop.run_loops Examples.four_frames MainLoop.boot) /\
  MainLoop.render_samples
    (MainLoop.run_loops Examples.four_frames MainLoop.boot) = 4.
Proof.
  destruct (loop_buckets_partition Examples.four_frames)
    as (_ & _ & _ & _ & Hsum & _).
  - simpl. unfold INT_MAX. lia.
  - split; [exact Hsum|reflexivity].
Defined.

(** ** The operations fail in other ways too *)

(** C4 as it is worded fails: "no operation fails in any other way".  On
    the gallery of the tab, whose data is live,
    [lv_image_gallery_set_index] with index 3 returns its failure value
    [false]; and on the container a failed constructor leaves behind,
    whose user data is not [NULL], [lv_image_gallery_get_index] does not
    return [-1]: it reads the freed block. *)
Lemma gallery_operations_fail_otherwise :
  (~ null_widget Examples.gallery_world (Some Examples.gallery) /\
   Gallery.gallery_of Examples.gallery Examples.gallery_world
   = Some Examples.gallery_data /\
   Gallery.lv_image_gallery_set_index (Some Examples.gallery) 3
     Examples.gallery_world = Ret (false, Examples.gallery_world)) /\
  (Gallery.lv_image_gallery_create Examples.failing_gallery_env
     (Some Examples.tab) (Some Examples.gallery_images) 3 (Some "Gallery")
     None Examples.empty_gallery_world
   = Ret (None, Examples.failed_gallery_world) /\
   ~ null_widget Examples.failed_gallery_world (Some Examples.gallery) /\
   user_data Examples.failed_gallery_world !! Examples.gallery = Some Freed /\
   Gallery.lv_image_gallery_get_index (Some Examples.gallery)
     Examples.failed_gallery_world = Trap).
Proof.
  assert (Hnot : forall (w : Gallery.gworld) b,
             user_data w !! Examples.gallery = Some b ->
             ~ null_widget w (Some Examples.gallery)).
  { intros w b Hb [H | (o & [= <-] & Ho)]; [done|]. by rewrite Hb in Ho. }
  split.
  - split; [|split; by vm_compute].
    apply (Hnot _ (Live Examples.gallery_data)). by vm_compute.
  - split; [by vm_compute|]. split; [|split; by vm_compute].
    apply (Hnot _ Freed). by vm_compute.
Qed.

Lemma lv_image_gallery_create_keeps_failed_container_witness :
  exists w',
    Gallery.lv_image_gallery_create Examples.failing_gallery_env
      (Some Examples.tab) (Some Examples.gallery_images) 3 (Some "Gallery")
      None Examples.empty_gallery_world = Ret (None, w') /\
    w' <> Examples.empty_gallery_world /\
    user_data w' !! Examples.gallery = Some Freed /\
    Gallery.lv_image_gallery_get_index (Some Examples.gallery) w' = Trap.
Proof.
  destruct (lv_image_gallery_create_keeps_failed_container
              Examples.failing_gallery_env Examples.gallery
              (Some Examples.tab) Examples.gallery_images 3 (Some "Gallery")
              None Examples.empty_gallery_world)
    as [(w' & Hc & Hne & Hu & _ & Hg & _) _].
  - discriminate.
  - lia.
  - simpl. lia.
  - exact gallery_images_no_null_src.
  - reflexivity.
  - reflexivity.
  - right. reflexivity.
  - reflexivity.
  - exists w'. split; [exact Hc|]. split; [exact Hne|].
    split; [exact Hu|exact Hg].
Defined.
